(** * supersolids: the split-operator Schroedinger engine and its initializers

    A shallow embedding of [supersolids/functions.py] and
    [supersolids/Schroedinger.py].

    Conventions of the embedding.
    - A Python/numpy float is a real number of [R]; Python ints are [Z].
      Where numpy would produce [nan] or [inf] (a division by zero between
      arrays, a root or a fractional power of a negative number) the real
      model gives the value of Rocq's total functions; every property
      below carries the hypotheses (a positive coupling, a positive norm,
      a time step that is not zero, ...) that keep the values it reads
      away from these cases.
      The one function whose contract is about [nan], the dipolar kernel,
      is modelled over an explicit [float64] type with [NaN] and infinities.
    - A numpy array is a shape and its row-major data.
    - Python exceptions and [sys.exit] are results [Raise e]; what is
      printed is an explicit trace of events. *)

From Stdlib Require Import String Reals ZArith Lia Lra Bool Arith List.
Import ListNotations.
Open Scope R_scope.

Set Implicit Arguments.

(** ** Exceptions, results, traces *)

Inductive exn : Type :=
| ValueError
| IndexError
| ZeroDivisionError
| AttributeError
| TypeError
| SystemExit (code : Z).

Inductive result (A : Type) : Type :=
| Ok (a : A)
| Raise (e : exn).

Arguments Ok {A} a.
Arguments Raise {A} e.

Definition rbind {A B} (r : result A) (k : A -> result B) : result B :=
  match r with
  | Ok a => k a
  | Raise e => Raise e
  end.

Declare Scope res_scope.
Delimit Scope res_scope with res.
Notation "x <- r ;; k" := (rbind r (fun x => k))
  (at level 61, r at next level, right associativity) : res_scope.

Inductive event : Type :=
| Stderr (msg : string)
| PrintMu (mu : R)
| PrintE (E E_sol : R).

(** ** Scalars *)

(** Python's float division: a zero divisor raises. *)
Definition py_div (a b : R) : result R :=
  if Req_dec_T b 0 then Raise ZeroDivisionError else Ok (a / b).

(** [x ** p] on floats. An integral exponent is repeated multiplication
    (or its inverse); otherwise the power of a positive base is
    [exp (p * ln x)]. For a negative base and a fractional exponent numpy
    gives [nan]: the value written here for that case stands for no
    float, and the properties keep the base positive. *)
Definition float_pow (x p : R) : R :=
  if Req_dec_T p (IZR (Int_part p)) then powerRZ x (Int_part p)
  else if Rlt_dec 0 x then Rpower x p
  else 0.

Definition C : Type := (R * R)%type.

Definition RtoC (r : R) : C := (r, 0).
Definition Ci : C := (0, 1).
Definition Cadd (a b : C) : C := (fst a + fst b, snd a + snd b).
Definition Cmul (a b : C) : C :=
  (fst a * fst b - snd a * snd b, fst a * snd b + snd a * fst b).
Definition Cscal (r : R) (a : C) : C := (r * fst a, r * snd a).
Definition Cdivr (a : C) (r : R) : C := (fst a / r, snd a / r).
Definition Cabs (a : C) : R := sqrt (fst a * fst a + snd a * snd a).
Definition Cexp (a : C) : C :=
  (exp (fst a) * cos (snd a), exp (fst a) * sin (snd a)).
Definition Csum (l : list C) : C := fold_right Cadd (RtoC 0) l.
Definition Rsum (l : list R) : R := fold_right Rplus 0 l.

Class Dflt (A : Type) : Type := dflt : A.
#[export] Instance Dflt_R : Dflt R := 0.
#[export] Instance Dflt_C : Dflt C := RtoC 0.

(** ** Arrays *)

Record ndarray (A : Type) : Type := mk_nd {
  shape : list nat;
  data : list A
}.

Arguments mk_nd {A} shape data.

Definition size (s : list nat) : nat := fold_right Nat.mul 1%nat s.

Definition ndim {A} (a : ndarray A) : nat := length (shape a).

(** Row-major multi-index of a flat index, and back. *)
Fixpoint unravel (s : list nat) (i : nat) : list nat :=
  match s with
  | [] => []
  | _ :: s' => (i / size s')%nat :: unravel s' (i mod size s')
  end.

Fixpoint ravel (s m : list nat) : nat :=
  match s, m with
  | _ :: s', k :: m' => (k * size s' + ravel s' m')%nat
  | _, _ => 0%nat
  end.

Definition item {A} `{Dflt A} (a : ndarray A) (m : list nat) : A :=
  nth (ravel (shape a) m) (data a) dflt.

(** The array of shape [s] whose entry at multi-index [m] is [f m]. *)
Definition tabulate {A} (s : list nat) (f : list nat -> A) : ndarray A :=
  mk_nd s (map (fun i => f (unravel s i)) (seq 0 (size s))).

Definition np_map {A B} (f : A -> B) (a : ndarray A) : ndarray B :=
  mk_nd (shape a) (map f (data a)).

(** numpy broadcasting: shapes are aligned on their last axis; two extents
    agree when they are equal or one of them is 1. *)
Definition bdim (a b : nat) : option nat :=
  if (a =? b)%nat then Some a
  else if (a =? 1)%nat then Some b
  else if (b =? 1)%nat then Some a
  else None.

Fixpoint bshape_rev (r1 r2 : list nat) : option (list nat) :=
  match r1, r2 with
  | [], r => Some r
  | r, [] => Some r
  | a :: r1', b :: r2' =>
      match bdim a b, bshape_rev r1' r2' with
      | Some c, Some r => Some (c :: r)
      | _, _ => None
      end
  end.

Definition broadcast_shapes (s1 s2 : list nat) : option (list nat) :=
  option_map (@rev nat) (bshape_rev (rev s1) (rev s2)).

(** The index into an operand of shape [s] for the result index [m]. *)
Definition bidx (s m : list nat) : list nat :=
  map (fun nk => if (fst nk =? 1)%nat then 0%nat else snd nk)
      (combine s (skipn (length m - length s) m)).

Definition np_binop {A B D} `{Dflt A} `{Dflt B}
    (f : A -> B -> D) (a : ndarray A) (b : ndarray B) : result (ndarray D) :=
  match broadcast_shapes (shape a) (shape b) with
  | None => Raise ValueError
  | Some s =>
      Ok (tabulate s (fun m => f (item a (bidx (shape a) m))
                                 (item b (bidx (shape b) m))))
  end.

(** In-place [a += b], [a *= b]: the broadcast result must have the shape
    of [a]. *)
Definition np_inplace {A B} `{Dflt A} `{Dflt B}
    (f : A -> B -> A) (a : ndarray A) (b : ndarray B) : result (ndarray A) :=
  (r <- np_binop f a b ;;
   if list_eq_dec Nat.eq_dec (shape r) (shape a) then Ok r
   else Raise ValueError)%res.

(** [a ** 2] and [a ** 2.0], elementwise. *)
Definition sq (a : ndarray R) : ndarray R := np_map (fun v => float_pow v 2) a.

Definition np_sum (a : ndarray R) : R := Rsum (data a).

(** Basic indexing [a[lo1:hi1, lo2:hi2, ...]] with non-negative bounds:
    more slices than axes is an [IndexError]; bounds are clipped to the
    extent; axes without a slice are taken whole. *)
Definition clip_slice (n : nat) (sl : nat * nat) : nat * nat :=
  let lo := Nat.min (fst sl) n in
  let hi := Nat.min (snd sl) n in
  (lo, (hi - lo)%nat).

Fixpoint slice_plan (s : list nat) (sls : list (nat * nat)) : list (nat * nat) :=
  match s, sls with
  | n :: s', sl :: sls' => clip_slice n sl :: slice_plan s' sls'
  | n :: s', [] => (0%nat, n) :: slice_plan s' []
  | [], _ => []
  end.

Definition getitem_slices {A} `{Dflt A}
    (a : ndarray A) (sls : list (nat * nat)) : result (ndarray A) :=
  if (ndim a <? length sls)%nat then Raise IndexError
  else
    let plan := slice_plan (shape a) sls in
    Ok (tabulate (map snd plan)
          (fun m => item a (map (fun om => (fst om + snd om)%nat)
                                (combine (map fst plan) m)))).

(** [a[..., c]] on the axis [ax] (an integer index on one axis, full
    slices before it): [pos[:, :, 0]] is [getitem_axis pos 2 0]. *)
Definition getitem_axis {A} `{Dflt A}
    (a : ndarray A) (ax c : nat) : result (ndarray A) :=
  match nth_error (shape a) ax with
  | None => Raise IndexError
  | Some n =>
      if (c <? n)%nat then
        Ok (tabulate (firstn ax (shape a) ++ skipn (S ax) (shape a))
              (fun m => item a (firstn ax m ++ c :: skipn ax m)))
      else Raise IndexError
  end.

(** ** numpy functions used by the engine *)

Definition arange (lo hi : Z) : list Z :=
  map (fun i => (lo + Z.of_nat i)%Z) (seq 0 (Z.to_nat (hi - lo))).

Definition set_last {A} (l : list A) (v : A) : list A :=
  match l with
  | [] => []
  | _ => removelast l ++ [v]
  end.

(** [np.linspace(start, stop, num)] with the default [endpoint=True]:
    [num] samples, step [(stop - start) / (num - 1)], and the last sample
    overwritten by [stop] when there is more than one. *)
Definition linspace_samples (start stop : R) (num : Z) : list R :=
  let div := (num - 1)%Z in
  let delta := stop - start in
  let y := map (fun i => if (0 <? div)%Z
                         then INR i * (delta / IZR div) + start
                         else INR i * delta + start)
               (seq 0 (Z.to_nat num)) in
  if (1 <? num)%Z then set_last y stop else y.

Definition linspace (start stop : R) (num : Z) : result (ndarray R) :=
  if (num <? 0)%Z then Raise ValueError
  else Ok (mk_nd [Z.to_nat num] (linspace_samples start stop num)).

(** [np.fft.fftfreq(n, d)]: the integers [0 .. (n-1)//2] followed by
    [-(n//2) .. -1], each times [1 / (n * d)]. *)
Definition fftfreq_samples (n : Z) (val : R) : list R :=
  let N := ((n - 1) / 2 + 1)%Z in
  let results := arange 0 N ++ arange (- (n / 2)) 0 in
  map (fun k => IZR k * val) results.

Definition fftfreq (n : Z) (d : R) : result (ndarray R) :=
  (val <- py_div 1.0 (IZR n * d) ;;
   if (n <? 0)%Z then Raise ValueError
   else Ok (mk_nd [Z.to_nat n] (fftfreq_samples n val)))%res.

(** [np.meshgrid(x, y)] with the default ['xy'] indexing, on 1-D inputs. *)
Definition meshgrid (x y : ndarray R) : ndarray R * ndarray R :=
  let s := [length (data y); length (data x)] in
  (tabulate s (fun m => nth (nth 1 m 0%nat) (data x) 0),
   tabulate s (fun m => nth (nth 0 m 0%nat) (data y) 0)).

(** One axis [start:stop:complex(0, num)] of [np.mgrid]. *)
Definition mgrid_axis (start stop : R) (num : Z) (i : nat) : R :=
  let step := if (Z.abs num =? 1)%Z then 1
              else (stop - start) / IZR (Z.abs num - 1) in
  INR i * step + start.

Definition mgrid3 (ax ay az : R * R * Z)
  : ndarray R * ndarray R * ndarray R :=
  let n (a : R * R * Z) := Z.to_nat (Z.abs (snd a)) in
  let s := [n ax; n ay; n az] in
  let mesh (a : R * R * Z) (k : nat) :=
    tabulate s (fun m => mgrid_axis (fst (fst a)) (snd (fst a)) (snd a)
                                    (nth k m 0%nat)) in
  (mesh ax 0%nat, mesh ay 1%nat, mesh az 2%nat).

(** The phase [sum_j k_j * n_j / N_j] of the discrete Fourier transform
    over all axes. *)
Fixpoint dft_phase (s k n : list nat) : R :=
  match s, k, n with
  | Nj :: s', kj :: k', nj :: n' =>
      INR (kj * nj) / INR Nj + dft_phase s' k' n'
  | _, _, _ => 0
  end.

Definition dft (sign : R) (a : ndarray C) : ndarray C :=
  tabulate (shape a)
    (fun k => Csum (map (fun n =>
                 Cmul (item a (unravel (shape a) n))
                      (Cexp (Cscal (sign * 2 * PI
                                    * dft_phase (shape a) k
                                        (unravel (shape a) n)) Ci)))
               (seq 0 (size (shape a))))).

Definition idft (a : ndarray C) : ndarray C :=
  np_map (fun z => Cdivr z (INR (size (shape a)))) (dft 1 a).

(** [np.fft.fftn] and [np.fft.ifftn] transform over every axis and raise
    ValueError (invalid number of data points) on an axis of length 0. *)
Definition has_empty_axis (s : list nat) : bool := existsb (Nat.eqb 0) s.

Definition fftn (a : ndarray C) : result (ndarray C) :=
  if has_empty_axis (shape a) then Raise ValueError else Ok (dft (-1) a).

Definition ifftn (a : ndarray C) : result (ndarray C) :=
  if has_empty_axis (shape a) then Raise ValueError else Ok (idft a).

(** ** functions.py *)

Definition get_meshgrid (x y : ndarray R)
  : ndarray R * ndarray R * ndarray R :=
  let (x_mesh, y_mesh) := meshgrid x y in
  let pos := tabulate (shape x_mesh ++ [2%nat])
               (fun m => if (nth 2 m 0%nat =? 0)%nat
                         then item x_mesh (firstn 2 m)
                         else item y_mesh (firstn 2 m)) in
  (x_mesh, y_mesh, pos).

Definition psi_gauss_1d (x : ndarray R) (a x_0 k_0 : R) : ndarray C :=
  np_map (fun v =>
            Cscal (float_pow (a * sqrt PI) (-0.5))
                  (Cexp (Cadd (RtoC (-0.5 * float_pow ((v - x_0) * 1 / a) 2))
                              (Cscal (v * k_0) Ci))))
         x.

Definition psi_gauss_3d (x y z : ndarray R) (a x_0 y_0 z_0 k_0 : R)
  : result (ndarray C) :=
  (xy <- np_binop Rplus (sq (np_map (fun v => (v - x_0) * 1.0) x))
                        (sq (np_map (fun v => (v - y_0) * 1.0) y)) ;;
   r2 <- np_binop Rplus xy (sq (np_map (fun v => (v - z_0) * 1.0) z)) ;;
   w <- np_binop (fun r c => Cadd (RtoC r) c)
                 (np_map (fun v => -0.5 * v / float_pow a 2) r2)
                 (np_map (fun v => Cscal (v * k_0) Ci) x) ;;
   Ok (np_map (fun v => Cscal (float_pow (a * sqrt PI) (-0.5)) (Cexp v)) w))%res.

Definition mu_1d (g : R) : R :=
  float_pow ((3.0 * g) / (4.0 * sqrt 2.0)) (2.0 / 3.0).

(** For g < 0 [np.sqrt] gives [nan]; the properties take g > 0. *)
Definition mu_2d (g : R) : R := sqrt (g / PI).

Definition mu_3d (g : R) : R :=
  float_pow ((15 * g) / (16 * sqrt 2 * PI)) (2 / 5).

Definition thomas_fermi_1d (x : ndarray R) (g : R) : option (ndarray R) :=
  if Req_dec_T g 0 then None
  else
    let mu := mu_1d g in
    Some (np_map (fun x2 => mu * (1 - (x2 / (2 * mu))) / g) (sq x)).

Definition thomas_fermi_2d (x y : ndarray R) (g : R)
  : result (option (ndarray R)) :=
  if Req_dec_T g 0 then Ok None
  else
    let mu := mu_2d g in
    (r2 <- np_binop Rplus (sq x) (sq y) ;;
     Ok (Some (np_map (fun v => mu * (1 - (v / (2 * mu))) / g) r2)))%res.

Definition thomas_fermi_2d_pos (pos : ndarray R) (g : R)
  : result (option (ndarray R)) :=
  (x <- getitem_axis pos 2 0 ;;
   y <- getitem_axis pos 2 1 ;;
   thomas_fermi_2d x y g)%res.

Definition thomas_fermi_3d (x y z : ndarray R) (g : R)
  : result (option (ndarray R)) :=
  if Req_dec_T g 0 then Ok None
  else
    let mu := mu_3d g in
    (xy <- np_binop Rplus (sq x) (sq y) ;;
     r2 <- np_binop Rplus xy (sq z) ;;
     Ok (Some (np_map (fun v => mu * (1 - (v / (2 * mu))) / g) r2)))%res.

Definition v_harmonic_1d (x : ndarray R) : ndarray R :=
  np_map (fun x2 => 0.5 * x2) (sq x).

Definition v_2d (x y : ndarray R) (alpha_y : R) : result (ndarray R) :=
  (s <- np_binop Rplus (sq x) (sq y) ;;
   Ok (np_map (fun v => 0.5 * v) s))%res.

Definition v_harmonic_2d (pos : ndarray R) (alpha_y : R)
  : result (ndarray R) :=
  (x <- getitem_axis pos 2 0 ;;
   y <- getitem_axis pos 2 1 ;;
   v_2d x y 1.0)%res.

Definition v_harmonic_3d (x y z : ndarray R) (alpha_y alpha_z : R)
  : result (ndarray R) :=
  (xy <- np_binop Rplus (sq x) (sq (np_map (fun v => alpha_y * v) y)) ;;
   s <- np_binop Rplus xy (sq (np_map (fun v => alpha_z * v) z)) ;;
   Ok (np_map (fun v => 0.5 * v) s))%res.

(** The values a float64 division between arrays can take. *)
Inductive float64 : Type :=
| Finite (r : R)
| PInf
| NInf
| NaN.

#[export] Instance Dflt_float64 : Dflt float64 := Finite 0.

Definition true_divide (a b : R) : float64 :=
  if Req_dec_T b 0 then
    if Req_dec_T a 0 then NaN
    else if Rlt_dec 0 a then PInf else NInf
  else Finite (a / b).

Definition f64_sub (v : float64) (c : R) : float64 :=
  match v with
  | Finite r => Finite (r - c)
  | other => other
  end.

Definition isnan (v : float64) : bool :=
  match v with
  | NaN => true
  | _ => false
  end.

(** [dipol_dipol_interaction] up to the line that computes [V_k_val]. *)
Definition dipol_dipol_V_k_val (kx_mesh ky_mesh kz_mesh : ndarray R)
  : result (ndarray float64) :=
  (kxy <- np_binop Rplus (sq kx_mesh) (sq ky_mesh) ;;
   k_squared <- np_binop Rplus kxy (sq kz_mesh) ;;
   let factor := np_map (fun v => 3.0 * v) (sq kz_mesh) in
   let k_squared_singular_free :=
     np_map (fun v => if Req_dec_T v 0.0 then 1.0 else v) k_squared in
   q <- np_binop true_divide factor k_squared_singular_free ;;
   Ok (np_map (fun v => f64_sub v 1.0) q))%res.

(** The whole function: [V_k_val[np.isnan(V_k_val)] = 0.0] follows. When
    the operands have no axis (0-d arrays or floats) the arithmetic above
    gives a numpy scalar, which supports no item assignment: TypeError. *)
Definition dipol_dipol_interaction (kx_mesh ky_mesh kz_mesh : ndarray R)
  : result (ndarray float64) :=
  (V_k_val <- dipol_dipol_V_k_val kx_mesh ky_mesh kz_mesh ;;
   match shape V_k_val with
   | [] => Raise TypeError
   | _ :: _ =>
       Ok (np_map (fun v => if isnan v then Finite 0.0 else v) V_k_val)
   end)%res.

(** ** Schroedinger.py *)

(** What a call can print, and how it ends. *)
Definition IO (A : Type) : Type := (list event * result A)%type.

Definition io_ret {A} (a : A) : IO A := ([], Ok a).

Definition io_bind {A B} (m : IO A) (k : A -> IO B) : IO B :=
  match snd m with
  | Ok a => (fst m ++ fst (k a), snd (k a))
  | Raise e => (fst m, Raise e)
  end.

Definition io_lift {A} (r : result A) : IO A := ([], r).
Definition io_print (ev : event) : IO unit := ([ev], Ok tt).

Declare Scope io_scope.
Delimit Scope io_scope with io.
Notation "x <- m ;; k" := (io_bind m (fun x => k))
  (at level 61, m at next level, right associativity) : io_scope.
Notation "' pat <- m ;; k" := (io_bind m (fun x => match x with pat => k end))
  (at level 61, pat pattern, m at next level, right associativity) : io_scope.

Definition callable_psi : Type := list (ndarray R) -> result (ndarray C).
Definition callable_V : Type := list (ndarray R) -> result (ndarray R).
Definition callable_sol : Type :=
  list (ndarray R) -> R -> result (option (ndarray R)).

Definition dim_error_msg : string :=
  "Spatial dimension over 3. This is not implemented.".

Module Schroedinger.

(** The attributes of a [Schroedinger] object. An attribute that only
    some branches of [__init__] assign is an option. *)
Record engine : Type := mk_engine {
  resolution : Z;
  timesteps : Z;
  L : R;
  dt : R;
  g : R;
  imag_time : bool;
  dim : Z;
  mu_sol : R;
  mu : R;
  E : R;
  psi : callable_psi;
  V : callable_V;
  psi_sol : list (ndarray R) -> result (option (ndarray R));
  x : ndarray R;
  dx : R;
  dkx : R;
  kx : ndarray R;
  k_squared : ndarray R;
  U : C;
  y : option (ndarray R);
  dy : option R;
  dky : option R;
  ky : option (ndarray R);
  z : option (ndarray R);
  dz : option R;
  dkz : option R;
  kz : option (ndarray R);
  x_mesh : option (ndarray R);
  y_mesh : option (ndarray R);
  z_mesh : option (ndarray R);
  pos : option (ndarray R);
  psi_val : option (ndarray C);
  V_val : option (ndarray R);
  psi_sol_val : option (option (ndarray R));
  H_kin : option (ndarray C);
  t : R;
  alpha_psi : R;
  alpha_V : R
}.

(** One more axis, as the blocks [if dim >= 2] and [if dim >= 3] build it
    and add its squared wavevectors to [k_squared] in place. *)
Definition add_axis (resolution : Z) (L : R) (k_squared : ndarray R)
  : IO (ndarray R * R * R * ndarray R * ndarray R) :=
  (y <- io_lift (linspace (- L) L resolution) ;;
   dy <- io_lift (py_div (2.0 * L) (IZR resolution)) ;;
   dky <- io_lift (py_div PI L) ;;
   d <- io_lift (py_div 1.0 (dky * IZR resolution)) ;;
   ky <- io_lift (fftfreq resolution d) ;;
   k_squared' <- io_lift (np_inplace Rplus k_squared (sq ky)) ;;
   io_ret (y, dy, dky, ky, k_squared'))%io.

Definition first_item (a : ndarray R) : result R :=
  match data a with
  | [] => Raise IndexError
  | v :: _ => Ok v
  end.

Definition last_item (a : ndarray R) : result R :=
  match data a with
  | [] => Raise IndexError
  | v :: l => Ok (last l v)
  end.

Definition kinetic_propagator (U : C) (k_squared : ndarray R) (dt : R)
  : ndarray C :=
  np_map (fun k2 => Cexp (Cscal dt (Cscal (0.5 * k2) U))) k_squared.

Definition opt_get {A} (o : option A) : IO A :=
  match o with
  | Some a => io_ret a
  | None => io_lift (Raise AttributeError)
  end.

Definition __init__ (resolution timesteps : Z) (L dt g : R)
    (imag_time : bool) (s E : R) (dim : Z)
    (psi_0 : callable_psi) (V : callable_V) (psi_sol : callable_sol)
    (mu_sol : R -> R) (alpha_psi alpha_V : R) : IO engine :=
  (let mu_sol_val := mu_sol g in
   x <- io_lift (linspace (- L) L resolution) ;;
   dx <- io_lift (py_div (2.0 * L) (IZR resolution)) ;;
   dkx <- io_lift (py_div PI L) ;;
   d <- io_lift (py_div 1.0 (dkx * IZR resolution)) ;;
   kx <- io_lift (fftfreq resolution d) ;;
   let k_squared := sq kx in
   let U := if imag_time then RtoC (-1.0) else Cscal (-1.0) Ci in
   ' (yax, k_squared) <-
       (if (2 <=? dim)%Z
        then ' (y, dy, dky, ky, k2) <- add_axis resolution L k_squared ;;
             io_ret (Some (y, dy, dky, ky), k2)
        else io_ret (None, k_squared)) ;;
   ' (zax, k_squared) <-
       (if (3 <=? dim)%Z
        then ' (z, dz, dkz, kz, k2) <- add_axis resolution L k_squared ;;
             io_ret (Some (z, dz, dkz, kz), k2)
        else io_ret (None, k_squared)) ;;
   _ <- (if (3 <? dim)%Z
         then _ <- io_print (Stderr dim_error_msg) ;;
              io_lift (Raise (SystemExit 1))
         else io_ret tt) ;;
   let build x_mesh y_mesh z_mesh pos psi_val V_val psi_sol_val H_kin :=
     {| resolution := resolution; timesteps := timesteps; L := L; dt := dt;
        g := g; imag_time := imag_time; dim := dim; mu_sol := mu_sol_val;
        mu := s; E := E; psi := psi_0; V := V;
        psi_sol := fun xs => psi_sol xs g;
        x := x; dx := dx; dkx := dkx; kx := kx; k_squared := k_squared;
        U := U;
        y := option_map (fun a => fst (fst (fst a))) yax;
        dy := option_map (fun a => snd (fst (fst a))) yax;
        dky := option_map (fun a => snd (fst a)) yax;
        ky := option_map (fun a => snd a) yax;
        z := option_map (fun a => fst (fst (fst a))) zax;
        dz := option_map (fun a => snd (fst (fst a))) zax;
        dkz := option_map (fun a => snd (fst a)) zax;
        kz := option_map (fun a => snd a) zax;
        x_mesh := x_mesh; y_mesh := y_mesh; z_mesh := z_mesh; pos := pos;
        psi_val := psi_val; V_val := V_val; psi_sol_val := psi_sol_val;
        H_kin := H_kin;
        t := 0.0; alpha_psi := alpha_psi; alpha_V := alpha_V |} in
   if (dim =? 1)%Z then
     psi_val <- io_lift (psi_0 [x]) ;;
     V_val <- io_lift (V [x]) ;;
     psi_sol_val <- io_lift (psi_sol [x] g) ;;
     let H_kin := kinetic_propagator U k_squared dt in
     io_ret (build None None None None
                   (Some psi_val) (Some V_val) (Some psi_sol_val) (Some H_kin))
   else if (dim =? 2)%Z then
     ' (y, _, _, _) <- opt_get yax ;;
     let '(x_mesh, y_mesh, pos) := get_meshgrid x y in
     psi_val <- io_lift (psi_0 [pos]) ;;
     V_val <- io_lift (V [pos]) ;;
     psi_sol_val <- io_lift (psi_sol [pos] g) ;;
     let H_kin := kinetic_propagator U k_squared dt in
     io_ret (build (Some x_mesh) (Some y_mesh) None (Some pos)
                   (Some psi_val) (Some V_val) (Some psi_sol_val) (Some H_kin))
   else if (dim =? 3)%Z then
     ' (y, _, _, _) <- opt_get yax ;;
     ' (z, _, _, _) <- opt_get zax ;;
     x0 <- io_lift (first_item x) ;;
     x1 <- io_lift (last_item x) ;;
     y0 <- io_lift (first_item y) ;;
     y1 <- io_lift (last_item y) ;;
     z0 <- io_lift (first_item z) ;;
     z1 <- io_lift (last_item z) ;;
     let '(x_mesh, y_mesh, z_mesh) :=
       mgrid3 (x0, x1, resolution) (y0, y1, resolution)
              (z0, z1, resolution) in
     psi_val <- io_lift (psi_0 [x_mesh; y_mesh; z_mesh]) ;;
     V_val <- io_lift (V [x_mesh; y_mesh; z_mesh]) ;;
     let H_kin := kinetic_propagator U k_squared dt in
     io_ret (build (Some x_mesh) (Some y_mesh) (Some z_mesh) None
                   (Some psi_val) (Some V_val) None (Some H_kin))
   else
     io_ret (build None None None None None None None None))%io.

Definition get_norm (self : engine) (p : R) : IO R :=
  (if (dim self =? 1)%Z then
     psi_val <- opt_get (psi_val self) ;;
     io_ret (np_sum (np_map (fun v => float_pow (Cabs v) p) psi_val)
             * dx self)
   else if (dim self =? 2)%Z then
     psi_val <- opt_get (psi_val self) ;;
     dy <- opt_get (dy self) ;;
     io_ret (np_sum (np_map (fun v => float_pow (Cabs v) p) psi_val)
             * dx self * dy)
   else if (dim self =? 3)%Z then
     psi_val <- opt_get (psi_val self) ;;
     dy <- opt_get (dy self) ;;
     dz <- opt_get (dz self) ;;
     io_ret (np_sum (np_map (fun v => float_pow (Cabs v) p) psi_val)
             * dx self * dy * dz)
   else
     _ <- io_print (Stderr dim_error_msg) ;;
     io_lift (Raise (SystemExit 1)))%io.

(** Attribute assignment. *)
Definition set_psi_val (v : ndarray C) (e : engine) : engine :=
  {| resolution := resolution e; timesteps := timesteps e; L := L e;
     dt := dt e; g := g e; imag_time := imag_time e; dim := dim e;
     mu_sol := mu_sol e; mu := mu e; E := E e; psi := psi e; V := V e;
     psi_sol := psi_sol e; x := x e; dx := dx e; dkx := dkx e; kx := kx e;
     k_squared := k_squared e; U := U e; y := y e; dy := dy e;
     dky := dky e; ky := ky e; z := z e; dz := dz e; dkz := dkz e;
     kz := kz e; x_mesh := x_mesh e; y_mesh := y_mesh e;
     z_mesh := z_mesh e; pos := pos e; psi_val := Some v;
     V_val := V_val e; psi_sol_val := psi_sol_val e; H_kin := H_kin e;
     t := t e; alpha_psi := alpha_psi e; alpha_V := alpha_V e |}.

Definition set_t (v : R) (e : engine) : engine :=
  {| resolution := resolution e; timesteps := timesteps e; L := L e;
     dt := dt e; g := g e; imag_time := imag_time e; dim := dim e;
     mu_sol := mu_sol e; mu := mu e; E := E e; psi := psi e; V := V e;
     psi_sol := psi_sol e; x := x e; dx := dx e; dkx := dkx e; kx := kx e;
     k_squared := k_squared e; U := U e; y := y e; dy := dy e;
     dky := dky e; ky := ky e; z := z e; dz := dz e; dkz := dkz e;
     kz := kz e; x_mesh := x_mesh e; y_mesh := y_mesh e;
     z_mesh := z_mesh e; pos := pos e; psi_val := psi_val e;
     V_val := V_val e; psi_sol_val := psi_sol_val e; H_kin := H_kin e;
     t := v; alpha_psi := alpha_psi e; alpha_V := alpha_V e |}.

Definition set_mu_E (m en : R) (e : engine) : engine :=
  {| resolution := resolution e; timesteps := timesteps e; L := L e;
     dt := dt e; g := g e; imag_time := imag_time e; dim := dim e;
     mu_sol := mu_sol e; mu := m; E := en; psi := psi e; V := V e;
     psi_sol := psi_sol e; x := x e; dx := dx e; dkx := dkx e; kx := kx e;
     k_squared := k_squared e; U := U e; y := y e; dy := dy e;
     dky := dky e; ky := ky e; z := z e; dz := dz e; dkz := dkz e;
     kz := kz e; x_mesh := x_mesh e; y_mesh := y_mesh e;
     z_mesh := z_mesh e; pos := pos e; psi_val := psi_val e;
     V_val := V_val e; psi_sol_val := psi_sol_val e; H_kin := H_kin e;
     t := t e; alpha_psi := alpha_psi e; alpha_V := alpha_V e |}.

(** A method call: it prints, returns or raises, and leaves the object in
    some state, also when it raises. *)
Definition Py (A : Type) : Type := engine -> IO A * engine.

Definition py_ret {A} (a : A) : Py A := fun e => (io_ret a, e).

Definition py_bind {A B} (m : Py A) (k : A -> Py B) : Py B :=
  fun e =>
    let (r, e1) := m e in
    match snd r with
    | Ok a => let (r2, e2) := k a e1 in ((fst r ++ fst r2, snd r2), e2)
    | Raise x => ((fst r, Raise x), e1)
    end.

Definition py_io {A} (f : engine -> IO A) : Py A := fun e => (f e, e).
Definition py_attr {A} (f : engine -> option A) : Py A :=
  py_io (fun e => opt_get (f e)).
Definition py_read {A} (f : engine -> A) : Py A :=
  py_io (fun e => io_ret (f e)).
Definition py_lift {A} (r : result A) : Py A := py_io (fun _ => io_lift r).
Definition py_print (ev : event) : Py unit := py_io (fun _ => io_print ev).
Definition py_set (f : engine -> engine) : Py unit :=
  fun e => (io_ret tt, f e).

Declare Scope py_scope.
Delimit Scope py_scope with py.
Notation "x <- m ;; k" := (py_bind m (fun x => k))
  (at level 61, m at next level, right associativity) : py_scope.

(** [np.exp(self.U * (self.V_val + self.g * np.abs(self.psi_val) ** 2.0)
            * (0.5 * self.dt))] *)
Definition H_pot_now : Py (ndarray C) :=
  (U <- py_read U ;;
   V_val <- py_attr V_val ;;
   g <- py_read g ;;
   psi_val <- py_attr psi_val ;;
   dt <- py_read dt ;;
   let density := np_map (fun v => g * float_pow (Cabs v) 2.0) psi_val in
   w <- py_lift (np_binop Rplus V_val density) ;;
   py_ret (np_map (fun v => Cexp (Cscal (0.5 * dt) (Cscal v U))) w))%py.

(** [self.psi_val = H_pot * self.psi_val] *)
Definition apply_H_pot : Py unit :=
  (H_pot <- H_pot_now ;;
   psi_val <- py_attr psi_val ;;
   r <- py_lift (np_binop Cmul H_pot psi_val) ;;
   py_set (set_psi_val r))%py.

(** [a = np.abs(self.psi_val[29:35, 29:34]) ** 2.0] *)
Definition probe : Py (ndarray R) :=
  (psi_val <- py_attr psi_val ;;
   w <- py_lift (getitem_slices psi_val [(29, 35); (29, 34)]%nat) ;;
   py_ret (np_map (fun v => float_pow (Cabs v) 2.0) w))%py.

(** [time_step], from its first line to [self.t += self.dt]. *)
Definition split_operator_update : Py unit :=
  (_ <- apply_H_pot ;;
   _ <- probe ;;
   psi_x <- py_attr psi_val ;;
   psi_k0 <- py_lift (fftn psi_x) ;;
   _ <- py_set (set_psi_val psi_k0) ;;
   H_kin <- py_attr H_kin ;;
   psi_k <- py_attr psi_val ;;
   r <- py_lift (np_binop Cmul H_kin psi_k) ;;
   _ <- py_set (set_psi_val r) ;;
   psi_k' <- py_attr psi_val ;;
   psi_x' <- py_lift (ifftn psi_k') ;;
   _ <- py_set (set_psi_val psi_x') ;;
   _ <- probe ;;
   _ <- apply_H_pot ;;
   t <- py_read t ;;
   dt <- py_read dt ;;
   py_set (set_t (t + dt)))%py.

(** [time_step], from [psi_norm_after_evolution = ...] to its end. The
    operands of these lines are numpy floats, so a zero norm or [dt = 0]
    raises nothing and gives [inf] or [nan]; the properties that read the
    rescaled field or mu take the norm positive and [dt] not zero. *)
Definition renormalize_and_measure : Py unit :=
  (psi_norm_after_evolution <- py_io (fun self => get_norm self 2.0) ;;
   psi_val <- py_attr psi_val ;;
   _ <- py_set (set_psi_val
                  (np_map (fun v => Cdivr v (sqrt psi_norm_after_evolution))
                          psi_val)) ;;
   psi_quadratic_integral <- py_io (fun self => get_norm self 4.0) ;;
   dt <- py_read dt ;;
   g <- py_read g ;;
   let mu := - ln psi_norm_after_evolution / (2.0 * dt) in
   let E := mu - 0.5 * g * psi_quadratic_integral in
   _ <- py_set (set_mu_E mu E) ;;
   _ <- py_print (PrintMu mu) ;;
   mu_sol <- py_read mu_sol ;;
   py_print (PrintE E (mu_sol - 0.5 * g * psi_quadratic_integral)))%py.

Definition time_step : Py unit :=
  (_ <- split_operator_update ;; renormalize_and_measure)%py.

End Schroedinger.

(** ** Definitions used to state the properties *)

(** An array is well formed when it holds as many entries as its shape
    says. *)
Definition wf {A} (a : ndarray A) : Prop :=
  length (data a) = size (shape a).

(** The result of a binary operation on operands of one shape. *)
Definition zip_nd {A B D} `{Dflt A} `{Dflt B}
    (f : A -> B -> D) (a : ndarray A) (b : ndarray B) : ndarray D :=
  tabulate (shape a) (fun m => f (item a (bidx (shape a) m))
                                 (item b (bidx (shape b) m))).

(** The value of the dipolar kernel at one wavevector, with the divisor 1
    at the singular point. *)
Definition dipol_value (a b c : R) : float64 :=
  if Req_dec_T (a * a + b * b + c * c) 0 then Finite (-1)
  else Finite (3 * (c * c) / (a * a + b * b + c * c) - 1).

(** The Thomas-Fermi chemical potential of dimension [d] and the profile
    at squared radius [r2], as the specification writes them: the powers
    are real powers [Rpower x p = exp (p * ln x)] of a positive base. *)
Definition tf_mu (d : nat) (g : R) : R :=
  match d with
  | 1%nat => Rpower ((3 * g) / (4 * sqrt 2)) (2 / 3)
  | 2%nat => sqrt (g / PI)
  | _ => Rpower ((15 * g) / (16 * sqrt 2 * PI)) (2 / 5)
  end.

Definition tf_profile (d : nat) (g r2 : R) : R :=
  tf_mu d g * (1 - r2 / (2 * tf_mu d g)) / g.

(** The position axis and the wavevector axis that [__init__] builds for
    half-width [L] and [n] samples, when it builds them. *)
Definition axis (L : R) (n : Z) : ndarray R :=
  mk_nd [Z.to_nat n] (linspace_samples (- L) L n).

Definition wavevectors (L : R) (n : Z) : ndarray R :=
  mk_nd [Z.to_nat n]
        (fftfreq_samples n (1.0 / (IZR n * (1.0 / (PI / L * IZR n))))).

(** [k_squared] after the blocks of the axes that [dim] enables. *)
Definition k_squared_of (dim : Z) (L : R) (n : Z) : ndarray R :=
  let k2 := sq (wavevectors L n) in
  let k2 := if (2 <=? dim)%Z then zip_nd Rplus k2 (sq (wavevectors L n))
            else k2 in
  if (3 <=? dim)%Z then zip_nd Rplus k2 (sq (wavevectors L n)) else k2.

(** The arguments [__init__] passes to [psi_0], [V] and [psi_sol]. *)
Definition init_inputs (dim : Z) (L : R) (n : Z) : list (ndarray R) :=
  let a := axis L n in
  if (dim =? 1)%Z then [a]
  else if (dim =? 2)%Z then [snd (get_meshgrid a a)]
  else
    let lo := hd 0 (data a) in
    let hi := last (data a) 0 in
    let m := mgrid3 (lo, hi, n) (lo, hi, n) (lo, hi, n) in
    [fst (fst m); snd (fst m); snd m].

(** What [__init__] leaves in the object it returns, for [1 <= dim <= 3],
    when [psi_0] returned [pv] and [V] returned [vv]. *)
Record built (n : Z) (L dt g s E : R) (imag_time : bool) (dim : Z)
    (pv : ndarray C) (vv : ndarray R) (e : Schroedinger.engine) : Prop := {
  built_resolution : Schroedinger.resolution e = n;
  built_L : Schroedinger.L e = L;
  built_dt : Schroedinger.dt e = dt;
  built_g : Schroedinger.g e = g;
  built_dim : Schroedinger.dim e = dim;
  built_mu : Schroedinger.mu e = s;
  built_E : Schroedinger.E e = E;
  built_t : Schroedinger.t e = 0.0;
  built_x : Schroedinger.x e = axis L n;
  built_dx : Schroedinger.dx e = 2.0 * L / IZR n;
  built_dkx : Schroedinger.dkx e = PI / L;
  built_kx : Schroedinger.kx e = wavevectors L n;
  built_ky : Schroedinger.ky e
             = if (2 <=? dim)%Z then Some (wavevectors L n) else None;
  built_kz : Schroedinger.kz e
             = if (3 <=? dim)%Z then Some (wavevectors L n) else None;
  built_k_squared : Schroedinger.k_squared e = k_squared_of dim L n;
  built_U : Schroedinger.U e
            = if imag_time then RtoC (-1.0) else Cscal (-1.0) Ci;
  built_dy : Schroedinger.dy e
             = if (2 <=? dim)%Z then Some (2.0 * L / IZR n) else None;
  built_dz : Schroedinger.dz e
             = if (3 <=? dim)%Z then Some (2.0 * L / IZR n) else None;
  built_psi_val : Schroedinger.psi_val e = Some pv;
  built_V_val : Schroedinger.V_val e = Some vv;
  built_H_kin : Schroedinger.H_kin e
                = Some (Schroedinger.kinetic_propagator
                          (if imag_time then RtoC (-1.0) else Cscal (-1.0) Ci)
                          (k_squared_of dim L n) dt)
}.

(** The squared modulus of a complex amplitude. *)
Definition density (v : C) : R := fst v * fst v + snd v * snd v.

(** The p = 2 norm integral as the specification writes it: the Riemann
    sum of |psi|^2 over the grid points times the cell volume, and the
    cell volume of an engine, the product of the spacings of its axes. *)
Definition norm_integral (vol : R) (psi : ndarray C) : R :=
  Rsum (map density (data psi)) * vol.

Definition cell_volume (e : Schroedinger.engine) : option R :=
  if (Schroedinger.dim e =? 1)%Z then Some (Schroedinger.dx e)
  else if (Schroedinger.dim e =? 2)%Z then
    match Schroedinger.dy e with
    | Some dy => Some (Schroedinger.dx e * dy)
    | None => None
    end
  else if (Schroedinger.dim e =? 3)%Z then
    match Schroedinger.dy e, Schroedinger.dz e with
    | Some dy, Some dz => Some (Schroedinger.dx e * dy * dz)
    | _, _ => None
    end
  else None.

(** The state in which [time_step] reaches its rescale: the one its
    statements up to [self.t += self.dt] leave. *)
Definition at_rescale (e : Schroedinger.engine) : Schroedinger.engine :=
  snd (Schroedinger.split_operator_update e).

(** The positive powers of two. *)
Definition power_of_two (n : Z) : Prop := exists k : nat, n = (2 ^ Z.of_nat k)%Z.

(** Calling a function of one or of three arrays with a list of
    arguments. *)
Definition call1 {A} (f : ndarray R -> result A) : list (ndarray R) -> result A :=
  fun xs => match xs with
            | [x] => f x
            | _ => Raise TypeError
            end.

Definition call3 {A} (f : ndarray R -> ndarray R -> ndarray R -> result A)
  : list (ndarray R) -> result A :=
  fun xs => match xs with
            | [x; y; z] => f x y z
            | _ => Raise TypeError
            end.

(** The initializers as the main block of functions.py binds them, and
    the three-dimensional defaults of [__init__]. *)
Definition psi_0_1d : callable_psi :=
  call1 (fun x => Ok (psi_gauss_1d x 1 0 0)).
Definition V_1d : callable_V := call1 (fun x => Ok (v_harmonic_1d x)).
Definition psi_sol_1d : callable_sol :=
  fun xs g => call1 (fun x => Ok (thomas_fermi_1d x g)) xs.

Definition psi_0_3d : callable_psi :=
  call3 (fun x y z => psi_gauss_3d x y z 1.0 0.0 0.0 0.0 0.0).
Definition V_3d : callable_V :=
  call3 (fun x y z => v_harmonic_3d x y z 1.0 1.0).
Definition psi_sol_3d : callable_sol :=
  fun xs g => call3 (fun x y z => thomas_fermi_3d x y z g) xs.

(** The engine of the scenario with the initializers of one dimension:
    L = 5, dt = 0.01, g = 0, imaginary time, a Gaussian in a harmonic
    trap. *)
Definition scenario (resolution dim : Z) : IO Schroedinger.engine :=
  Schroedinger.__init__ resolution 500 5 0.01 0 true 1.1 1.0 dim
    psi_0_1d V_1d psi_sol_1d mu_1d 0.8 0.3.

(** An engine with the defaults of [__init__] (three dimensions, Gaussian,
    harmonic trap) on a grid of [n] samples per axis. *)
Definition default_3d (n : Z) (L g : R) : IO Schroedinger.engine :=
  Schroedinger.__init__ n 10 L 0.01 g true 1.1 1.0 3
    psi_0_3d V_3d psi_sol_3d mu_3d 0.8 0.3.

(** The field after [self.psi_val = H_pot * self.psi_val], for a field
    [pv] and a potential [vv] of one shape. *)
Definition potential_half_step (U : C) (g dt : R)
    (vv : ndarray R) (pv : ndarray C) : ndarray C :=
  zip_nd Cmul
    (np_map (fun v => Cexp (Cscal (0.5 * dt) (Cscal v U)))
       (zip_nd Rplus vv (np_map (fun v => g * float_pow (Cabs v) 2.0) pv)))
    pv.

(** The state after [k] calls of [time_step], whatever they raised. *)
Definition after_calls (k : nat) (e : Schroedinger.engine)
  : Schroedinger.engine :=
  Nat.iter k (fun e' => snd (Schroedinger.time_step e')) e.

(** [H_kin * psi] when [H_kin] broadcasts against the field. *)
Definition kinetic_step (hk psi : ndarray C) : ndarray C :=
  tabulate (shape psi)
    (fun m => Cmul (item hk (bidx (shape hk) m))
                   (item psi (bidx (shape psi) m))).

(** The field after the statements of [time_step] up to [self.t += self.dt],
    on a grid without an empty axis: half a potential step, the kinetic
    step in momentum space, half a potential step with [H_pot]
    recomputed. *)
Definition split_step (U : C) (g dt : R) (vv : ndarray R) (hk pv : ndarray C)
  : ndarray C :=
  potential_half_step U g dt vv
    (idft (kinetic_step hk (dft (-1) (potential_half_step U g dt vv pv)))).

(** ** functions.py: the other initializers and helpers *)

(** [np.meshgrid(x, y, z)] with the default ['xy'] indexing, on 1-D
    inputs: the first two axes are swapped, the third is not. *)
Definition meshgrid3 (x y z : ndarray R)
  : ndarray R * ndarray R * ndarray R :=
  let s := [length (data y); length (data x); length (data z)] in
  (tabulate s (fun m => nth (nth 1 m 0%nat) (data x) 0),
   tabulate s (fun m => nth (nth 0 m 0%nat) (data y) 0),
   tabulate s (fun m => nth (nth 2 m 0%nat) (data z) 0)).

Definition get_meshgrid_3d (x y z : ndarray R)
  : ndarray R * ndarray R * ndarray R * ndarray R :=
  let '(x_mesh, y_mesh, z_mesh) := meshgrid3 x y z in
  let pos := tabulate (shape x_mesh ++ [3%nat])
               (fun m => if (nth 3 m 0%nat =? 0)%nat
                         then item x_mesh (firstn 3 m)
                         else if (nth 3 m 0%nat =? 1)%nat
                              then item y_mesh (firstn 3 m)
                              else item z_mesh (firstn 3 m)) in
  (x_mesh, y_mesh, z_mesh, pos).

(** [get_g], [get_l_ho], [g_qf_helper], [get_g_qf], [get_parameters] and
    [get_alphas]. The module [constants] is not part of the sources: the
    one constant these bodies read, [constants.hbar], is a parameter
    (the other constants only appear in default arguments). *)
Definition get_g (N a_s_l_ho_ratio : R) : R :=
  4.0 * PI * a_s_l_ho_ratio * N.

(** [np.sqrt] of a negative quotient is [nan], and [a_s / l_ho] at
    [l_ho = 0] is [inf] or [nan], without an exception: the properties
    take [hbar / (m * w_x)] positive. *)
Definition get_l_ho (hbar m w_x : R) : result R :=
  (q <- py_div hbar (m * w_x) ;; Ok (sqrt q))%res.

Definition g_qf_helper (hbar m a_s a_dd w_x : R) : result (R * R) :=
  (l_ho <- get_l_ho hbar m w_x ;;
   epsilon_dd <- py_div a_dd a_s ;;
   let a_s_l_ho_ratio := a_s / l_ho in
   Ok (a_s_l_ho_ratio, epsilon_dd))%res.

Definition get_g_qf (N a_s_l_ho_ratio epsilon_dd : R) : R :=
  32.0 / (3.0 * sqrt PI)
  * 4.0 * PI * float_pow a_s_l_ho_ratio (5.0 / 2.0)
  * float_pow N (3.0 / 2.0)
  * (1.0 + (3.0 / 2.0) * float_pow epsilon_dd 2.0).

Definition get_parameters (hbar N m a_s a_dd w_x : R)
  : result (R * R * R) :=
  (r <- g_qf_helper hbar m a_s a_dd w_x ;;
   let g_qf := get_g_qf N (fst r) (snd r) in
   let g := get_g N (fst r) in
   Ok (g, g_qf, snd r))%res.

Definition get_alphas (w_x w_y w_z : R) : result (R * R) :=
  (alpha_y <- py_div w_y w_x ;;
   alpha_z <- py_div w_z w_x ;;
   Ok (alpha_y, alpha_z))%res.

Definition psi_gauss_2d (x y : ndarray R) (a x_0 y_0 k_0 : R)
  : result (ndarray C) :=
  (r2 <- np_binop Rplus (sq (np_map (fun v => (v - x_0) * 1.0) x))
                        (sq (np_map (fun v => (v - y_0) * 1.0) y)) ;;
   w <- np_binop (fun r c => Cadd (RtoC r) c)
                 (np_map (fun v => -0.5 * v / float_pow a 2) r2)
                 (np_map (fun v => Cscal (v * k_0) Ci) x) ;;
   Ok (np_map (fun v => Cscal (float_pow (a * sqrt PI) (-0.5)) (Cexp v)) w))%res.

(** What a function that ends in an [assert] gives. *)
Inductive asserted (A : Type) : Type :=
| Asserted (a : A)
| AssertionError (msg : string).

Arguments Asserted {A} a.
Arguments AssertionError {A} msg.

(** [a.any()]: some entry is not zero. *)
Definition np_any (a : ndarray R) : bool :=
  existsb (fun v => if Req_dec_T v 0 then false else true) (data a).

Definition psi_rect_msg : string :=
  "Pulse is completely 0. Resolution is too small. Resolution needs to be set as fft is used onto the pulse.".

(** [np.select([x < x_min, x < x_max, x_max < x], [0, a, 0])]: the first
    condition that holds chooses; none gives the default 0. *)
Definition psi_rect (x : ndarray R) (x_min x_max a : R)
  : asserted (ndarray R) :=
  let pulse := np_map (fun v => if Rlt_dec v x_min then 0
                                else if Rlt_dec v x_max then a
                                else if Rlt_dec x_max v then 0
                                else 0) x in
  if np_any pulse then Asserted pulse else AssertionError psi_rect_msg.

Definition psi_gauss_solution (x : ndarray R) : ndarray R :=
  np_map (fun v => exp (- float_pow v 2) / sqrt PI) x.

(** [noise_mesh]: [rand] is the array that [np.random.rand( *shape )]
    returns, samples of the interval from 0 (included) to 1 (excluded). *)
Definition noise_mesh (min max : R) (rand : ndarray R) : ndarray R :=
  np_map (fun u => min + (max - min) * u) rand.

(** ** Definitions used to state the further properties *)

(** The index of the sample that mirrors sample [i] on an axis of [n]
    samples. *)
Definition mirror (n i : nat) : nat := (n - 1 - i)%nat.

(** The attributes [time_step] never assigns. *)
Definition same_frame (e e' : Schroedinger.engine) : Prop :=
  Schroedinger.resolution e' = Schroedinger.resolution e /\
  Schroedinger.L e' = Schroedinger.L e /\
  Schroedinger.dt e' = Schroedinger.dt e /\
  Schroedinger.g e' = Schroedinger.g e /\
  Schroedinger.dim e' = Schroedinger.dim e /\
  Schroedinger.U e' = Schroedinger.U e /\
  Schroedinger.x e' = Schroedinger.x e /\
  Schroedinger.dx e' = Schroedinger.dx e /\
  Schroedinger.dy e' = Schroedinger.dy e /\
  Schroedinger.dz e' = Schroedinger.dz e /\
  Schroedinger.kx e' = Schroedinger.kx e /\
  Schroedinger.k_squared e' = Schroedinger.k_squared e /\
  Schroedinger.V_val e' = Schroedinger.V_val e /\
  Schroedinger.H_kin e' = Schroedinger.H_kin e /\
  Schroedinger.mu_sol e' = Schroedinger.mu_sol e.

(** An engine of two or three dimensions on [n] samples per axis whose
    field and potential have the shape of the grid. *)
Definition grid_shaped (n : nat) (e : Schroedinger.engine) : Prop :=
  exists pv vv hk,
    Schroedinger.psi_val e = Some pv /\
    Schroedinger.V_val e = Some vv /\
    Schroedinger.H_kin e = Some hk /\
    shape vv = shape pv /\ shape hk = [n] /\
    ((Schroedinger.dim e = 2%Z /\ shape pv = [n; n] /\
      exists dy, Schroedinger.dy e = Some dy) \/
     (Schroedinger.dim e = 3%Z /\ shape pv = [n; n; n] /\
      exists dy dz, Schroedinger.dy e = Some dy /\
                    Schroedinger.dz e = Some dz)).

(** Initializers of two dimensions on the stacked positions, and an
    engine of two dimensions built with them. *)
Definition psi_0_2d : callable_psi :=
  call1 (fun pos => (x <- getitem_axis pos 2 0 ;;
                     y <- getitem_axis pos 2 1 ;;
                     psi_gauss_2d x y 1.0 0.0 0.0 0.0)%res).
Definition V_2d : callable_V := call1 (fun pos => v_harmonic_2d pos 1.0).
Definition psi_sol_2d : callable_sol :=
  fun xs g => call1 (fun pos => thomas_fermi_2d_pos pos g) xs.

Definition scenario_2d (n : Z) (L g : R) : IO Schroedinger.engine :=
  Schroedinger.__init__ n 500 L 0.01 g true 1.1 1.0 2
    psi_0_2d V_2d psi_sol_2d mu_2d 0.8 0.3.

(** * Properties *)

(** ** Scalars and arrays *)

Lemma float_pow_int x z : float_pow x (IZR z) = powerRZ x z.
Proof.
  unfold float_pow.
  assert (Hz : Int_part (IZR z) = z) by (symmetry; apply Int_part_spec; lra).
  rewrite Hz. destruct (Req_dec_T (IZR z) (IZR z)); [reflexivity | contradiction].
Qed.

Lemma float_pow_sq x p : p = 2 -> float_pow x p = x * x.
Proof. intros ->. rewrite float_pow_int. simpl. lra. Qed.

Lemma size_cons n s : size (n :: s) = (n * size s)%nat.
Proof. reflexivity. Qed.

Lemma unravel_bound s : forall i, (i < size s)%nat ->
  Forall2 lt (unravel s i) s.
Proof.
  induction s as [|n s IH]; intros i Hi; simpl.
  - constructor.
  - rewrite size_cons in Hi.
    assert (Hs : size s <> 0%nat) by (intros E; rewrite E in Hi; lia).
    constructor.
    + apply Nat.Div0.div_lt_upper_bound. lia.
    + apply IH. apply Nat.mod_upper_bound. exact Hs.
Qed.

Lemma ravel_unravel s : forall i, (i < size s)%nat ->
  ravel s (unravel s i) = i.
Proof.
  induction s as [|n s IH]; intros i Hi; simpl.
  - simpl in Hi. lia.
  - rewrite size_cons in Hi.
    assert (Hs : size s <> 0%nat) by (intros E; rewrite E in Hi; lia).
    rewrite IH by (apply Nat.mod_upper_bound; exact Hs).
    rewrite (Nat.div_mod_eq i (size s)) at 3. lia.
Qed.

Lemma bidx_id s : forall m, Forall2 lt m s -> bidx s m = m.
Proof.
  intros m Hm. unfold bidx.
  rewrite (Forall2_length Hm), Nat.sub_diag. simpl.
  induction Hm as [|k n m s Hk Hm IH]; simpl.
  - reflexivity.
  - rewrite IH. destruct (Nat.eqb_spec n 1); [f_equal; lia | reflexivity].
Qed.

Lemma bdim_same n : bdim n n = Some n.
Proof. unfold bdim. now rewrite Nat.eqb_refl. Qed.

Lemma bshape_rev_same r : bshape_rev r r = Some r.
Proof.
  induction r as [|n r IH]; simpl.
  - reflexivity.
  - now rewrite bdim_same, IH.
Qed.

Lemma broadcast_shapes_same s : broadcast_shapes s s = Some s.
Proof.
  unfold broadcast_shapes. rewrite bshape_rev_same. simpl.
  now rewrite rev_involutive.
Qed.

Lemma wf_tabulate {A} s (f : list nat -> A) : wf (tabulate s f).
Proof. unfold wf, tabulate. simpl. now rewrite length_map, length_seq. Qed.

Lemma wf_np_map {A B} (f : A -> B) a : wf a -> wf (np_map f a).
Proof. unfold wf, np_map. simpl. now rewrite length_map. Qed.

Lemma nth_tabulate {A} s (f : list nat -> A) i d :
  (i < size s)%nat -> nth i (data (tabulate s f)) d = f (unravel s i).
Proof.
  intros Hi. apply nth_error_nth. unfold tabulate. simpl.
  rewrite nth_error_map, nth_error_seq.
  destruct (Nat.ltb_spec i (size s)); [reflexivity | lia].
Qed.

Lemma nth_np_map {A B} (f : A -> B) a i d d' :
  (i < length (data a))%nat ->
  nth i (data (np_map f a)) d' = f (nth i (data a) d).
Proof.
  intros Hi. unfold np_map. simpl.
  rewrite (nth_indep _ d' (f d)) by (now rewrite length_map).
  apply map_nth.
Qed.

Lemma item_unravel {A} `{Dflt A} (a : ndarray A) i :
  (i < size (shape a))%nat ->
  item a (bidx (shape a) (unravel (shape a) i)) = nth i (data a) dflt.
Proof.
  intros Hi. unfold item.
  rewrite bidx_id by (apply unravel_bound; exact Hi).
  now rewrite ravel_unravel.
Qed.

Lemma np_binop_same {A B D} `{Dflt A} `{Dflt B}
    (f : A -> B -> D) (a : ndarray A) (b : ndarray B) :
  shape b = shape a -> np_binop f a b = Ok (zip_nd f a b).
Proof.
  intros Hs. unfold np_binop, zip_nd.
  now rewrite Hs, broadcast_shapes_same.
Qed.

Lemma nth_zip_nd {A B D} `{Dflt A} `{Dflt B}
    (f : A -> B -> D) (a : ndarray A) (b : ndarray B) i d :
  shape b = shape a -> (i < size (shape a))%nat ->
  nth i (data (zip_nd f a b)) d = f (nth i (data a) dflt) (nth i (data b) dflt).
Proof.
  intros Hs Hi. unfold zip_nd. rewrite nth_tabulate by exact Hi.
  rewrite item_unravel by exact Hi.
  rewrite <- Hs in *. now rewrite item_unravel.
Qed.

Lemma nth_sq a i : nth i (data (sq a)) 0 = nth i (data a) 0 * nth i (data a) 0.
Proof.
  unfold sq, np_map. simpl.
  rewrite <- (float_pow_sq (nth i (data a) 0) eq_refl).
  replace 0 with (float_pow 0 2) at 1 by (rewrite float_pow_sq; [lra | reflexivity]).
  apply (map_nth (fun v => float_pow v 2)).
Qed.

Lemma sum_squares_zero a b c :
  a * a + b * b + c * c = 0 <-> a = 0 /\ b = 0 /\ c = 0.
Proof.
  split.
  - intros E. repeat split; nra.
  - intros (-> & -> & ->). lra.
Qed.

Lemma nth_np_map_dflt {A B} (f : A -> B) a i d d' :
  f d = d' -> nth i (data (np_map f a)) d' = f (nth i (data a) d).
Proof. intros <-. apply map_nth. Qed.

Lemma true_divide_guard x v :
  true_divide x (if Req_dec_T v 0.0 then 1.0 else v) =
  Finite (x / (if Req_dec_T v 0 then 1 else v)).
Proof.
  unfold true_divide.
  destruct (Req_dec_T v 0.0) as [E|E], (Req_dec_T v 0) as [E'|E']; try lra.
  - destruct (Req_dec_T 1.0 0); [lra|]. f_equal. lra.
  - destruct (Req_dec_T v 0); [lra|]. reflexivity.
Qed.

Lemma dipol_V_k_val_same kx ky kz :
  shape ky = shape kx -> shape kz = shape kx ->
  exists Vk, dipol_dipol_V_k_val kx ky kz = Ok Vk /\
    shape Vk = shape kx /\ wf Vk /\
    forall i, (i < size (shape kx))%nat ->
      nth i (data Vk) dflt =
      dipol_value (nth i (data kx) 0) (nth i (data ky) 0) (nth i (data kz) 0).
Proof.
  intros Hy Hz. unfold dipol_dipol_V_k_val.
  rewrite (np_binop_same Rplus (sq kx) (sq ky)) by exact Hy. simpl.
  rewrite (np_binop_same Rplus _ (sq kz)) by exact Hz. simpl.
  rewrite np_binop_same by (simpl; symmetry; exact Hz). simpl.
  eexists. split; [reflexivity|]. split; [simpl; exact Hz|].
  split; [apply wf_np_map, wf_tabulate|].
  intros i Hi.
  set (k2 := zip_nd Rplus (zip_nd Rplus (sq kx) (sq ky)) (sq kz)).
  set (q := zip_nd true_divide _ _).
  assert (Hq : (i < length (data q))%nat).
  { unfold q, zip_nd. rewrite (wf_tabulate _ _). simpl. now rewrite Hz. }
  rewrite (@nth_np_map _ _ _ q i dflt _) by exact Hq.
  unfold q. rewrite nth_zip_nd by (simpl; rewrite ?Hz; auto).
  unfold dflt, Dflt_R.
  assert (Hk : (i < length (data k2))%nat).
  { unfold k2, zip_nd. rewrite (wf_tabulate _ _). exact Hi. }
  rewrite (@nth_np_map_dflt _ _ (fun v => 3.0 * v) (sq kz) i 0 0) by lra.
  rewrite (@nth_np_map _ _ _ k2 i 0 0) by exact Hk.
  unfold k2. rewrite !nth_zip_nd by (simpl; auto).
  unfold dflt, Dflt_R. rewrite !nth_sq.
  rewrite true_divide_guard. unfold dipol_value, f64_sub.
  destruct (Req_dec_T _ 0) as [E|E]; f_equal.
  - apply sum_squares_zero in E. destruct E as (_ & _ & ->). lra.
  - replace 3.0 with 3 by lra. replace 1.0 with 1 by lra. reflexivity.
Qed.

Lemma dipol_mask_noop kx ky kz Vk :
  shape ky = shape kx -> shape kz = shape kx -> shape kx <> [] ->
  dipol_dipol_V_k_val kx ky kz = Ok Vk ->
  dipol_dipol_interaction kx ky kz = Ok Vk.
Proof.
  intros Hy Hz Hne HV. unfold dipol_dipol_interaction. rewrite HV. simpl.
  destruct (dipol_V_k_val_same kx ky kz Hy Hz) as (Vk' & HV' & Hs & Hwf & Hval).
  rewrite HV in HV'. injection HV' as <-.
  destruct (shape Vk) as [|n0 s0] eqn:EVk; [now rewrite <- Hs in Hne|].
  rewrite <- EVk in *.
  f_equal. destruct Vk as [s d]. unfold np_map. simpl in *. f_equal.
  rewrite <- map_id. apply map_ext_in. intros v Hv.
  apply (In_nth _ _ dflt) in Hv. destruct Hv as (i & Hi & <-).
  rewrite Hval by (unfold wf in Hwf; simpl in Hwf; rewrite <- Hs, <- Hwf; exact Hi).
  unfold dipol_value. now destruct (Req_dec_T _ 0).
Qed.


(** ** The dipolar kernel (functions.py) *)

(** C1, as the code has it: on meshes of one shape with at least one
    axis the kernel is computed without ever dividing by zero: the zero
    divisor is replaced by 1 before the division, no entry is NaN and the
    NaN mask changes nothing. At the zero wavevector the entry is -1 (the
    ratio is 0); at every other wavevector it is 3 kz^2 / k^2 - 1. On
    operands without an axis (0-d arrays, floats) the masking line raises
    TypeError. *)
Theorem dipol_kernel_guard_before_division (kx ky kz : ndarray R) :
  shape ky = shape kx -> shape kz = shape kx ->
  (shape kx = [] -> dipol_dipol_interaction kx ky kz = Raise TypeError) /\
  (shape kx <> [] ->
   exists Vk,
     dipol_dipol_V_k_val kx ky kz = Ok Vk /\
     dipol_dipol_interaction kx ky kz = Ok Vk /\
     shape Vk = shape kx /\
     forall i, (i < size (shape kx))%nat ->
       let a := nth i (data kx) 0 in
       let b := nth i (data ky) 0 in
       let c := nth i (data kz) 0 in
       isnan (nth i (data Vk) dflt) = false /\
       (a = 0 /\ b = 0 /\ c = 0 -> nth i (data Vk) dflt = Finite (-1)) /\
       (~ (a = 0 /\ b = 0 /\ c = 0) ->
        nth i (data Vk) dflt
        = Finite (3 * (c * c) / (a * a + b * b + c * c) - 1))).
Proof.
  intros Hy Hz.
  destruct (dipol_V_k_val_same kx ky kz Hy Hz) as (Vk & HV & Hs & _ & Hval).
  split.
  { intros He. unfold dipol_dipol_interaction. rewrite HV. cbn [rbind].
    now rewrite Hs, He. }
  intros Hne.
  exists Vk. split; [exact HV|]. split; [now apply dipol_mask_noop|].
  split; [exact Hs|].
  intros i Hi a b c. rewrite (Hval i Hi). fold a b c. unfold dipol_value.
  destruct (Req_dec_T (a * a + b * b + c * c) 0) as [E|E].
  - split; [reflexivity|]. split; [reflexivity|].
    intros Hn. exfalso. apply Hn. now apply sum_squares_zero.
  - split; [reflexivity|]. split; [|reflexivity].
    intros H0. exfalso. apply E. now apply sum_squares_zero.
Qed.

(** The mesh of a single grid point at the zero wavevector. *)
Lemma dipol_kernel_guard_before_division_witness :
  exists Vk,
    dipol_dipol_interaction (mk_nd [1%nat] [0]) (mk_nd [1%nat] [0])
                            (mk_nd [1%nat] [0]) = Ok Vk /\
    nth 0 (data Vk) dflt = Finite (-1).
Proof.
  destruct (dipol_kernel_guard_before_division
              (mk_nd [1%nat] [0]) (mk_nd [1%nat] [0]) (mk_nd [1%nat] [0])
              eq_refl eq_refl) as (_ & H).
  destruct H as (Vk & _ & HV & _ & Hval); [discriminate|].
  exists Vk. split; [exact HV|].
  destruct (Hval 0%nat) as (_ & H0 & _); [simpl; lia|].
  apply H0. simpl. auto.
Defined.

(** C1 as stated fails: at the zero wavevector the kernel returns -1,
    not 0. *)
Lemma dipol_kernel_at_zero_is_not_zero :
  exists Vk,
    dipol_dipol_interaction (mk_nd [1%nat] [0]) (mk_nd [1%nat] [0])
                            (mk_nd [1%nat] [0]) = Ok Vk /\
    nth 0 (data Vk) dflt = Finite (-1) /\
    nth 0 (data Vk) dflt <> Finite 0.
Proof.
  destruct (dipol_V_k_val_same (mk_nd [1%nat] [0]) (mk_nd [1%nat] [0])
              (mk_nd [1%nat] [0]) eq_refl eq_refl) as (Vk & HV & _ & _ & Hval).
  exists Vk. split; [apply dipol_mask_noop; [auto | auto | discriminate | exact HV]|].
  assert (E : nth 0 (data Vk) dflt = Finite (-1)).
  { rewrite Hval by (simpl; lia). simpl. unfold dipol_value.
    destruct (Req_dec_T _ 0) as [_|N]; [reflexivity | exfalso; apply N; lra]. }
  split; [exact E|]. rewrite E. intros H. injection H. lra.
Qed.

(** ** Thomas-Fermi profiles and harmonic traps (functions.py) *)

Lemma float_pow_fractional x p :
  0 < x -> p <> IZR (Int_part p) -> float_pow x p = Rpower x p.
Proof.
  intros Hx Hp. unfold float_pow.
  destruct (Req_dec_T p (IZR (Int_part p))); [contradiction|].
  destruct (Rlt_dec 0 x); [reflexivity | contradiction].
Qed.

Lemma not_integer_between p z :
  IZR z < p < IZR z + 1 -> p <> IZR (Int_part p).
Proof.
  intros Hp. assert (E : z = Int_part p) by (apply Int_part_spec; lra).
  rewrite <- E. lra.
Qed.

Lemma float_pow_positive x p : 0 < x -> 0 < float_pow x p.
Proof.
  intros Hx. unfold float_pow.
  destruct (Req_dec_T p (IZR (Int_part p))).
  - now apply powerRZ_lt.
  - destruct (Rlt_dec 0 x); [apply exp_pos | contradiction].
Qed.

Lemma sqrt2_pos : 0 < sqrt 2.
Proof. apply sqrt_lt_R0. lra. Qed.

Lemma tf_base_1_pos g : 0 < g -> 0 < (3 * g) / (4 * sqrt 2).
Proof.
  intros Hg. pose proof sqrt2_pos. apply Rdiv_lt_0_compat; nra.
Qed.

Lemma tf_base_3_pos g : 0 < g -> 0 < (15 * g) / (16 * sqrt 2 * PI).
Proof.
  intros Hg. pose proof sqrt2_pos. pose proof PI_RGT_0.
  apply Rdiv_lt_0_compat; [lra|]. apply Rmult_lt_0_compat; lra.
Qed.

(** For g > 0 the code's closed forms are the real powers of the
    specification. *)
Lemma mu_1d_tf g : 0 < g -> mu_1d g = tf_mu 1 g.
Proof.
  intros Hg. unfold mu_1d, tf_mu.
  replace (3.0 * g / (4.0 * sqrt 2.0)) with (3 * g / (4 * sqrt 2))
    by (replace 3.0 with 3 by lra; replace 4.0 with 4 by lra;
        replace 2.0 with 2 by lra; reflexivity).
  replace (2.0 / 3.0) with (2 / 3) by lra.
  apply float_pow_fractional; [now apply tf_base_1_pos|].
  apply (@not_integer_between _ 0%Z). lra.
Qed.

Lemma mu_2d_tf g : mu_2d g = tf_mu 2 g.
Proof. reflexivity. Qed.

Lemma mu_3d_tf g : 0 < g -> mu_3d g = tf_mu 3 g.
Proof.
  intros Hg. unfold mu_3d, tf_mu.
  apply float_pow_fractional; [now apply tf_base_3_pos|].
  apply (@not_integer_between _ 0%Z). lra.
Qed.

Lemma tf_mu_positive d g : 0 < g -> 0 < tf_mu d g.
Proof.
  intros Hg. unfold tf_mu. destruct d as [|[|[|d]]].
  - apply exp_pos.
  - apply exp_pos.
  - apply sqrt_lt_R0. apply Rdiv_lt_0_compat; [exact Hg | apply PI_RGT_0].
  - apply exp_pos.
Qed.

Lemma tf_profile_value d g r2 : 0 < g ->
  tf_profile d g r2 = (2 * tf_mu d g - r2) / (2 * g).
Proof.
  intros Hg. pose proof (tf_mu_positive d Hg). unfold tf_profile.
  field. lra.
Qed.

(** C8: each Thomas-Fermi initializer returns None at g = 0; at g > 0 it
    returns the array of mu (1 - r^2 / (2 mu)) / g, with r^2 the sum of the
    squared coordinates and mu the closed form of its dimension, a real
    power or root of a positive number. *)
Theorem thomas_fermi_none_or_profile (x y z : ndarray R) (g : R) :
  wf x -> shape y = shape x -> shape z = shape x ->
  (g = 0 ->
   thomas_fermi_1d x g = None /\
   thomas_fermi_2d x y g = Ok None /\
   thomas_fermi_3d x y z g = Ok None) /\
  (0 < g ->
   exists p1 p2 p3,
     thomas_fermi_1d x g = Some p1 /\
     thomas_fermi_2d x y g = Ok (Some p2) /\
     thomas_fermi_3d x y z g = Ok (Some p3) /\
     shape p1 = shape x /\ shape p2 = shape x /\ shape p3 = shape x /\
     forall i, (i < size (shape x))%nat ->
       let a := nth i (data x) 0 in
       let b := nth i (data y) 0 in
       let c := nth i (data z) 0 in
       nth i (data p1) 0 = tf_profile 1 g (a * a) /\
       nth i (data p2) 0 = tf_profile 2 g (a * a + b * b) /\
       nth i (data p3) 0 = tf_profile 3 g (a * a + b * b + c * c)).
Proof.
  intros Hwf Hy Hz. split.
  - intros ->. unfold thomas_fermi_1d, thomas_fermi_2d, thomas_fermi_3d.
    destruct (Req_dec_T 0 0) as [_|N]; [auto | contradiction].
  - intros Hg. unfold thomas_fermi_1d, thomas_fermi_2d, thomas_fermi_3d.
    destruct (Req_dec_T g 0) as [E|_]; [lra|].
    rewrite (np_binop_same Rplus (sq x) (sq y)) by exact Hy. simpl.
    rewrite (np_binop_same Rplus _ (sq z)) by exact Hz. simpl.
    do 3 eexists. do 6 (split; [reflexivity|]).
    intros i Hi.
    rewrite (@nth_np_map _ _ _ (sq x) i 0 0)
      by (unfold sq, np_map; simpl; rewrite length_map, Hwf; exact Hi).
    rewrite (@nth_np_map _ _ _ (zip_nd Rplus (sq x) (sq y)) i 0 0)
      by (unfold zip_nd; rewrite (wf_tabulate _ _); exact Hi).
    rewrite (@nth_np_map _ _ _ (zip_nd Rplus (zip_nd Rplus (sq x) (sq y)) (sq z)) i 0 0)
      by (unfold zip_nd; rewrite (wf_tabulate _ _); exact Hi).
    rewrite !nth_zip_nd by (simpl; auto).
    unfold dflt, Dflt_R. rewrite !nth_sq.
    rewrite (mu_1d_tf Hg), mu_2d_tf, (mu_3d_tf Hg).
    unfold tf_profile. auto.
Qed.

Lemma thomas_fermi_none_or_profile_witness :
  thomas_fermi_1d (mk_nd [1%nat] [1]) 0 = None /\
  exists p3,
    thomas_fermi_3d (mk_nd [1%nat] [1]) (mk_nd [1%nat] [1])
                    (mk_nd [1%nat] [1]) 1 = Ok (Some p3) /\
    nth 0 (data p3) 0 = tf_profile 3 1 (1 * 1 + 1 * 1 + 1 * 1).
Proof.
  split.
  - apply (@thomas_fermi_none_or_profile
             (mk_nd [1%nat] [1]) (mk_nd [1%nat] [1]) (mk_nd [1%nat] [1])
             0 eq_refl eq_refl eq_refl).
    reflexivity.
  - destruct (@thomas_fermi_none_or_profile
                (mk_nd [1%nat] [1]) (mk_nd [1%nat] [1]) (mk_nd [1%nat] [1])
                1 eq_refl eq_refl eq_refl) as (_ & H).
    destruct (H Rlt_0_1) as (p1 & p2 & p3 & _ & _ & H3 & _ & _ & _ & Hv).
    exists p3. split; [exact H3|].
    apply (Hv 0%nat). simpl. lia.
Defined.

(** The 3-D trap scales y and z as its parameters say. *)
Lemma v_harmonic_3d_entries (x y z : ndarray R) (alpha_y alpha_z : R) :
  shape y = shape x -> shape z = shape x ->
  exists v, v_harmonic_3d x y z alpha_y alpha_z = Ok v /\
    shape v = shape x /\
    forall i, (i < size (shape x))%nat ->
      let a := nth i (data x) 0 in
      let b := nth i (data y) 0 in
      let c := nth i (data z) 0 in
      nth i (data v) 0
      = 0.5 * (a * a + (alpha_y * b) * (alpha_y * b)
               + (alpha_z * c) * (alpha_z * c)).
Proof.
  intros Hy Hz. unfold v_harmonic_3d.
  rewrite (np_binop_same Rplus (sq x) _) by exact Hy. simpl.
  rewrite (np_binop_same Rplus _ _) by exact Hz. simpl.
  eexists. split; [reflexivity|]. split; [reflexivity|].
  intros i Hi.
  rewrite (@nth_np_map _ _ _ _ i 0 0)
    by (unfold zip_nd; rewrite (wf_tabulate _ _); exact Hi).
  rewrite !nth_zip_nd by (simpl; auto).
  unfold dflt, Dflt_R. rewrite !nth_sq.
  rewrite (@nth_np_map_dflt _ _ (fun v => alpha_y * v) y i 0 0) by lra.
  rewrite (@nth_np_map_dflt _ _ (fun v => alpha_z * v) z i 0 0) by lra.
  reflexivity.
Qed.

(** C9, the 2-D trap: at the point (x, y) = (0, 1) with alpha_y = 2 it
    returns 1/2, the isotropic value, where (1/2) (x^2 + (alpha_y y)^2)
    is 2. *)
Theorem v_harmonic_2d_drops_alpha_y :
  v_harmonic_2d (mk_nd [1; 1; 2]%nat [0; 1]) 2
  = v_harmonic_2d (mk_nd [1; 1; 2]%nat [0; 1]) 1 /\
  exists v,
    v_harmonic_2d (mk_nd [1; 1; 2]%nat [0; 1]) 2 = Ok v /\
    shape v = [1; 1]%nat /\
    data v = [0.5 * (0 * 0 + 1 * 1)] /\
    0.5 * (0 * 0 + 1 * 1) <> 0.5 * (0 * 0 + (2 * 1) * (2 * 1)).
Proof.
  split; [reflexivity|].
  unfold v_harmonic_2d, getitem_axis. cbn [shape nth_error Nat.ltb Nat.leb].
  cbn [rbind]. unfold v_2d.
  rewrite np_binop_same by reflexivity. cbn [rbind].
  eexists. split; [reflexivity|]. split; [reflexivity|].
  split; [|lra].
  unfold np_map, zip_nd, tabulate, item. cbn.
  rewrite !float_pow_sq by reflexivity. reflexivity.
Qed.

(** ** Construction (Schroedinger.__init__) *)

Lemma io_bind_ok {A B} (a : A) (k : A -> IO B) : io_bind ([], Ok a) k = k a.
Proof. unfold io_bind. simpl. now destruct (k a). Qed.

Lemma io_bind_raise {A B} tr e (k : A -> IO B) :
  io_bind (tr, Raise e) k = (tr, Raise e).
Proof. reflexivity. Qed.

Lemma io_bind_inv {A B} (m : IO A) (k : A -> IO B) tr b :
  io_bind m k = (tr, Ok b) ->
  exists a, m = (fst m, Ok a) /\ snd (k a) = Ok b /\ tr = fst m ++ fst (k a).
Proof.
  unfold io_bind. destruct m as [t [a|e]]; simpl.
  - intros H. exists a. injection H as H1 H2. auto.
  - discriminate.
Qed.

Lemma py_div_ok a b : b <> 0 -> py_div a b = Ok (a / b).
Proof. intros Hb. unfold py_div. now destruct (Req_dec_T b 0). Qed.

Lemma linspace_ok s e n : (0 <= n)%Z ->
  linspace s e n = Ok (mk_nd [Z.to_nat n] (linspace_samples s e n)).
Proof.
  intros Hn. unfold linspace.
  destruct (Z.ltb_spec n 0); [lia | reflexivity].
Qed.

Lemma fftfreq_ok n d : (0 <= n)%Z -> IZR n * d <> 0 ->
  fftfreq n d
  = Ok (mk_nd [Z.to_nat n] (fftfreq_samples n (1.0 / (IZR n * d)))).
Proof.
  intros Hn Hd. unfold fftfreq. rewrite py_div_ok by exact Hd. simpl.
  destruct (Z.ltb_spec n 0); [lia | reflexivity].
Qed.

Lemma wavevector_spacing_nonzero L n : (0 < n)%Z -> L <> 0 ->
  PI / L * IZR n <> 0 /\ IZR n * (1.0 / (PI / L * IZR n)) <> 0.
Proof.
  intros Hn HL.
  assert (Hn' : IZR n <> 0) by (apply not_0_IZR; lia).
  assert (Hpi : PI <> 0) by (apply PI_neq0).
  assert (H1 : PI / L * IZR n <> 0).
  { apply Rmult_integral_contrapositive_currified; [|exact Hn'].
    unfold Rdiv. apply Rmult_integral_contrapositive_currified;
      [exact Hpi | now apply Rinv_neq_0_compat]. }
  split; [exact H1|].
  apply Rmult_integral_contrapositive_currified; [exact Hn'|].
  unfold Rdiv. apply Rmult_integral_contrapositive_currified; [lra|].
  now apply Rinv_neq_0_compat.
Qed.

Lemma add_axis_ok n L k2 : (0 < n)%Z -> L <> 0 -> shape k2 = [Z.to_nat n] ->
  Schroedinger.add_axis n L k2
  = ([], Ok (axis L n, 2.0 * L / IZR n, PI / L, wavevectors L n,
             zip_nd Rplus k2 (sq (wavevectors L n)))).
Proof.
  intros Hn HL Hk. unfold Schroedinger.add_axis, io_lift, io_ret.
  destruct (wavevector_spacing_nonzero Hn HL) as [H1 H2].
  rewrite linspace_ok by lia. rewrite io_bind_ok.
  rewrite py_div_ok by (apply not_0_IZR; lia). rewrite io_bind_ok.
  rewrite py_div_ok by exact HL. rewrite io_bind_ok.
  rewrite py_div_ok by exact H1. rewrite io_bind_ok.
  rewrite fftfreq_ok by (lia || exact H2). rewrite io_bind_ok.
  unfold np_inplace. rewrite np_binop_same by (simpl; now rewrite Hk).
  simpl. destruct (list_eq_dec Nat.eq_dec (shape k2) (shape k2)); [|contradiction].
  rewrite io_bind_ok. reflexivity.
Qed.

Lemma set_last_length {A} (l : list A) v : length (set_last l v) = length l.
Proof.
  destruct l as [|w l]; [reflexivity|].
  unfold set_last. rewrite length_app. simpl length at 2.
  destruct (exists_last (l := w :: l)) as (l' & z & ->); [discriminate|].
  rewrite removelast_last, length_app. reflexivity.
Qed.

Lemma linspace_samples_length s e n :
  length (linspace_samples s e n) = Z.to_nat n.
Proof.
  unfold linspace_samples.
  destruct (1 <? n)%Z; rewrite ?set_last_length, length_map, length_seq;
    reflexivity.
Qed.

Lemma last_cons {A} (v : A) l d : last (v :: l) d = last l v.
Proof.
  revert v d. induction l as [|w l IH]; intros v d; [reflexivity|].
  change (last (v :: w :: l) d) with (last (w :: l) d).
  now rewrite !IH.
Qed.

Lemma first_last_item_ok L n : (0 < n)%Z ->
  Schroedinger.first_item (axis L n) = Ok (hd 0 (data (axis L n))) /\
  Schroedinger.last_item (axis L n) = Ok (last (data (axis L n)) 0).
Proof.
  intros Hn. unfold Schroedinger.first_item, Schroedinger.last_item.
  pose proof (linspace_samples_length (- L) L n) as Hl.
  unfold axis. simpl data.
  destruct (linspace_samples (- L) L n) as [|v l]; [simpl in Hl; lia|].
  split; [reflexivity|]. now rewrite last_cons.
Qed.

Lemma io_bind_never_ok {A B} (m : IO A) (k : A -> IO B) :
  (forall a b, snd (k a) <> Ok b) -> forall b, snd (io_bind m k) <> Ok b.
Proof.
  intros Hk b. unfold io_bind. destruct (snd m) as [a|e]; simpl.
  - apply Hk.
  - discriminate.
Qed.

Lemma io_bind_quiet {A B} (m : IO A) (k : A -> IO B) :
  fst m = [] -> (forall a, fst (k a) = []) -> fst (io_bind m k) = [].
Proof.
  intros Hm Hk. unfold io_bind. destruct (snd m) as [a|e]; simpl.
  - now rewrite Hm, Hk.
  - exact Hm.
Qed.

Lemma add_axis_quiet n L k2 : fst (Schroedinger.add_axis n L k2) = [].
Proof.
  unfold Schroedinger.add_axis.
  repeat (apply io_bind_quiet; [reflexivity | intros ?]). reflexivity.
Qed.

Section Construction.

Variables (resolution timesteps : Z) (L dt g : R) (imag_time : bool)
          (s E : R) (psi_0 : callable_psi) (V : callable_V)
          (psi_sol : callable_sol) (mu_sol : R -> R) (alpha_psi alpha_V : R).

Abbreviation init dim :=
  (Schroedinger.__init__ resolution timesteps L dt g imag_time s E dim
                         psi_0 V psi_sol mu_sol alpha_psi alpha_V)
  (only parsing).

Lemma shape_k_squared_of dim :
  shape (k_squared_of dim L resolution) = [Z.to_nat resolution].
Proof.
  unfold k_squared_of.
  destruct (2 <=? dim)%Z, (3 <=? dim)%Z; reflexivity.
Qed.

Lemma init_ok dim pv vv :
  (0 < resolution)%Z -> L <> 0 -> (1 <= dim <= 3)%Z ->
  psi_0 (init_inputs dim L resolution) = Ok pv ->
  V (init_inputs dim L resolution) = Ok vv ->
  (dim = 3%Z \/ exists sv, psi_sol (init_inputs dim L resolution) g = Ok sv) ->
  exists e, init dim = ([], Ok e) /\
            built resolution L dt g s E imag_time dim pv vv e.
Proof.
  intros Hn HL Hdim Hpsi HV Hsol.
  destruct (wavevector_spacing_nonzero Hn HL) as [H1 H2].
  destruct (first_last_item_ok L Hn) as [Hfst Hlst].
  unfold Schroedinger.__init__, io_lift, io_ret.
  rewrite linspace_ok by lia. rewrite io_bind_ok.
  rewrite py_div_ok by (apply not_0_IZR; lia). rewrite io_bind_ok.
  rewrite py_div_ok by exact HL. rewrite io_bind_ok.
  rewrite py_div_ok by exact H1. rewrite io_bind_ok.
  rewrite fftfreq_ok by (lia || exact H2). rewrite io_bind_ok.
  fold (axis L resolution). fold (wavevectors L resolution).
  assert (Hd : dim = 1%Z \/ dim = 2%Z \/ dim = 3%Z) by lia.
  destruct Hd as [-> | [-> | ->]]; cbn [Z.leb Z.ltb Z.eqb Z.compare Pos.compare Pos.compare_cont Pos.eqb].
  - rewrite !io_bind_ok.
    unfold init_inputs in Hpsi, HV, Hsol. cbn [Z.eqb Pos.eqb] in Hpsi, HV, Hsol.
    destruct Hsol as [Hsol | (sv & Hsol)]; [discriminate|].
    rewrite Hpsi, HV, Hsol. rewrite !io_bind_ok.
    eexists. split; [reflexivity|]. constructor; reflexivity.
  - rewrite add_axis_ok by (assumption || reflexivity).
    rewrite !io_bind_ok. cbn [Schroedinger.opt_get option_map fst snd].
    unfold io_ret. rewrite !io_bind_ok.
    unfold init_inputs in Hpsi, HV, Hsol. cbn [Z.eqb Pos.eqb] in Hpsi, HV, Hsol.
    destruct Hsol as [Hsol | (sv & Hsol)]; [discriminate|].
    unfold get_meshgrid, meshgrid in *. cbn [fst snd] in *.
    unfold io_lift. rewrite Hpsi, HV, Hsol. rewrite !io_bind_ok.
    eexists. split; [reflexivity|]. constructor; reflexivity.
  - rewrite add_axis_ok by (assumption || reflexivity).
    rewrite !io_bind_ok.
    rewrite add_axis_ok by (assumption || reflexivity).
    rewrite !io_bind_ok. cbn [Schroedinger.opt_get option_map fst snd].
    unfold io_ret. rewrite !io_bind_ok.
    rewrite Hfst, Hlst. rewrite !io_bind_ok.
    unfold init_inputs in Hpsi, HV. cbn [Z.eqb Pos.eqb] in Hpsi, HV.
    unfold mgrid3 in *. cbn [fst snd] in *.
    rewrite Hpsi, HV. rewrite !io_bind_ok.
    eexists. split; [reflexivity|]. constructor; reflexivity.
Qed.

Lemma init_over_3 dim :
  (0 < resolution)%Z -> L <> 0 -> (3 < dim)%Z ->
  init dim = ([Stderr dim_error_msg], Raise (SystemExit 1)).
Proof.
  intros Hn HL Hdim.
  destruct (wavevector_spacing_nonzero Hn HL) as [H1 H2].
  unfold Schroedinger.__init__, io_lift, io_ret.
  rewrite linspace_ok by lia. rewrite io_bind_ok.
  rewrite py_div_ok by (apply not_0_IZR; lia). rewrite io_bind_ok.
  rewrite py_div_ok by exact HL. rewrite io_bind_ok.
  rewrite py_div_ok by exact H1. rewrite io_bind_ok.
  rewrite fftfreq_ok by (lia || exact H2). rewrite io_bind_ok.
  destruct (Z.leb_spec 2 dim); [|lia].
  destruct (Z.leb_spec 3 dim); [|lia].
  destruct (Z.ltb_spec 3 dim); [|lia].
  rewrite add_axis_ok by (assumption || reflexivity).
  rewrite !io_bind_ok.
  rewrite add_axis_ok by (assumption || reflexivity).
  rewrite !io_bind_ok.
  reflexivity.
Qed.

Lemma init_over_3_no_engine dim tr e :
  (3 < dim)%Z -> init dim <> (tr, Ok e).
Proof.
  intros Hdim Hinit.
  assert (Hsnd : snd (init dim) = Ok e) by (now rewrite Hinit).
  revert Hsnd. clear Hinit. generalize e. clear e tr.
  unfold Schroedinger.__init__.
  destruct (Z.leb_spec 2 dim); [|lia].
  destruct (Z.leb_spec 3 dim); [|lia].
  destruct (Z.ltb_spec 3 dim); [|lia].
  do 5 (apply io_bind_never_ok; intros ?).
  apply io_bind_never_ok; intros [? ?].
  apply io_bind_never_ok; intros [? ?].
  intros e. cbn. discriminate.
Qed.

Lemma init_quiet dim : (dim <= 3)%Z -> fst (init dim) = [].
Proof.
  intros Hdim. unfold Schroedinger.__init__.
  destruct (Z.ltb_spec 3 dim); [lia|].
  repeat first
    [ reflexivity
    | apply io_bind_quiet; [| intros ?]
    | match goal with
      | |- context [match ?p with pair _ _ => _ end] => destruct p
      | |- context [if ?b then _ else _] => destruct b
      | |- context [Schroedinger.opt_get ?o] => destruct o
      end ].
Qed.

End Construction.

(** The samples of [np.linspace]. *)
Lemma nth_set_last {A} (l : list A) v i d :
  (i < length l)%nat ->
  nth i (set_last l v) d = if (i =? length l - 1)%nat then v else nth i l d.
Proof.
  intros Hi. destruct l as [|w l]; [simpl in Hi; lia|].
  unfold set_last. rewrite removelast_firstn_len.
  set (l0 := w :: l) in *.
  destruct (Nat.eqb_spec i (length l0 - 1)) as [E|E].
  - rewrite app_nth2 by (rewrite length_firstn; lia).
    rewrite length_firstn.
    replace (i - Nat.min (Nat.pred (length l0)) (length l0))%nat with 0%nat by lia.
    reflexivity.
  - rewrite app_nth1 by (rewrite length_firstn; lia).
    rewrite nth_firstn.
    destruct (Nat.ltb_spec i (Nat.pred (length l0))); [reflexivity | lia].
Qed.

Lemma nth_linspace_samples s e n i d :
  (1 < n)%Z -> (i < Z.to_nat n)%nat ->
  nth i (linspace_samples s e n) d = s + INR i * ((e - s) / IZR (n - 1)).
Proof.
  intros Hn Hi. unfold linspace_samples.
  destruct (Z.ltb_spec 1 n); [|lia].
  destruct (Z.ltb_spec 0 (n - 1)); [|lia].
  rewrite nth_set_last by (now rewrite length_map, length_seq).
  rewrite length_map, length_seq.
  destruct (Nat.eqb_spec i (Z.to_nat n - 1)) as [E|E].
  - subst i. rewrite INR_IZR_INZ.
    replace (Z.of_nat (Z.to_nat n - 1)) with (n - 1)%Z by lia.
    field. apply not_0_IZR. lia.
  - match goal with
    | |- context [map ?f _] =>
        rewrite (nth_indep _ d (f 0%nat))
          by (now rewrite length_map, length_seq);
        rewrite (map_nth f)
    end.
    rewrite seq_nth by exact Hi. simpl Nat.add. lra.
Qed.

Lemma last_linspace_samples s e n d :
  (1 < n)%Z -> last (linspace_samples s e n) d = e.
Proof.
  intros Hn. unfold linspace_samples.
  destruct (Z.ltb_spec 1 n); [|lia].
  set (y := map _ _).
  assert (Hy : length y = Z.to_nat n) by (unfold y; now rewrite length_map, length_seq).
  destruct y as [|v y']; [simpl in Hy; lia|].
  unfold set_last. apply last_last.
Qed.

Lemma scenario_inputs_1d n :
  exists pv vv,
    psi_0_1d (init_inputs 1 5 n) = Ok pv /\
    V_1d (init_inputs 1 5 n) = Ok vv /\
    shape pv = [Z.to_nat n] /\ shape vv = [Z.to_nat n] /\
    exists sv, psi_sol_1d (init_inputs 1 5 n) 0 = Ok sv.
Proof.
  do 2 eexists. repeat split; try reflexivity. eexists. reflexivity.
Qed.

Lemma scenario_1d_built n : (0 < n)%Z ->
  exists e pv vv,
    scenario n 1 = ([], Ok e) /\
    built n 5 0.01 0 1.1 1.0 true 1 pv vv e /\
    shape pv = [Z.to_nat n] /\ shape vv = [Z.to_nat n].
Proof.
  intros Hn.
  destruct (scenario_inputs_1d n) as (pv & vv & Hp & Hv & Hsp & Hsv & sv & Hs).
  destruct (@init_ok n 500 5 0.01 0 true 1.1 1.0 psi_0_1d V_1d psi_sol_1d mu_1d 0.8 0.3 1 pv vv
              Hn ltac:(lra) ltac:(lia) Hp Hv (or_intror (ex_intro _ sv Hs)))
    as (e & He & Hb).
  exists e, pv, vv. auto.
Qed.

(** C5: the axis of the scenario (L = 5, resolution 64) ends at +L, and
    its samples are 10/63 apart, while the stored spacing dx is 10/64. *)
Theorem position_axis_includes_endpoint :
  exists e,
    scenario 64 1 = ([], Ok e) /\
    length (data (Schroedinger.x e)) = 64%nat /\
    nth 0 (data (Schroedinger.x e)) 0 = -5 /\
    last (data (Schroedinger.x e)) 0 = 5 /\
    (forall i, (i < 63)%nat ->
       nth (S i) (data (Schroedinger.x e)) 0 - nth i (data (Schroedinger.x e)) 0
       = 10 / 63) /\
    Schroedinger.dx e = 10 / 64 /\
    10 / 63 <> 10 / 64.
Proof.
  destruct (@scenario_1d_built 64 ltac:(lia)) as (e & pv & vv & He & Hb & _).
  exists e. split; [exact He|].
  rewrite (built_x Hb), (built_dx Hb). unfold axis. cbn [data].
  split; [apply linspace_samples_length|].
  split; [rewrite nth_linspace_samples by lia; simpl INR; lra|].
  split; [apply last_linspace_samples; lia|].
  split; [|split; lra].
  intros i Hi. rewrite !nth_linspace_samples by lia.
  rewrite S_INR. change (64 - 1)%Z with 63%Z. lra.
Qed.

Lemma sixty_three_not_power_of_two : ~ power_of_two 63.
Proof.
  intros [k Hk]. destruct k as [|k].
  - discriminate.
  - rewrite Nat2Z.inj_succ, Z.pow_succ_r in Hk by lia. lia.
Qed.

(** C7, as the code has it: construction checks nothing about powers of
    two. For every positive resolution, with L <> 0, a dimension count
    from 1 to 3 and initializers that return, it prints nothing and returns
    an engine whose position axis holds [resolution] samples. *)
Theorem construction_accepts_any_positive_resolution
    (resolution timesteps : Z) (L dt g : R) (imag_time : bool) (s E : R)
    (dim : Z) (psi_0 : callable_psi) (V : callable_V) (psi_sol : callable_sol)
    (mu_sol : R -> R) (alpha_psi alpha_V : R) (pv : ndarray C) (vv : ndarray R) :
  (0 < resolution)%Z -> L <> 0 -> (1 <= dim <= 3)%Z ->
  psi_0 (init_inputs dim L resolution) = Ok pv ->
  V (init_inputs dim L resolution) = Ok vv ->
  (dim = 3%Z \/ exists sv, psi_sol (init_inputs dim L resolution) g = Ok sv) ->
  exists e,
    Schroedinger.__init__ resolution timesteps L dt g imag_time s E dim
                          psi_0 V psi_sol mu_sol alpha_psi alpha_V
    = ([], Ok e) /\
    Schroedinger.resolution e = resolution /\
    shape (Schroedinger.x e) = [Z.to_nat resolution] /\
    length (data (Schroedinger.x e)) = Z.to_nat resolution /\
    Schroedinger.psi_val e = Some pv /\
    Schroedinger.V_val e = Some vv.
Proof.
  intros Hn HL Hdim Hp Hv Hs.
  destruct (@init_ok resolution timesteps L dt g imag_time s E psi_0 V psi_sol
              mu_sol alpha_psi alpha_V dim pv vv Hn HL Hdim Hp Hv Hs)
    as (e & He & Hb).
  exists e. split; [exact He|].
  rewrite (built_x Hb). unfold axis. cbn [shape data].
  rewrite linspace_samples_length.
  repeat split; try reflexivity; apply Hb.
Qed.

Lemma construction_accepts_any_positive_resolution_witness :
  exists e, scenario 63 1 = ([], Ok e) /\
            length (data (Schroedinger.x e)) = 63%nat.
Proof.
  destruct (scenario_inputs_1d 63) as (pv & vv & Hp & Hv & _ & _ & Hs).
  destruct (@construction_accepts_any_positive_resolution
              63 500 5 0.01 0 true 1.1 1.0 1 psi_0_1d V_1d psi_sol_1d mu_1d
              0.8 0.3 pv vv ltac:(lia) ltac:(lra) ltac:(lia) Hp Hv
              (or_intror Hs))
    as (e & He & _ & _ & Hl & _).
  exists e. split; [exact He | exact Hl].
Defined.

(** C7 as stated fails: 63 is not a power of two, and construction with
    resolution 63 reports nothing and returns an engine. *)
Lemma resolution_63_is_accepted :
  ~ power_of_two 63 /\
  exists e, scenario 63 1 = ([], Ok e) /\
            Schroedinger.resolution e = 63%Z /\
            length (data (Schroedinger.x e)) = 63%nat.
Proof.
  split; [exact sixty_three_not_power_of_two|].
  destruct (@scenario_1d_built 63 ltac:(lia)) as (e & pv & vv & He & Hb & _).
  exists e. split; [exact He|]. split; [apply Hb|].
  rewrite (built_x Hb). apply linspace_samples_length.
Qed.

(** C10: with more than three dimensions construction never returns an
    engine; once the axes are built (positive resolution, L <> 0) it writes
    the message to stderr and exits with status 1. With at most three
    dimensions nothing is written and that exit is not taken. *)
Theorem dimension_over_3_aborts_construction
    (resolution timesteps : Z) (L dt g : R) (imag_time : bool) (s E : R)
    (dim : Z) (psi_0 : callable_psi) (V : callable_V) (psi_sol : callable_sol)
    (mu_sol : R -> R) (alpha_psi alpha_V : R) :
  let init := Schroedinger.__init__ resolution timesteps L dt g imag_time s E
                dim psi_0 V psi_sol mu_sol alpha_psi alpha_V in
  ((3 < dim)%Z ->
   (forall tr e, init <> (tr, Ok e)) /\
   ((0 < resolution)%Z -> L <> 0 ->
    init = ([Stderr dim_error_msg], Raise (SystemExit 1)))) /\
  ((1 <= dim <= 3)%Z ->
   fst init = [] /\
   init <> ([Stderr dim_error_msg], Raise (SystemExit 1))).
Proof.
  intros init. split.
  - intros Hdim. split.
    + intros tr e. now apply init_over_3_no_engine.
    + intros Hn HL. now apply init_over_3.
  - intros Hdim.
    assert (Hq : fst init = []) by (apply init_quiet; lia).
    split; [exact Hq|]. intros H. rewrite H in Hq. discriminate.
Qed.

Lemma dimension_over_3_aborts_construction_witness :
  scenario 64 4 = ([Stderr dim_error_msg], Raise (SystemExit 1)) /\
  fst (scenario 64 1) = [].
Proof.
  split.
  - apply (proj1 (@dimension_over_3_aborts_construction
                    64 500 5 0.01 0 true 1.1 1.0 4 psi_0_1d V_1d psi_sol_1d
                    mu_1d 0.8 0.3)); [lia | lia | lra].
  - apply (proj2 (@dimension_over_3_aborts_construction
                    64 500 5 0.01 0 true 1.1 1.0 1 psi_0_1d V_1d psi_sol_1d
                    mu_1d 0.8 0.3)). lia.
Defined.

(** ** The squared wavevectors *)

Lemma psi_gauss_3d_ok (x y z : ndarray R) (a x_0 y_0 z_0 k_0 : R) :
  shape y = shape x -> shape z = shape x ->
  exists pv, psi_gauss_3d x y z a x_0 y_0 z_0 k_0 = Ok pv /\
             shape pv = shape x.
Proof.
  intros Hy Hz. unfold psi_gauss_3d.
  rewrite (np_binop_same Rplus _ _) by exact Hy. cbn [rbind].
  rewrite (np_binop_same Rplus _ _) by exact Hz. cbn [rbind].
  rewrite np_binop_same by reflexivity. cbn [rbind].
  eexists. split; reflexivity.
Qed.

Lemma default_3d_built n L g : (0 < n)%Z -> L <> 0 ->
  exists e pv vv,
    default_3d n L g = ([], Ok e) /\
    built n L 0.01 g 1.1 1.0 true 3 pv vv e /\
    shape pv = [Z.to_nat n; Z.to_nat n; Z.to_nat n] /\
    shape vv = [Z.to_nat n; Z.to_nat n; Z.to_nat n].
Proof.
  intros Hn HL.
  set (m := init_inputs 3 L n).
  assert (Hm : exists x y z, m = [x; y; z] /\
                shape x = [Z.to_nat n; Z.to_nat n; Z.to_nat n] /\
                shape y = shape x /\ shape z = shape x).
  { unfold m, init_inputs, mgrid3. cbn [Z.eqb Pos.eqb fst snd].
    do 3 eexists. split; [reflexivity|].
    cbn [shape tabulate]. rewrite Z.abs_eq by lia. auto. }
  destruct Hm as (x & y & z & Em & Hx & Hy & Hz).
  destruct (psi_gauss_3d_ok x y z 1.0 0.0 0.0 0.0 0.0 Hy Hz) as (pv & Hp & Hsp).
  destruct (v_harmonic_3d_entries x y z 1.0 1.0 Hy Hz) as (vv & Hv & Hsv & _).
  destruct (@init_ok n 10 L 0.01 g true 1.1 1.0 psi_0_3d V_3d psi_sol_3d mu_3d
              0.8 0.3 3 pv vv Hn HL ltac:(lia))
    as (e & He & Hb).
  - fold m. rewrite Em. exact Hp.
  - fold m. rewrite Em. exact Hv.
  - now left.
  - exists e, pv, vv. split; [exact He|]. split; [exact Hb|].
    split; congruence.
Qed.

Lemma fftfreq_samples_length n val : (0 <= n)%Z ->
  length (fftfreq_samples n val) = Z.to_nat n.
Proof.
  intros Hn. unfold fftfreq_samples, arange.
  rewrite length_map, length_app, !length_map, !length_seq.
  pose proof (Z.div_mod n 2 ltac:(lia)).
  pose proof (Z.mod_pos_bound n 2 ltac:(lia)).
  pose proof (Z.div_mod (n - 1) 2 ltac:(lia)).
  pose proof (Z.mod_pos_bound (n - 1) 2 ltac:(lia)).
  lia.
Qed.

(** C4: with the defaults of [__init__] (three dimensions) on 64 samples
    per axis the field has shape 64 x 64 x 64, and [k_squared] is a
    one-dimensional array of 64 entries: entry [i] adds the squares of the
    i-th sample of every axis. *)
Theorem k_squared_is_one_dimensional :
  exists e pv ky kz,
    default_3d 64 5 0 = ([], Ok e) /\
    Schroedinger.psi_val e = Some pv /\
    shape pv = [64; 64; 64]%nat /\
    shape (Schroedinger.k_squared e) = [64]%nat /\
    length (data (Schroedinger.k_squared e)) = 64%nat /\
    Schroedinger.ky e = Some ky /\
    Schroedinger.kz e = Some kz /\
    forall i, (i < 64)%nat ->
      let kxi := nth i (data (Schroedinger.kx e)) 0 in
      let kyi := nth i (data ky) 0 in
      let kzi := nth i (data kz) 0 in
      nth i (data (Schroedinger.k_squared e)) 0
      = kxi * kxi + kyi * kyi + kzi * kzi.
Proof.
  destruct (@default_3d_built 64 5 0 ltac:(lia) ltac:(lra))
    as (e & pv & vv & He & Hb & Hsp & _).
  exists e, pv, (wavevectors 5 64), (wavevectors 5 64).
  split; [exact He|]. split; [apply Hb|]. split; [exact Hsp|].
  rewrite (built_k_squared Hb), (built_kx Hb), (built_ky Hb), (built_kz Hb).
  unfold k_squared_of. cbn [Z.leb Z.compare Pos.compare Pos.compare_cont].
  split; [reflexivity|].
  split; [unfold zip_nd; now rewrite (wf_tabulate _ _)|].
  split; [reflexivity|]. split; [reflexivity|].
  intros i Hi. cbv zeta.
  rewrite !nth_zip_nd by (try reflexivity; cbn; lia).
  unfold dflt, Dflt_R. rewrite !nth_sq. reflexivity.
Qed.

(** ** One step (Schroedinger.time_step) *)

Import Schroedinger.

Lemma py_bind_ok {A B} (m : Py A) (k : A -> Py B) e a e1 :
  m e = (([], Ok a), e1) -> py_bind m k e = k a e1.
Proof.
  intros H. unfold py_bind. rewrite H. simpl.
  destruct (k a e1) as [[tr r] e2]. reflexivity.
Qed.

Lemma py_bind_raise {A B} (m : Py A) (k : A -> Py B) e tr x e1 :
  m e = ((tr, Raise x), e1) -> py_bind m k e = ((tr, Raise x), e1).
Proof. intros H. unfold py_bind. now rewrite H. Qed.

Lemma py_attr_some {A} (f : engine -> option A) e a :
  f e = Some a -> py_attr f e = (([], Ok a), e).
Proof. intros H. unfold py_attr, py_io. now rewrite H. Qed.

Lemma psi_val_set v e : psi_val (set_psi_val v e) = Some v.
Proof. reflexivity. Qed.

Lemma apply_H_pot_same e pv vv :
  psi_val e = Some pv -> V_val e = Some vv -> shape vv = shape pv ->
  apply_H_pot e
  = (([], Ok tt),
     set_psi_val (potential_half_step (U e) (g e) (dt e) vv pv) e).
Proof.
  intros Hp Hv Hs. unfold apply_H_pot, H_pot_now.
  erewrite py_bind_ok; [|erewrite py_bind_ok by reflexivity;
    erewrite py_bind_ok by (apply py_attr_some; exact Hv);
    erewrite py_bind_ok by reflexivity;
    erewrite py_bind_ok by (apply py_attr_some; exact Hp);
    erewrite py_bind_ok by reflexivity;
    erewrite py_bind_ok
      by (unfold py_lift, py_io, io_lift;
          rewrite np_binop_same by (symmetry; exact Hs); reflexivity);
    reflexivity].
  erewrite py_bind_ok by (apply py_attr_some; exact Hp).
  erewrite py_bind_ok
    by (unfold py_lift, py_io, io_lift;
        rewrite np_binop_same by (symmetry; exact Hs); reflexivity).
  reflexivity.
Qed.

Lemma probe_too_few_axes e pv :
  psi_val e = Some pv -> (ndim pv < 2)%nat ->
  probe e = (([], Raise IndexError), e).
Proof.
  intros Hp Hn. unfold probe.
  erewrite py_bind_ok by (apply py_attr_some; exact Hp).
  apply py_bind_raise. unfold py_lift, py_io, io_lift, getitem_slices.
  destruct (Nat.ltb_spec (ndim pv) (length [(29, 35); (29, 34)]%nat));
    [reflexivity | simpl in *; lia].
Qed.

(** A field with fewer than two axes: the step raises at the first probe,
    after the first multiplication by [H_pot]. *)
Lemma time_step_too_few_axes e pv vv :
  psi_val e = Some pv -> V_val e = Some vv -> shape vv = shape pv ->
  (ndim pv < 2)%nat ->
  time_step e
  = (([], Raise IndexError),
     set_psi_val (potential_half_step (U e) (g e) (dt e) vv pv) e).
Proof.
  intros Hp Hv Hs Hn. unfold time_step.
  apply py_bind_raise. unfold split_operator_update.
  erewrite py_bind_ok by (apply apply_H_pot_same; eassumption).
  apply py_bind_raise.
  apply probe_too_few_axes with (pv := potential_half_step (U e) (g e) (dt e) vv pv).
  - reflexivity.
  - unfold ndim in *. cbn [potential_half_step zip_nd tabulate shape np_map].
    now rewrite Hs.
Qed.

Lemma after_calls_too_few_axes k : forall e pv vv,
  psi_val e = Some pv -> V_val e = Some vv -> shape vv = shape pv ->
  (ndim pv < 2)%nat ->
  let ek := after_calls k e in
  (exists pk, psi_val ek = Some pk /\ shape pk = shape pv) /\
  V_val ek = Some vv /\
  t ek = t e /\ mu ek = mu e /\ E ek = E e /\
  fst (time_step ek) = ([], Raise IndexError).
Proof.
  induction k as [|k IH]; intros e pv vv Hp Hv Hs Hn.
  - cbn [after_calls Nat.iter nat_rect].
    rewrite (@time_step_too_few_axes e pv vv Hp Hv Hs Hn). simpl. eauto 10.
  - cbv zeta. unfold after_calls. rewrite Nat.iter_succ_r. fold (after_calls k).
    rewrite (@time_step_too_few_axes e pv vv Hp Hv Hs Hn). cbn [snd].
    set (e1 := set_psi_val _ e).
    assert (Hn1 : (ndim (potential_half_step (U e) (g e) (dt e) vv pv) < 2)%nat).
    { unfold ndim in *.
      cbn [potential_half_step zip_nd tabulate shape np_map]. now rewrite Hs. }
    destruct (IH e1 (potential_half_step (U e) (g e) (dt e) vv pv) vv
                 eq_refl Hv eq_refl Hn1)
      as ((pk & Hpk & Hsk) & HV & Ht & Hmu & HE & Hfail).
    split; [exists pk; split; [exact Hpk|]|].
    + rewrite Hsk. exact Hs.
    + auto.
Qed.

Lemma io_bind_lift_inv {A B} (r : result A) (k : A -> IO B) tr b :
  io_bind (io_lift r) k = (tr, Ok b) -> exists a, r = Ok a /\ k a = (tr, Ok b).
Proof.
  destruct r as [a|x]; [|discriminate].
  unfold io_lift. rewrite io_bind_ok. eauto.
Qed.

Lemma py_div_inv a b q : py_div a b = Ok q -> q = a / b.
Proof. unfold py_div. destruct (Req_dec_T b 0); congruence. Qed.

Lemma linspace_inv s e n a : linspace s e n = Ok a ->
  a = mk_nd [Z.to_nat n] (linspace_samples s e n).
Proof. unfold linspace. destruct (n <? 0)%Z; congruence. Qed.

Lemma fftfreq_inv n d a : fftfreq n d = Ok a ->
  a = mk_nd [Z.to_nat n] (fftfreq_samples n (1.0 / (IZR n * d))).
Proof.
  unfold fftfreq, py_div. destruct (Req_dec_T (IZR n * d) 0); [discriminate|].
  simpl. destruct (n <? 0)%Z; congruence.
Qed.

Lemma init_dim1_inv
    (resolution timesteps : Z) (L dt g : R) (imag_time : bool) (s E : R)
    (psi_0 : callable_psi) (V : callable_V) (psi_sol : callable_sol)
    (mu_sol : R -> R) (alpha_psi alpha_V : R) tr e :
  __init__ resolution timesteps L dt g imag_time s E 1
           psi_0 V psi_sol mu_sol alpha_psi alpha_V = (tr, Ok e) ->
  exists pv vv,
    psi_0 [axis L resolution] = Ok pv /\
    V [axis L resolution] = Ok vv /\
    built resolution L dt g s E imag_time 1 pv vv e.
Proof.
  unfold __init__. intros H.
  apply io_bind_lift_inv in H as (x0 & Hx & H). apply linspace_inv in Hx.
  apply io_bind_lift_inv in H as (dx0 & Hdx & H). apply py_div_inv in Hdx.
  apply io_bind_lift_inv in H as (dk & Hdk & H). apply py_div_inv in Hdk.
  apply io_bind_lift_inv in H as (d & Hd & H). apply py_div_inv in Hd.
  apply io_bind_lift_inv in H as (k0 & Hk & H). apply fftfreq_inv in Hk.
  cbn [Z.leb Z.ltb Z.eqb Z.compare Pos.compare Pos.compare_cont Pos.eqb] in H.
  unfold io_ret in H. rewrite !io_bind_ok in H.
  apply io_bind_lift_inv in H as (pv & Hp & H).
  apply io_bind_lift_inv in H as (vv & Hv & H).
  apply io_bind_lift_inv in H as (sv & Hsv & H).
  injection H as _ <-. subst.
  exists pv, vv. split; [exact Hp|]. split; [exact Hv|].
  constructor; reflexivity.
Qed.

(** C3: an engine constructed with dim = 1, by initializers that return
    arrays of the shape of the axis, never completes a step: every call
    of [time_step] raises IndexError, and after any number of calls t, mu
    and E are as construction left them. The first call has already
    multiplied the field by H_pot when it raises. *)
Theorem one_dimensional_engine_never_steps
    (resolution timesteps : Z) (L dt g : R) (imag_time : bool) (s E : R)
    (psi_0 : callable_psi) (V : callable_V) (psi_sol : callable_sol)
    (mu_sol : R -> R) (alpha_psi alpha_V : R) (tr : list event) (e : engine) :
  __init__ resolution timesteps L dt g imag_time s E 1
           psi_0 V psi_sol mu_sol alpha_psi alpha_V = (tr, Ok e) ->
  (forall a v, psi_0 [a] = Ok v -> shape v = shape a) ->
  (forall a v, V [a] = Ok v -> shape v = shape a) ->
  (exists pv vv,
     psi_val e = Some pv /\ V_val e = Some vv /\ ndim pv = 1%nat /\
     time_step e
     = (([], Raise IndexError),
        set_psi_val
          (potential_half_step (Schroedinger.U e) (Schroedinger.g e) dt vv pv)
          e)) /\
  forall k,
    fst (time_step (after_calls k e)) = ([], Raise IndexError) /\
    t (after_calls k e) = 0.0 /\
    mu (after_calls k e) = s /\
    Schroedinger.E (after_calls k e) = E.
Proof.
  intros Hinit Hpsi HV.
  destruct (init_dim1_inv _ _ _ _ _ _ _ _ _ _ _ _ _ _ Hinit)
    as (pv & vv & Hp & Hv & Hb).
  apply Hpsi in Hp. apply HV in Hv.
  assert (Hs : shape vv = shape pv) by congruence.
  assert (Hn : (ndim pv < 2)%nat) by (unfold ndim; rewrite Hp; simpl; lia).
  split.
  - exists pv, vv. split; [apply Hb|]. split; [apply Hb|].
    split; [unfold ndim; now rewrite Hp|].
    rewrite <- (built_dt Hb).
    apply time_step_too_few_axes; [apply Hb | apply Hb | exact Hs | exact Hn].
  - intros k.
    destruct (@after_calls_too_few_axes k e pv vv (built_psi_val Hb)
                (built_V_val Hb) Hs Hn)
      as (_ & _ & Ht & Hmu & HE & Hfail).
    rewrite Ht, Hmu, HE, (built_t Hb), (built_mu Hb), (built_E Hb). auto.
Qed.

Lemma one_dimensional_engine_never_steps_witness :
  exists e, scenario 64 1 = ([], Ok e) /\
    fst (time_step (after_calls 2 e)) = ([], Raise IndexError) /\
    t (after_calls 2 e) = 0.0.
Proof.
  destruct (@scenario_1d_built 64 ltac:(lia)) as (e & pv & vv & He & _).
  exists e. split; [exact He|].
  destruct (@one_dimensional_engine_never_steps
              64 500 5 0.01 0 true 1.1 1.0 psi_0_1d V_1d psi_sol_1d mu_1d
              0.8 0.3 [] e He) as (_ & H).
  - intros a v Hv. injection Hv as <-. reflexivity.
  - intros a v Hv. injection Hv as <-. reflexivity.
  - destruct (H 2%nat) as (Hf & Ht & _). auto.
Defined.

(** C2, in one dimension: the engine of the scenario (dim = 1,
    resolution 64) is constructed, and its first [time_step] raises
    IndexError at the two-axis slice instead of completing the sequence;
    the time is not advanced. *)
Theorem time_step_raises_in_one_dimension :
  exists e,
    scenario 64 1 = ([], Ok e) /\
    fst (time_step e) = ([], Raise IndexError) /\
    t (snd (time_step e)) = t e.
Proof.
  destruct (@scenario_1d_built 64 ltac:(lia))
    as (e & pv & vv & He & Hb & Hsp & Hsv).
  exists e. split; [exact He|].
  rewrite (@time_step_too_few_axes e pv vv (built_psi_val Hb) (built_V_val Hb)).
  - split; reflexivity.
  - congruence.
  - unfold ndim. rewrite Hsp. simpl. lia.
Qed.

(** ** Renormalization *)

Lemma float_pow_Cabs_2 v p : p = 2 ->
  float_pow (Cabs v) p = fst v * fst v + snd v * snd v.
Proof.
  intros Hp. rewrite float_pow_sq by exact Hp. unfold Cabs.
  apply sqrt_sqrt. nra.
Qed.

Lemma Rsum_map_div {A} (f : A -> R) (c : R) (l : list A) :
  Rsum (map (fun v => f v / c) l) = Rsum (map f l) / c.
Proof.
  induction l as [|v l IH]; simpl.
  - lra.
  - rewrite IH. lra.
Qed.

Lemma density_rescaled v n : 0 < n ->
  float_pow (Cabs (Cdivr v (sqrt n))) 2.0 = float_pow (Cabs v) 2.0 / n.
Proof.
  intros Hn. rewrite !float_pow_Cabs_2 by lra. unfold Cdivr. cbn [fst snd].
  assert (Hs : sqrt n * sqrt n = n) by (apply sqrt_sqrt; lra).
  assert (Hs0 : sqrt n <> 0) by (intros E0; rewrite E0 in Hs; lra).
  transitivity ((fst v * fst v + snd v * snd v) / (sqrt n * sqrt n)).
  - field. exact Hs0.
  - now rewrite Hs.
Qed.

Lemma norm_sum_rescaled pv n : 0 < n ->
  np_sum (np_map (fun v => float_pow (Cabs v) 2.0)
            (np_map (fun v => Cdivr v (sqrt n)) pv))
  = np_sum (np_map (fun v => float_pow (Cabs v) 2.0) pv) / n.
Proof.
  intros Hn. unfold np_sum, np_map. simpl. rewrite map_map.
  rewrite <- Rsum_map_div. f_equal. apply map_ext. intros v.
  now apply density_rescaled.
Qed.

Lemma get_norm_set_psi_val e pv n c :
  psi_val e = Some pv -> 0 < n ->
  get_norm e 2.0 = ([], Ok c) ->
  get_norm (set_psi_val (np_map (fun v => Cdivr v (sqrt n)) pv) e) 2.0
  = ([], Ok (c / n)).
Proof.
  intros Hp Hn. unfold get_norm.
  change (dim (set_psi_val _ e)) with (dim e).
  change (dx (set_psi_val _ e)) with (dx e).
  change (dy (set_psi_val _ e)) with (dy e).
  change (dz (set_psi_val _ e)) with (dz e).
  rewrite psi_val_set, Hp. cbn [opt_get]. unfold io_ret. rewrite !io_bind_ok.
  rewrite norm_sum_rescaled by exact Hn.
  set (S0 := np_sum _).
  destruct (dim e =? 1)%Z.
  { intros H. injection H as <-. do 2 f_equal. lra. }
  destruct (dim e =? 2)%Z.
  { destruct (dy e) as [dy0|]; cbn [opt_get]; [|discriminate].
    unfold io_ret. rewrite !io_bind_ok.
    intros H. injection H as <-. do 2 f_equal. lra. }
  destruct (dim e =? 3)%Z.
  { destruct (dy e) as [dy0|]; cbn [opt_get]; [|discriminate].
    unfold io_ret. rewrite !io_bind_ok.
    destruct (dz e) as [dz0|]; cbn [opt_get]; [|discriminate].
    unfold io_ret. rewrite !io_bind_ok.
    intros H. injection H as <-. do 2 f_equal. lra. }
  discriminate.
Qed.

Lemma get_norm_defined e a p c :
  get_norm e 2.0 = ([], Ok c) ->
  exists q, get_norm (set_psi_val a e) p = ([], Ok q).
Proof.
  unfold get_norm.
  change (dim (set_psi_val a e)) with (dim e).
  change (dx (set_psi_val a e)) with (dx e).
  change (dy (set_psi_val a e)) with (dy e).
  change (dz (set_psi_val a e)) with (dz e).
  rewrite psi_val_set.
  destruct (psi_val e) as [pv|].
  2:{ cbn [opt_get]. unfold io_lift. rewrite !io_bind_raise.
      destruct (dim e =? 1)%Z; [discriminate|].
      destruct (dim e =? 2)%Z; [discriminate|].
      destruct (dim e =? 3)%Z; discriminate. }
  cbn [opt_get]. unfold io_ret. rewrite !io_bind_ok.
  destruct (dim e =? 1)%Z; [eauto|].
  destruct (dim e =? 2)%Z.
  { destruct (dy e) as [dy0|]; cbn [opt_get]; [|discriminate].
    unfold io_ret. rewrite !io_bind_ok. eauto. }
  destruct (dim e =? 3)%Z; [|discriminate].
  destruct (dy e) as [dy0|]; cbn [opt_get]; [|discriminate].
  unfold io_ret. rewrite !io_bind_ok.
  destruct (dz e) as [dz0|]; cbn [opt_get]; [|discriminate].
  unfold io_ret. rewrite !io_bind_ok. eauto.
Qed.

Lemma renormalize_and_measure_ok e pv n :
  psi_val e = Some pv -> get_norm e 2.0 = ([], Ok n) ->
  let e1 := set_psi_val (np_map (fun v => Cdivr v (sqrt n)) pv) e in
  let m := - ln n / (2.0 * dt e) in
  exists q,
    get_norm e1 4.0 = ([], Ok q) /\
    renormalize_and_measure e
    = (([PrintMu m;
         PrintE (m - 0.5 * g e * q) (mu_sol e - 0.5 * g e * q)], Ok tt),
       set_mu_E m (m - 0.5 * g e * q) e1).
Proof.
  intros Hp Hn e1 m.
  destruct (@get_norm_defined e (np_map (fun v => Cdivr v (sqrt n)) pv) 4.0 n Hn)
    as (q & Hq).
  exists q. split; [exact Hq|].
  unfold renormalize_and_measure.
  erewrite py_bind_ok by (unfold py_io; rewrite Hn; reflexivity).
  erewrite py_bind_ok by (apply py_attr_some; exact Hp).
  erewrite py_bind_ok by reflexivity.
  erewrite py_bind_ok by (unfold py_io; cbv beta; rewrite Hq; reflexivity).
  erewrite py_bind_ok by reflexivity.
  erewrite py_bind_ok by reflexivity.
  erewrite py_bind_ok by reflexivity.
  reflexivity.
Qed.

(** ** The step in two and three dimensions *)

Lemma broadcast_last_axis n s :
  s = [n; n] \/ s = [n; n; n] -> broadcast_shapes [n] s = Some s.
Proof.
  intros [-> | ->]; unfold broadcast_shapes; simpl;
    unfold bdim; rewrite Nat.eqb_refl; reflexivity.
Qed.

Lemma probe_ok e pv :
  psi_val e = Some pv -> (2 <= ndim pv)%nat ->
  exists a, probe e = (([], Ok a), e).
Proof.
  intros Hp Hn. unfold probe.
  erewrite py_bind_ok by (apply py_attr_some; exact Hp).
  unfold getitem_slices.
  destruct (Nat.ltb_spec (ndim pv) (length [(29, 35); (29, 34)]%nat));
    [simpl in *; lia|].
  erewrite py_bind_ok by reflexivity.
  eexists. reflexivity.
Qed.

(** On a field of shape n x n or n x n x n, with a potential of that shape
    and [H_kin] of shape n, the statements of [time_step] up to
    [self.t += self.dt] run to their end and leave [split_step] in the
    field. *)
Lemma no_empty_axis n s :
  (0 < n)%nat -> s = [n; n] \/ s = [n; n; n] -> has_empty_axis s = false.
Proof.
  intros Hn Hs. assert (E : (0 =? n)%nat = false) by (apply Nat.eqb_neq; lia).
  destruct Hs as [-> | ->]; unfold has_empty_axis; cbn [existsb];
    rewrite E; reflexivity.
Qed.

Lemma split_operator_update_ok e pv vv hk n :
  psi_val e = Some pv -> V_val e = Some vv -> H_kin e = Some hk ->
  shape vv = shape pv -> shape hk = [n] ->
  shape pv = [n; n] \/ shape pv = [n; n; n] -> (0 < n)%nat ->
  split_operator_update e
  = (([], Ok tt),
     set_t (t e + dt e)
       (set_psi_val (split_step (U e) (g e) (dt e) vv hk pv) e)).
Proof.
  intros Hp Hv Hk Hs Hhk Hsh Hn0. unfold split_operator_update.
  assert (Hne : forall a : ndarray C, shape a = shape pv ->
                                      has_empty_axis (shape a) = false).
  { intros a Ha. rewrite Ha. now apply no_empty_axis with n. }
  assert (Hnd : forall a : ndarray C, shape a = shape pv -> (2 <= ndim a)%nat).
  { intros a Ha. unfold ndim. rewrite Ha. destruct Hsh as [-> | ->]; simpl; lia. }
  set (p1 := potential_half_step (U e) (g e) (dt e) vv pv).
  assert (Hs1 : shape p1 = shape pv) by exact Hs.
  erewrite py_bind_ok by (apply apply_H_pot_same; eassumption).
  destruct (@probe_ok (set_psi_val p1 e) p1 eq_refl (Hnd p1 Hs1)) as (a1 & Ha1).
  erewrite py_bind_ok by exact Ha1.
  erewrite py_bind_ok by (apply py_attr_some; reflexivity).
  erewrite py_bind_ok
    by (unfold py_lift, py_io, io_lift, fftn; rewrite (Hne p1 Hs1);
        reflexivity).
  erewrite py_bind_ok by reflexivity.
  erewrite py_bind_ok by (apply py_attr_some; exact Hk).
  erewrite py_bind_ok by (apply py_attr_some; reflexivity).
  erewrite py_bind_ok.
  2:{ assert (Hbs : broadcast_shapes (shape hk) (shape (dft (-1) p1))
                    = Some (shape (dft (-1) p1))).
      { change (shape (dft (-1) p1)) with (shape p1).
        rewrite Hhk, Hs1. now apply broadcast_last_axis. }
      unfold py_lift, py_io, io_lift, np_binop. rewrite Hbs. reflexivity. }
  erewrite py_bind_ok by reflexivity.
  erewrite py_bind_ok by (apply py_attr_some; reflexivity).
  erewrite py_bind_ok.
  2:{ unfold py_lift, py_io, io_lift, ifftn.
      match goal with
      | |- context [has_empty_axis ?s] =>
          replace (has_empty_axis s) with false
            by (symmetry; apply (Hne (kinetic_step hk (dft (-1) p1)) Hs1))
      end.
      reflexivity. }
  erewrite py_bind_ok by reflexivity.
  set (p4 := idft _).
  assert (Hs4 : shape p4 = shape pv) by exact Hs.
  match goal with
  | |- py_bind probe _ ?st = _ =>
      destruct (@probe_ok st p4 eq_refl (Hnd p4 Hs4)) as (a2 & Ha2)
  end.
  erewrite py_bind_ok by exact Ha2.
  erewrite py_bind_ok
    by (apply apply_H_pot_same with (pv := p4) (vv := vv);
        [reflexivity | exact Hv | reflexivity]).
  erewrite py_bind_ok by reflexivity.
  erewrite py_bind_ok by reflexivity.
  reflexivity.
Qed.

(** The sequence of one step, in two and three dimensions: on such a
    field, when the norm integral after the split step is positive, the
    whole [time_step] completes; it leaves the split-step field divided by
    the root of its norm integral, the time advanced by dt, and the norm
    integral 1. *)
Lemma time_step_sequence e pv vv hk n c :
  psi_val e = Some pv -> V_val e = Some vv -> H_kin e = Some hk ->
  shape vv = shape pv -> shape hk = [n] ->
  shape pv = [n; n] \/ shape pv = [n; n; n] -> (0 < n)%nat ->
  let p5 := split_step (U e) (g e) (dt e) vv hk pv in
  get_norm (set_t (t e + dt e) (set_psi_val p5 e)) 2.0 = ([], Ok c) ->
  0 < c ->
  exists tr e',
    time_step e = ((tr, Ok tt), e') /\
    psi_val e' = Some (np_map (fun v => Cdivr v (sqrt c)) p5) /\
    t e' = t e + dt e /\
    get_norm e' 2.0 = ([], Ok 1).
Proof.
  intros Hp Hv Hk Hs Hhk Hsh Hn0 p5 Hc Hpos.
  pose proof (@split_operator_update_ok e pv vv hk n Hp Hv Hk Hs Hhk Hsh Hn0)
    as Hu.
  fold p5 in Hu.
  destruct (@renormalize_and_measure_ok
              (set_t (t e + dt e) (set_psi_val p5 e)) p5 c eq_refl Hc)
    as (q & Hq & Hr).
  do 2 eexists. split; [|split; [|split]].
  - unfold time_step, py_bind. rewrite Hu. cbn [snd fst]. rewrite Hr.
    reflexivity.
  - reflexivity.
  - reflexivity.
  - change (get_norm (set_psi_val (np_map (fun v => Cdivr v (sqrt c)) p5)
                        (set_t (t e + dt e) (set_psi_val p5 e))) 2.0
            = ([], Ok 1)).
    rewrite (@get_norm_set_psi_val (set_t (t e + dt e) (set_psi_val p5 e))
               p5 c c eq_refl Hpos Hc).
    do 2 f_equal. field. lra.
Qed.

(** * Further properties *)

(** ** Meshes (functions.py) *)

Lemma size_pos_of_index s i : (i < size s)%nat -> (0 < size s)%nat.
Proof. lia. Qed.

Lemma ravel_lt s : forall m, Forall2 lt m s -> (ravel s m < size s)%nat.
Proof.
  intros m Hm. induction Hm as [|k n m s Hk Hm IH]; simpl.
  - lia.
  - fold (size s). nia.
Qed.

Lemma unravel_ravel s : forall m, Forall2 lt m s -> unravel s (ravel s m) = m.
Proof.
  intros m Hm. induction Hm as [|k n m s Hk Hm IH]; simpl.
  - reflexivity.
  - fold (size s). pose proof (ravel_lt Hm) as Hr.
    assert (Hs : size s <> 0%nat) by lia.
    f_equal.
    + rewrite Nat.div_add_l by exact Hs. rewrite Nat.div_small by exact Hr. lia.
    + rewrite Nat.add_comm, Nat.Div0.mod_add, Nat.mod_small by exact Hr.
      exact IH.
Qed.

Lemma item_tabulate {A} `{Dflt A} s (f : list nat -> A) m :
  Forall2 lt m s -> item (tabulate s f) m = f m.
Proof.
  intros Hm. unfold item. cbn [shape].
  rewrite nth_tabulate by (now apply ravel_lt).
  now rewrite unravel_ravel.
Qed.

Lemma tabulate_ext {A} s (f g : list nat -> A) :
  (forall m, Forall2 lt m s -> f m = g m) -> tabulate s f = tabulate s g.
Proof.
  intros Hfg. unfold tabulate. f_equal. apply map_ext_in.
  intros i Hi. apply in_seq in Hi. apply Hfg. apply unravel_bound. lia.
Qed.

Lemma Forall2_lt_app m s c k :
  Forall2 lt m s -> (c < k)%nat -> Forall2 lt (m ++ [c]) (s ++ [k]).
Proof. intros Hm Hc. apply Forall2_app; [exact Hm | repeat constructor; exact Hc]. Qed.

(** Taking component [c] of the last axis of a tabulated array. *)
Lemma getitem_last_axis_tabulate {A} `{Dflt A} s k (f : list nat -> A) c :
  (c < k)%nat ->
  getitem_axis (tabulate (s ++ [k]) f) (length s) c
  = Ok (tabulate s (fun m => f (m ++ [c]))).
Proof.
  intros Hc. unfold getitem_axis. cbn [shape tabulate].
  rewrite nth_error_app2, Nat.sub_diag by lia. cbn [nth_error].
  destruct (Nat.ltb_spec c k); [|lia].
  f_equal.
  rewrite firstn_app, Nat.sub_diag, firstn_all. cbn [firstn].
  rewrite app_nil_r.
  replace (skipn (S (length s)) (s ++ [k])) with (@nil nat)
    by (rewrite skipn_app, skipn_all2 by lia;
        replace (S (length s) - length s)%nat with 1%nat by lia; reflexivity).
  rewrite app_nil_r.
  apply tabulate_ext. intros m Hm.
  pose proof (Forall2_length Hm) as Hl.
  rewrite <- Hl, firstn_all, skipn_all.
  now rewrite item_tabulate by (apply Forall2_lt_app; assumption).
Qed.

Lemma index2_inv m a b :
  Forall2 lt m [a; b] -> exists i j, m = [i; j] /\ (i < a)%nat /\ (j < b)%nat.
Proof.
  intros Hm. inversion Hm as [|i a' m1 s1 Hi H1]; subst.
  inversion H1 as [|j b' m2 s2 Hj H2]; subst.
  inversion H2; subst. eauto.
Qed.

Lemma index3_inv m a b c :
  Forall2 lt m [a; b; c] ->
  exists i j k, m = [i; j; k] /\ (i < a)%nat /\ (j < b)%nat /\ (k < c)%nat.
Proof.
  intros Hm. inversion Hm as [|i a' m1 s1 Hi H1]; subst.
  apply index2_inv in H1 as (j & k & -> & Hj & Hk). eauto 8.
Qed.

Lemma index2_lt i j a b :
  (i < a)%nat -> (j < b)%nat -> Forall2 lt [i; j] [a; b].
Proof. repeat constructor; assumption. Qed.

Lemma index3_lt i j k a b c :
  (i < a)%nat -> (j < b)%nat -> (k < c)%nat -> Forall2 lt [i; j; k] [a; b; c].
Proof. repeat constructor; assumption. Qed.

Lemma get_meshgrid_facts (x y : ndarray R) :
  let x_mesh := fst (fst (get_meshgrid x y)) in
  let y_mesh := snd (fst (get_meshgrid x y)) in
  let pos := snd (get_meshgrid x y) in
  shape x_mesh = [length (data y); length (data x)] /\
  shape y_mesh = [length (data y); length (data x)] /\
  shape pos = [length (data y); length (data x); 2%nat] /\
  getitem_axis pos 2 0 = Ok x_mesh /\
  getitem_axis pos 2 1 = Ok y_mesh /\
  forall i j, (i < length (data y))%nat -> (j < length (data x))%nat ->
    item x_mesh [i; j] = nth j (data x) 0 /\
    item y_mesh [i; j] = nth i (data y) 0.
Proof.
  unfold get_meshgrid, meshgrid. cbn [fst snd].
  set (s := [length (data y); length (data x)]).
  split; [reflexivity|]. split; [reflexivity|]. split; [reflexivity|].
  split; [|split].
  - cbn [shape tabulate].
    rewrite (@getitem_last_axis_tabulate R _ s 2 _ 0) by lia.
    f_equal. apply tabulate_ext. intros m Hm.
    destruct (index2_inv Hm) as (i & j & -> & Hi & Hj).
    cbn [app nth Nat.eqb firstn].
    now rewrite item_tabulate by (apply index2_lt; assumption).
  - cbn [shape tabulate].
    rewrite (@getitem_last_axis_tabulate R _ s 2 _ 1) by lia.
    f_equal. apply tabulate_ext. intros m Hm.
    destruct (index2_inv Hm) as (i & j & -> & Hi & Hj).
    cbn [app nth Nat.eqb firstn].
    now rewrite item_tabulate by (apply index2_lt; assumption).
  - intros i j Hi Hj.
    rewrite !item_tabulate by (apply index2_lt; assumption). auto.
Qed.

(** X1. [get_meshgrid] returns meshes of shape (len y, len x) with
    x_mesh[i, j] = x[j] and y_mesh[i, j] = y[i], and stacks them on a
    third axis: pos[:, :, 0] is x_mesh and pos[:, :, 1] is y_mesh. *)
Theorem get_meshgrid_stacks_the_meshes (x y : ndarray R) :
  let x_mesh := fst (fst (get_meshgrid x y)) in
  let y_mesh := snd (fst (get_meshgrid x y)) in
  let pos := snd (get_meshgrid x y) in
  shape x_mesh = [length (data y); length (data x)] /\
  shape y_mesh = [length (data y); length (data x)] /\
  shape pos = [length (data y); length (data x); 2%nat] /\
  getitem_axis pos 2 0 = Ok x_mesh /\
  getitem_axis pos 2 1 = Ok y_mesh /\
  forall i j, (i < length (data y))%nat -> (j < length (data x))%nat ->
    item x_mesh [i; j] = nth j (data x) 0 /\
    item y_mesh [i; j] = nth i (data y) 0.
Proof. exact (get_meshgrid_facts x y). Qed.

(** X2. The same for three axes: the meshes have shape (len y, len x, len z),
    and pos[:, :, :, c] gives them back. *)
Theorem get_meshgrid_3d_stacks_the_meshes (x y z : ndarray R) :
  let r := get_meshgrid_3d x y z in
  let x_mesh := fst (fst (fst r)) in
  let y_mesh := snd (fst (fst r)) in
  let z_mesh := snd (fst r) in
  let pos := snd r in
  shape pos = [length (data y); length (data x); length (data z); 3%nat] /\
  getitem_axis pos 3 0 = Ok x_mesh /\
  getitem_axis pos 3 1 = Ok y_mesh /\
  getitem_axis pos 3 2 = Ok z_mesh /\
  forall i j k, (i < length (data y))%nat -> (j < length (data x))%nat ->
                (k < length (data z))%nat ->
    item x_mesh [i; j; k] = nth j (data x) 0 /\
    item y_mesh [i; j; k] = nth i (data y) 0 /\
    item z_mesh [i; j; k] = nth k (data z) 0.
Proof.
  unfold get_meshgrid_3d, meshgrid3. cbn [fst snd].
  set (s := [length (data y); length (data x); length (data z)]).
  split; [reflexivity|].
  split; [|split; [|split]].
  1-3: cbn [shape tabulate];
    rewrite (@getitem_last_axis_tabulate R _ s 3 _ _) by lia;
    f_equal; apply tabulate_ext; intros m Hm;
    destruct (index3_inv Hm) as (i & j & k & -> & Hi & Hj & Hk);
    cbn [app nth Nat.eqb firstn];
    now rewrite item_tabulate by (apply index3_lt; assumption).
  intros i j k Hi Hj Hk.
  rewrite !item_tabulate by (apply index3_lt; assumption). auto.
Qed.

Lemma item_sq a m : item (sq a) m = item a m * item a m.
Proof. unfold item. change (shape (sq a)) with (shape a). apply nth_sq. Qed.

Lemma item_np_map {A B} `{Dflt A} `{Dflt B} (f : A -> B) (a : ndarray A) m :
  wf a -> Forall2 lt m (shape a) -> item (np_map f a) m = f (item a m).
Proof.
  intros Hwf Hm. unfold item. cbn [shape np_map].
  apply nth_np_map. rewrite Hwf. now apply ravel_lt.
Qed.

Lemma item_zip_nd {A B D} `{Dflt A} `{Dflt B} `{Dflt D}
    (f : A -> B -> D) (a : ndarray A) (b : ndarray B) m :
  shape b = shape a -> Forall2 lt m (shape a) ->
  item (zip_nd f a b) m = f (item a m) (item b m).
Proof.
  intros Hs Hm. unfold zip_nd. rewrite item_tabulate by exact Hm.
  rewrite Hs, bidx_id by exact Hm. reflexivity.
Qed.

Lemma wf_zip_nd {A B D} `{Dflt A} `{Dflt B}
    (f : A -> B -> D) (a : ndarray A) (b : ndarray B) : wf (zip_nd f a b).
Proof. apply wf_tabulate. Qed.

(** X3. On the stacked meshgrid of [get_meshgrid] the 2-D trap returns
    (1/2) (x[j]^2 + y[i]^2) at [i, j], whatever [alpha_y] is, and the 2-D
    Thomas-Fermi initializer returns None at g = 0 and, for g > 0, the
    profile (2 mu - r^2) / (2 g) of r^2 = x[j]^2 + y[i]^2 with
    mu = sqrt(g / pi). *)
Theorem initializers_2d_on_meshgrid (x y : ndarray R) (alpha_y g : R) :
  let pos := snd (get_meshgrid x y) in
  (exists v,
     v_harmonic_2d pos alpha_y = Ok v /\
     shape v = [length (data y); length (data x)] /\
     forall i j, (i < length (data y))%nat -> (j < length (data x))%nat ->
       item v [i; j]
       = 0.5 * (nth j (data x) 0 * nth j (data x) 0
                + nth i (data y) 0 * nth i (data y) 0)) /\
  thomas_fermi_2d_pos pos 0 = Ok None /\
  (0 < g ->
   exists p,
     thomas_fermi_2d_pos pos g = Ok (Some p) /\
     shape p = [length (data y); length (data x)] /\
     forall i j, (i < length (data y))%nat -> (j < length (data x))%nat ->
       let r2 := nth j (data x) 0 * nth j (data x) 0
                 + nth i (data y) 0 * nth i (data y) 0 in
       item p [i; j] = tf_profile 2 g r2 /\
       item p [i; j] = (2 * sqrt (g / PI) - r2) / (2 * g)).
Proof.
  intros pos.
  destruct (get_meshgrid_facts x y) as (Hsx & Hsy & _ & Hgx & Hgy & Hent).
  fold pos in Hgx, Hgy.
  set (xm := fst (fst (get_meshgrid x y))) in *.
  set (ym := snd (fst (get_meshgrid x y))) in *.
  assert (Hs : shape ym = shape xm) by congruence.
  split; [|split].
  - unfold v_harmonic_2d. rewrite Hgx, Hgy. cbn [rbind]. unfold v_2d.
    rewrite np_binop_same by exact Hs. cbn [rbind].
    eexists. split; [reflexivity|]. split; [exact Hsx|].
    intros i j Hi Hj.
    assert (Hm : Forall2 lt [i; j] (shape xm))
      by (rewrite Hsx; now apply index2_lt).
    rewrite item_np_map by (apply wf_zip_nd || exact Hm).
    rewrite item_zip_nd by (exact Hs || exact Hm).
    rewrite !item_sq. destruct (Hent i j Hi Hj) as [-> ->]. reflexivity.
  - unfold thomas_fermi_2d_pos. rewrite Hgx, Hgy. cbn [rbind].
    unfold thomas_fermi_2d. destruct (Req_dec_T 0 0); [reflexivity | contradiction].
  - intros Hg. unfold thomas_fermi_2d_pos. rewrite Hgx, Hgy. cbn [rbind].
    unfold thomas_fermi_2d. destruct (Req_dec_T g 0); [lra|].
    rewrite np_binop_same by exact Hs. cbn [rbind].
    eexists. split; [reflexivity|]. split; [exact Hsx|].
    intros i j Hi Hj.
    assert (Hm : Forall2 lt [i; j] (shape xm))
      by (rewrite Hsx; now apply index2_lt).
    rewrite item_np_map by (apply wf_zip_nd || exact Hm).
    rewrite item_zip_nd by (exact Hs || exact Hm).
    rewrite !item_sq. destruct (Hent i j Hi Hj) as [-> ->].
    rewrite mu_2d_tf. cbv zeta.
    split; [reflexivity|].
    change (tf_profile 2 g (nth j (data x) 0 * nth j (data x) 0
                            + nth i (data y) 0 * nth i (data y) 0)
            = (2 * tf_mu 2 g
               - (nth j (data x) 0 * nth j (data x) 0
                  + nth i (data y) 0 * nth i (data y) 0)) / (2 * g)).
    now apply tf_profile_value.
Qed.

(** X4. The 2-D initializers index the third axis of [pos] first: on an
    array with fewer than three axes, or whose third axis has fewer than
    two entries, both raise IndexError, the Thomas-Fermi one also at
    g = 0. *)
Theorem initializers_2d_need_stacked_positions (pos : ndarray R) (alpha_y g : R) :
  (ndim pos < 3)%nat \/ (nth 2 (shape pos) 0 < 2)%nat ->
  v_harmonic_2d pos alpha_y = Raise IndexError /\
  thomas_fermi_2d_pos pos g = Raise IndexError.
Proof.
  intros Hp. unfold v_harmonic_2d, thomas_fermi_2d_pos, getitem_axis, ndim in *.
  destruct (nth_error (shape pos) 2) as [n|] eqn:En.
  - assert (Hn : nth 2 (shape pos) 0%nat = n) by (now apply nth_error_nth).
    assert (Hl : (2 < length (shape pos))%nat)
      by (apply nth_error_Some; congruence).
    destruct Hp as [Hp | Hp]; [lia|]. rewrite Hn in Hp.
    destruct (Nat.ltb_spec 0 n); cbn [rbind];
      [destruct (Nat.ltb_spec 1 n); [lia | auto] | auto].
  - auto.
Qed.

Lemma initializers_2d_need_stacked_positions_witness :
  v_harmonic_2d (mk_nd [2%nat] [0; 1]) 1 = Raise IndexError /\
  thomas_fermi_2d_pos (mk_nd [2%nat] [0; 1]) 0 = Raise IndexError.
Proof.
  apply (@initializers_2d_need_stacked_positions (mk_nd [2%nat] [0; 1]) 1 0).
  left. cbn. lia.
Defined.

(** ** Thomas-Fermi profiles and chemical potentials (functions.py) *)

Lemma thomas_fermi_entries (x y z : ndarray R) (g : R) :
  wf x -> shape y = shape x -> shape z = shape x -> 0 < g ->
  exists p1 p2 p3,
    thomas_fermi_1d x g = Some p1 /\
    thomas_fermi_2d x y g = Ok (Some p2) /\
    thomas_fermi_3d x y z g = Ok (Some p3) /\
    forall i, (i < size (shape x))%nat ->
      nth i (data p1) 0
      = tf_profile 1 g (nth i (data x) 0 * nth i (data x) 0) /\
      nth i (data p2) 0
      = tf_profile 2 g (nth i (data x) 0 * nth i (data x) 0
                        + nth i (data y) 0 * nth i (data y) 0) /\
      nth i (data p3) 0
      = tf_profile 3 g (nth i (data x) 0 * nth i (data x) 0
                        + nth i (data y) 0 * nth i (data y) 0
                        + nth i (data z) 0 * nth i (data z) 0).
Proof.
  intros Hwf Hy Hz Hg. unfold thomas_fermi_1d, thomas_fermi_2d, thomas_fermi_3d.
  destruct (Req_dec_T g 0) as [E|_]; [lra|].
  rewrite (np_binop_same Rplus (sq x) (sq y)) by exact Hy. cbn [rbind].
  rewrite (np_binop_same Rplus _ (sq z)) by exact Hz. cbn [rbind].
  do 3 eexists. do 3 (split; [reflexivity|]).
  intros i Hi.
  rewrite (@nth_np_map _ _ _ (sq x) i 0 0)
    by (unfold sq, np_map; simpl; rewrite length_map, Hwf; exact Hi).
  rewrite (@nth_np_map _ _ _ (zip_nd Rplus (sq x) (sq y)) i 0 0)
    by (unfold zip_nd; rewrite (wf_tabulate _ _); exact Hi).
  rewrite (@nth_np_map _ _ _ (zip_nd Rplus (zip_nd Rplus (sq x) (sq y)) (sq z)) i 0 0)
    by (unfold zip_nd; rewrite (wf_tabulate _ _); exact Hi).
  rewrite !nth_zip_nd by (simpl; auto).
  unfold dflt, Dflt_R. rewrite !nth_sq.
  rewrite (mu_1d_tf Hg), mu_2d_tf, (mu_3d_tf Hg). unfold tf_profile. auto.
Qed.

(** X5. For a repulsive gas (g > 0) the chemical potentials are positive
    and the 3-D Thomas-Fermi profile at a point of squared radius r^2 is
    (2 mu - r^2) / (2 g): mu / g at the origin, zero at r^2 = 2 mu, and
    negative beyond it, where the code does not clip it to zero. *)
Theorem thomas_fermi_3d_is_not_clipped (x y z : ndarray R) (g : R) :
  wf x -> shape y = shape x -> shape z = shape x -> 0 < g ->
  0 < mu_1d g /\ 0 < mu_2d g /\ 0 < mu_3d g /\
  exists p3,
    thomas_fermi_3d x y z g = Ok (Some p3) /\
    forall i, (i < size (shape x))%nat ->
      let r2 := nth i (data x) 0 * nth i (data x) 0
                + nth i (data y) 0 * nth i (data y) 0
                + nth i (data z) 0 * nth i (data z) 0 in
      nth i (data p3) 0 = (2 * mu_3d g - r2) / (2 * g) /\
      (r2 = 0 -> nth i (data p3) 0 = mu_3d g / g) /\
      (r2 = 2 * mu_3d g -> nth i (data p3) 0 = 0) /\
      (2 * mu_3d g < r2 -> nth i (data p3) 0 < 0).
Proof.
  intros Hwf Hy Hz Hg.
  rewrite (mu_1d_tf Hg), mu_2d_tf, (mu_3d_tf Hg).
  do 3 (split; [now apply tf_mu_positive|]).
  destruct (@thomas_fermi_entries x y z g Hwf Hy Hz Hg)
    as (p1 & p2 & p3 & _ & _ & H3 & Hv).
  exists p3. split; [exact H3|].
  intros i Hi r2. destruct (Hv i Hi) as (_ & _ & ->). fold r2.
  rewrite tf_profile_value by exact Hg.
  pose proof (tf_mu_positive 3 Hg) as Hmu.
  split; [reflexivity|]. split; [|split].
  - intros ->. field. lra.
  - intros ->. field. lra.
  - intros Hr. apply Rmult_lt_reg_r with (2 * g); [lra|].
    unfold Rdiv. rewrite Rmult_assoc, Rinv_l by lra. lra.
Qed.

Lemma thomas_fermi_3d_is_not_clipped_witness :
  exists p3,
    thomas_fermi_3d (mk_nd [1%nat] [0]) (mk_nd [1%nat] [0])
                    (mk_nd [1%nat] [0]) 1 = Ok (Some p3) /\
    nth 0 (data p3) 0 = mu_3d 1 / 1.
Proof.
  destruct (@thomas_fermi_3d_is_not_clipped
              (mk_nd [1%nat] [0]) (mk_nd [1%nat] [0]) (mk_nd [1%nat] [0]) 1
              eq_refl eq_refl eq_refl ltac:(lra))
    as (_ & _ & _ & p3 & H3 & Hv).
  exists p3. split; [exact H3|].
  destruct (Hv 0%nat) as (_ & H0 & _); [cbn; lia|].
  apply H0. cbn. lra.
Defined.

(** X6. The closed forms invert to the coupling constant: for g > 0,
    mu_1d(g)^(3/2) = 3 g / (4 sqrt 2), pi mu_2d(g)^2 = g and
    mu_3d(g)^(5/2) = 15 g / (16 sqrt 2 pi); each is strictly increasing
    in g. *)
Theorem chemical_potentials_invert (g g' : R) :
  0 < g -> g < g' ->
  Rpower (mu_1d g) (3 / 2) = 3 * g / (4 * sqrt 2) /\
  PI * (mu_2d g * mu_2d g) = g /\
  Rpower (mu_3d g) (5 / 2) = 15 * g / (16 * sqrt 2 * PI) /\
  mu_1d g < mu_1d g' /\ mu_2d g < mu_2d g' /\ mu_3d g < mu_3d g'.
Proof.
  intros Hg Hgg'.
  assert (Hg' : 0 < g') by lra.
  pose proof sqrt2_pos as H2. pose proof PI_RGT_0 as Hpi.
  rewrite (mu_1d_tf Hg), (mu_1d_tf Hg'), (mu_3d_tf Hg), (mu_3d_tf Hg').
  unfold mu_2d, tf_mu.
  rewrite !Rpower_mult.
  replace (2 / 3 * (3 / 2)) with 1 by lra.
  replace (2 / 5 * (5 / 2)) with 1 by lra.
  rewrite !Rpower_1 by (now apply tf_base_1_pos || now apply tf_base_3_pos).
  split; [reflexivity|]. split; [|split; [reflexivity|]].
  - rewrite sqrt_sqrt by (apply Rlt_le, Rdiv_lt_0_compat; assumption).
    field. lra.
  - split; [|split].
    + apply Rlt_Rpower_l; [lra|]. split; [now apply tf_base_1_pos|].
      apply Rmult_lt_compat_r; [apply Rinv_0_lt_compat; nra | lra].
    + apply sqrt_lt_1.
      * apply Rlt_le, Rdiv_lt_0_compat; assumption.
      * apply Rlt_le, Rdiv_lt_0_compat; assumption.
      * apply Rmult_lt_compat_r; [now apply Rinv_0_lt_compat | exact Hgg'].
    + apply Rlt_Rpower_l; [lra|]. split; [now apply tf_base_3_pos|].
      apply Rmult_lt_compat_r; [|lra].
      apply Rinv_0_lt_compat. apply Rmult_lt_0_compat; lra.
Qed.

Lemma chemical_potentials_invert_witness :
  PI * (mu_2d 1 * mu_2d 1) = 1 /\ mu_3d 1 < mu_3d 2.
Proof.
  destruct (@chemical_potentials_invert 1 2 ltac:(lra) ltac:(lra))
    as (_ & H2 & _ & _ & _ & H3).
  split; [exact H2 | exact H3].
Defined.

(** ** The range of the dipolar kernel (functions.py) *)

Lemma dipol_value_range a b c :
  exists r, dipol_value a b c = Finite r /\ -1 <= r <= 2 /\
            (c = 0 -> r = -1) /\
            (a = 0 -> b = 0 -> c <> 0 -> r = 2).
Proof.
  unfold dipol_value.
  destruct (Req_dec_T (a * a + b * b + c * c) 0) as [E|E].
  - exists (-1). split; [reflexivity|]. split; [lra|]. split; [auto|].
    intros -> -> Hc. exfalso. apply Hc.
    apply sum_squares_zero in E. tauto.
  - set (k2 := a * a + b * b + c * c) in *.
    assert (Hk : 0 < k2) by (unfold k2 in *; nra).
    eexists. split; [reflexivity|].
    assert (Hq : 0 <= 3 * (c * c) / k2 <= 3).
    { split.
      - apply Rmult_le_pos; [nra | apply Rlt_le, Rinv_0_lt_compat; exact Hk].
      - apply Rmult_le_reg_r with k2; [exact Hk|].
        unfold Rdiv. rewrite Rmult_assoc, Rinv_l by lra. unfold k2. nra. }
    split; [lra|]. split.
    + intros ->. unfold Rdiv. rewrite !Rmult_0_r, Rmult_0_l. lra.
    + intros Ha Hb Hc. unfold k2. rewrite Ha, Hb. field. exact Hc.
Qed.

(** X7. On meshes of one shape with at least one axis every entry of the
    dipolar kernel is a finite number between -1 and 2: -1 wherever
    kz = 0 (the plane across the dipoles), 2 on the kz axis away from the
    origin. *)
Theorem dipol_kernel_range (kx ky kz : ndarray R) :
  shape ky = shape kx -> shape kz = shape kx -> shape kx <> [] ->
  exists Vk,
    dipol_dipol_interaction kx ky kz = Ok Vk /\
    forall i, (i < size (shape kx))%nat ->
      exists r,
        nth i (data Vk) dflt = Finite r /\ -1 <= r <= 2 /\
        (nth i (data kz) 0 = 0 -> r = -1) /\
        (nth i (data kx) 0 = 0 -> nth i (data ky) 0 = 0 ->
         nth i (data kz) 0 <> 0 -> r = 2).
Proof.
  intros Hy Hz Hne.
  destruct (dipol_V_k_val_same kx ky kz Hy Hz) as (Vk & HV & _ & _ & Hval).
  exists Vk. split; [now apply dipol_mask_noop|].
  intros i Hi. rewrite (Hval i Hi). apply dipol_value_range.
Qed.

Lemma dipol_kernel_range_witness :
  exists Vk,
    dipol_dipol_interaction (mk_nd [1%nat] [0]) (mk_nd [1%nat] [0])
                            (mk_nd [1%nat] [1]) = Ok Vk /\
    nth 0 (data Vk) dflt = Finite 2.
Proof.
  destruct (@dipol_kernel_range (mk_nd [1%nat] [0]) (mk_nd [1%nat] [0])
              (mk_nd [1%nat] [1]) eq_refl eq_refl ltac:(discriminate))
    as (Vk & HV & Hr).
  exists Vk. split; [exact HV|].
  destruct (Hr 0%nat) as (r & Hf & _ & _ & H2); [cbn; lia|].
  rewrite Hf. f_equal. apply H2; cbn; lra.
Defined.

(** ** Gaussian packets (functions.py) *)

Lemma gauss_prefactor_squared a : 0 < a ->
  float_pow (a * sqrt PI) (-0.5) * float_pow (a * sqrt PI) (-0.5)
  = / (a * sqrt PI).
Proof.
  intros Ha.
  assert (Hb : 0 < a * sqrt PI)
    by (apply Rmult_lt_0_compat; [exact Ha | apply sqrt_lt_R0, PI_RGT_0]).
  rewrite float_pow_fractional
    by (exact Hb || (apply (@not_integer_between _ (-1)%Z); lra)).
  rewrite <- Rpower_plus. replace (-0.5 + -0.5) with (- (1)) by lra.
  rewrite Rpower_Ropp, Rpower_1 by exact Hb. reflexivity.
Qed.

Lemma density_gauss c r im :
  density (Cscal c (Cexp (Cadd (RtoC r) (Cscal im Ci))))
  = c * c * exp (2 * r).
Proof.
  unfold density, Cscal, Cexp, Cadd, RtoC, Ci. cbn [fst snd].
  replace (r + im * 0) with r by lra. replace (0 + im * 1) with im by lra.
  replace (2 * r) with (r + r) by lra. rewrite exp_plus.
  pose proof (sin2_cos2 im) as Hsc. unfold Rsqr in Hsc.
  transitivity (c * c * (exp r * exp r) * (sin im * sin im + cos im * cos im));
    [ring | rewrite Hsc; ring].
Qed.

Lemma exp_over b A B : A = B -> / b * exp A = exp B / b.
Proof. intros ->. unfold Rdiv. ring. Qed.

(** X8. For a width a > 0 the density |psi|^2 of the Gaussian packets is
    exp(-((x - x_0)/a)^2) / (a sqrt pi) in one dimension and
    exp(-(dx^2 + dy^2 + dz^2)/a^2) / (a sqrt pi) in three, with the same
    prefactor in both: the momentum k_0 does not enter. *)
Theorem gauss_packet_density (x y z : ndarray R) (a x_0 y_0 z_0 k_0 : R) :
  0 < a -> wf x -> wf y -> wf z -> shape y = shape x -> shape z = shape x ->
  exists p3,
    psi_gauss_3d x y z a x_0 y_0 z_0 k_0 = Ok p3 /\
    shape p3 = shape x /\
    forall i, (i < size (shape x))%nat ->
      let dx := nth i (data x) 0 - x_0 in
      let dy := nth i (data y) 0 - y_0 in
      let dz := nth i (data z) 0 - z_0 in
      density (nth i (data (psi_gauss_1d x a x_0 k_0)) dflt)
      = exp (- ((dx / a) * (dx / a))) / (a * sqrt PI) /\
      density (nth i (data p3) dflt)
      = exp (- ((dx * dx + dy * dy + dz * dz) / (a * a))) / (a * sqrt PI).
Proof.
  intros Ha Hwf Hwy Hwz Hy Hz. unfold psi_gauss_3d.
  rewrite (np_binop_same Rplus _ _) by exact Hy. cbn [rbind].
  rewrite (np_binop_same Rplus _ _) by exact Hz. cbn [rbind].
  rewrite np_binop_same by reflexivity. cbn [rbind].
  eexists. split; [reflexivity|]. split; [reflexivity|].
  intros i Hi.
  assert (Hix : (i < length (data x))%nat) by (rewrite Hwf; exact Hi).
  split.
  - unfold psi_gauss_1d.
    rewrite (@nth_np_map _ _ _ x i 0 dflt) by exact Hix.
    rewrite density_gauss, gauss_prefactor_squared by exact Ha.
    rewrite float_pow_sq by reflexivity.
    apply exp_over. replace (-0.5) with (- / 2) by lra.
    replace 1.0 with 1 by lra. field. lra.
  - set (w := zip_nd _ _ _).
    rewrite (@nth_np_map _ _ _ w i dflt dflt)
      by (unfold w, zip_nd; rewrite (wf_tabulate _ _); exact Hi).
    unfold w. rewrite nth_zip_nd by (reflexivity || exact Hi).
    set (r2 := zip_nd Rplus (zip_nd Rplus _ _) _).
    rewrite (@nth_np_map _ _ _ r2 i 0 dflt)
      by (unfold r2, zip_nd; rewrite (wf_tabulate _ _); exact Hi).
    rewrite (@nth_np_map _ _ _ x i 0 dflt) by exact Hix.
    rewrite density_gauss, gauss_prefactor_squared by exact Ha.
    unfold r2. rewrite !nth_zip_nd by (simpl; auto).
    unfold dflt, Dflt_R. rewrite !nth_sq.
    rewrite (@nth_np_map _ _ (fun v => (v - x_0) * 1.0) x i 0 0) by exact Hix.
    rewrite (@nth_np_map _ _ (fun v => (v - y_0) * 1.0) y i 0 0)
      by (rewrite Hwy, Hy; exact Hi).
    rewrite (@nth_np_map _ _ (fun v => (v - z_0) * 1.0) z i 0 0)
      by (rewrite Hwz, Hz; exact Hi).
    rewrite float_pow_sq by reflexivity.
    apply exp_over. replace (-0.5) with (- / 2) by lra.
    replace 1.0 with 1 by lra. field. lra.
Qed.

Lemma gauss_packet_density_witness :
  density (nth 0 (data (psi_gauss_1d (mk_nd [1%nat] [2]) 1 0 3)) dflt)
  = exp (- (((2 - 0) / 1) * ((2 - 0) / 1))) / (1 * sqrt PI).
Proof.
  destruct (@gauss_packet_density
              (mk_nd [1%nat] [2]) (mk_nd [1%nat] [2]) (mk_nd [1%nat] [2])
              1 0 0 0 3 ltac:(lra) eq_refl eq_refl eq_refl eq_refl eq_refl)
    as (p3 & _ & _ & H).
  apply (H 0%nat). cbn. lia.
Defined.

(** X9. [psi_gauss_solution] is the density of the one-dimensional packet
    of width 1 centred at 0, for every momentum k_0. Its entries lie
    between 0 (excluded) and 1/sqrt(pi), which it reaches at x = 0. *)
Theorem psi_gauss_solution_is_the_unit_packet_density (x : ndarray R) (k_0 : R) :
  shape (psi_gauss_solution x) = shape x /\
  forall i, (i < length (data x))%nat ->
    let v := nth i (data (psi_gauss_solution x)) 0 in
    v = density (nth i (data (psi_gauss_1d x 1 0 k_0)) dflt) /\
    0 < v <= / sqrt PI /\
    (nth i (data x) 0 = 0 -> v = / sqrt PI).
Proof.
  split; [reflexivity|]. intros i Hi v. unfold v, psi_gauss_solution, psi_gauss_1d.
  rewrite (@nth_np_map _ _ _ x i 0 0) by exact Hi.
  rewrite (@nth_np_map _ _ _ x i 0 dflt) by exact Hi.
  set (t := nth i (data x) 0).
  rewrite density_gauss, gauss_prefactor_squared by lra.
  rewrite !float_pow_sq by reflexivity.
  assert (Hs : 0 < sqrt PI) by (apply sqrt_lt_R0, PI_RGT_0).
  assert (Hle : exp (- (t * t)) <= 1).
  { rewrite <- exp_0. destruct (Req_dec_T t 0) as [->|Ht].
    - right. f_equal. lra.
    - left. apply exp_increasing. nra. }
  pose proof (exp_pos (- (t * t))) as Hpos.
  pose proof (Rinv_0_lt_compat _ Hs) as Hinv.
  split; [|split].
  - rewrite Rmult_1_l. unfold Rdiv. rewrite Rmult_comm. f_equal. f_equal.
    replace (-0.5) with (- / 2) by lra. field.
  - unfold Rdiv. split; [now apply Rmult_lt_0_compat|]. nra.
  - intros ->. replace (- (0 * 0)) with 0 by lra. rewrite exp_0.
    unfold Rdiv. lra.
Qed.

(** ** The rectangular pulse (functions.py) *)

Lemma psi_rect_entry x_min x_max a v :
  let f := (if Rlt_dec v x_min then 0
            else if Rlt_dec v x_max then a
            else if Rlt_dec x_max v then 0 else 0) in
  (x_min <= v < x_max -> f = a) /\ (~ (x_min <= v < x_max) -> f = 0).
Proof.
  cbv zeta. destruct (Rlt_dec v x_min), (Rlt_dec v x_max), (Rlt_dec x_max v);
    split; intros; try reflexivity; lra.
Qed.

(** X10. [psi_rect] returns the pulse, a on the samples with
    x_min <= x < x_max and 0 elsewhere (also at x = x_max), unless the
    pulse is zero everywhere: when a = 0 or no sample falls in the
    interval, in particular when x_max <= x_min, it raises
    AssertionError. *)
Theorem psi_rect_pulse_or_assertion (x : ndarray R) (x_min x_max a : R) :
  (psi_rect x x_min x_max a = AssertionError psi_rect_msg <->
   a = 0 \/ forall v, In v (data x) -> ~ (x_min <= v < x_max)) /\
  (forall p, psi_rect x x_min x_max a = Asserted p ->
     shape p = shape x /\
     forall i, (i < length (data x))%nat ->
       (x_min <= nth i (data x) 0 < x_max -> nth i (data p) 0 = a) /\
       (~ (x_min <= nth i (data x) 0 < x_max) -> nth i (data p) 0 = 0)) /\
  (x_max <= x_min -> psi_rect x x_min x_max a = AssertionError psi_rect_msg).
Proof.
  unfold psi_rect.
  set (f := fun v => if Rlt_dec v x_min then 0
                     else if Rlt_dec v x_max then a
                     else if Rlt_dec x_max v then 0 else 0).
  assert (Hany : np_any (np_map f x) = false <->
                 a = 0 \/ forall v, In v (data x) -> ~ (x_min <= v < x_max)).
  { unfold np_any, np_map. cbn [data]. split.
    - intros Hf. destruct (Req_dec_T a 0) as [Ha|Ha]; [now left|right].
      intros v Hv Hin.
      assert (Hex : existsb (fun w => if Req_dec_T w 0 then false else true)
                            (map f (data x)) = true).
      { apply existsb_exists. exists (f v). split; [now apply in_map|].
        destruct (psi_rect_entry x_min x_max a v) as [Hin' _].
        unfold f. rewrite (Hin' Hin).
        destruct (Req_dec_T a 0); [contradiction | reflexivity]. }
      congruence.
    - intros H. apply not_true_is_false. intros Hex.
      apply existsb_exists in Hex. destruct Hex as (w & Hw & Hnz).
      apply in_map_iff in Hw. destruct Hw as (v & <- & Hv).
      destruct (psi_rect_entry x_min x_max a v) as [Hin Hout].
      destruct (Req_dec_T (f v) 0) as [_|Hne]; [discriminate|].
      apply Hne. destruct H as [Ha | H].
      + destruct (Rle_lt_dec x_min v) as [H1|H1].
        * destruct (Rlt_le_dec v x_max) as [H2|H2].
          -- unfold f. cbv zeta in Hin. rewrite Hin by lra. exact Ha.
          -- unfold f. apply Hout. lra.
        * unfold f. apply Hout. lra.
      + unfold f. apply Hout. now apply H. }
  split; [|split].
  - destruct (np_any (np_map f x)) eqn:E.
    + split; [discriminate|]. intros H. apply Hany in H. congruence.
    + split; [intros _; now apply Hany | reflexivity].
  - intros p Hp. destruct (np_any (np_map f x)); [|discriminate].
    injection Hp as <-. split; [reflexivity|].
    intros i Hi. rewrite (@nth_np_map _ _ f x i 0 0) by exact Hi.
    apply psi_rect_entry.
  - intros Hle.
    assert (Hf : np_any (np_map f x) = false)
      by (apply Hany; right; intros v _; lra).
    now rewrite Hf.
Qed.

(** ** Trap frequencies and coupling constants (functions.py) *)

(** X11. [get_alphas] raises ZeroDivisionError exactly when w_x = 0.
    Otherwise its ratios give back the frequencies, equal frequencies give
    (1, 1), and the 3-D trap built with them is, times w_x^2, the trap
    (1/2) ((w_x x)^2 + (w_y y)^2 + (w_z z)^2). *)
Theorem get_alphas_ratios (w_x w_y w_z : R) (x y z : ndarray R) :
  (w_x = 0 -> get_alphas w_x w_y w_z = Raise ZeroDivisionError) /\
  (w_x <> 0 ->
   get_alphas w_x w_x w_x = Ok (1, 1) /\
   exists alpha_y alpha_z,
     get_alphas w_x w_y w_z = Ok (alpha_y, alpha_z) /\
     alpha_y * w_x = w_y /\ alpha_z * w_x = w_z /\
     (shape y = shape x -> shape z = shape x ->
      exists v,
        v_harmonic_3d x y z alpha_y alpha_z = Ok v /\
        forall i, (i < size (shape x))%nat ->
          w_x * w_x * nth i (data v) 0
          = 0.5 * ((w_x * nth i (data x) 0) * (w_x * nth i (data x) 0)
                   + (w_y * nth i (data y) 0) * (w_y * nth i (data y) 0)
                   + (w_z * nth i (data z) 0) * (w_z * nth i (data z) 0)))).
Proof.
  unfold get_alphas, py_div. split.
  - intros ->. destruct (Req_dec_T 0 0); [reflexivity | contradiction].
  - intros Hw. destruct (Req_dec_T w_x 0); [contradiction|]. cbn [rbind].
    split; [do 2 f_equal; field; exact Hw|].
    do 2 eexists. split; [reflexivity|].
    split; [field; exact Hw|]. split; [field; exact Hw|].
    intros Hy Hz.
    destruct (v_harmonic_3d_entries x y z (w_y / w_x) (w_z / w_x) Hy Hz)
      as (v & Hv & _ & Hent).
    exists v. split; [exact Hv|]. intros i Hi. rewrite (Hent i Hi).
    field. exact Hw.
Qed.

(** X12. [get_parameters] raises ZeroDivisionError when m w_x = 0 or
    a_s = 0. For hbar / (m w_x) > 0, a_s > 0 and N >= 0 it returns, with
    the oscillator length l_ho = sqrt(hbar / (m w_x)) > 0, the contact
    coupling g = 4 pi (a_s / l_ho) N, which is linear in N, the ratio
    epsilon_dd with epsilon_dd a_s = a_dd, and for N > 0 the coupling
    g_qf = 32 / (3 sqrt pi) 4 pi (a_s / l_ho)^(5/2) N^(3/2)
           (1 + (3/2) epsilon_dd^2). *)
Theorem get_parameters_couplings (hbar N m a_s a_dd w_x : R) :
  (m * w_x = 0 \/ a_s = 0 ->
   get_parameters hbar N m a_s a_dd w_x = Raise ZeroDivisionError) /\
  (0 < hbar / (m * w_x) -> 0 < a_s -> 0 <= N ->
   let l_ho := sqrt (hbar / (m * w_x)) in
   exists g g_qf epsilon_dd,
     get_parameters hbar N m a_s a_dd w_x = Ok (g, g_qf, epsilon_dd) /\
     0 < l_ho /\
     g = 4 * PI * (a_s / l_ho) * N /\
     epsilon_dd * a_s = a_dd /\
     (0 < N ->
      g_qf = 32 / (3 * sqrt PI) * 4 * PI * Rpower (a_s / l_ho) (5 / 2)
             * Rpower N (3 / 2) * (1 + 3 / 2 * (epsilon_dd * epsilon_dd))) /\
     forall c, 0 <= c ->
       exists g2 g_qf2,
         get_parameters hbar (c * N) m a_s a_dd w_x
         = Ok (g2, g_qf2, epsilon_dd) /\ g2 = c * g).
Proof.
  split.
  - unfold get_parameters, g_qf_helper, get_l_ho, py_div. intros [H | H].
    + destruct (Req_dec_T (m * w_x) 0); [reflexivity | contradiction].
    + destruct (Req_dec_T (m * w_x) 0); [reflexivity|]. cbn [rbind].
      destruct (Req_dec_T a_s 0); [reflexivity | contradiction].
  - intros Hq Ha HN l_ho.
    assert (Hl : 0 < l_ho) by (now apply sqrt_lt_R0).
    unfold get_parameters, g_qf_helper, get_l_ho, py_div.
    destruct (Req_dec_T (m * w_x) 0) as [E|_].
    { rewrite E in Hq. unfold Rdiv in Hq. rewrite Rinv_0, Rmult_0_r in Hq.
      lra. }
    cbn [rbind].
    destruct (Req_dec_T a_s 0); [lra|]. cbn [rbind fst snd].
    fold l_ho.
    do 3 eexists. split; [reflexivity|]. split; [exact Hl|].
    split; [unfold get_g; replace 4.0 with 4 by lra; reflexivity|].
    split; [field; lra|]. split.
    + intros HN0. unfold get_g_qf.
      assert (Hr : 0 < a_s / l_ho) by (now apply Rdiv_lt_0_compat).
      replace (5.0 / 2.0) with (5 / 2) by lra.
      replace (3.0 / 2.0) with (3 / 2) by lra.
      rewrite (@float_pow_fractional (a_s / l_ho) (5 / 2) Hr)
        by (apply (@not_integer_between _ 2%Z); lra).
      rewrite (@float_pow_fractional N (3 / 2) HN0)
        by (apply (@not_integer_between _ 1%Z); lra).
      rewrite (@float_pow_sq (a_dd / a_s) 2.0) by lra.
      replace 32.0 with 32 by lra. replace 3.0 with 3 by lra.
      replace 4.0 with 4 by lra. replace 1.0 with 1 by lra.
      reflexivity.
    + intros c Hc. do 2 eexists. split; [reflexivity|]. unfold get_g. ring.
Qed.

(** ** Noise (functions.py) *)

(** X13. For min < max and samples of [0, 1), [noise_mesh] has the shape
    of the samples and every entry lies in [min, max): min is reached,
    max is not. *)
Theorem noise_mesh_range (min max : R) (rand : ndarray R) :
  min < max ->
  (forall u, In u (data rand) -> 0 <= u < 1) ->
  shape (noise_mesh min max rand) = shape rand /\
  length (data (noise_mesh min max rand)) = length (data rand) /\
  (forall v, In v (data (noise_mesh min max rand)) -> min <= v < max) /\
  (forall i, (i < length (data rand))%nat -> nth i (data rand) 0 = 0 ->
     nth i (data (noise_mesh min max rand)) 0 = min).
Proof.
  intros Hmm Hu. unfold noise_mesh.
  split; [reflexivity|]. split; [apply length_map|]. split.
  - intros v Hv. cbn [data np_map] in Hv. apply in_map_iff in Hv.
    destruct Hv as (u & <- & Hin). specialize (Hu u Hin). nra.
  - intros i Hi H0. rewrite (@nth_np_map _ _ _ rand i 0 0) by exact Hi.
    rewrite H0. lra.
Qed.

Lemma noise_mesh_range_witness :
  0.8 < 1.2 /\
  shape (noise_mesh 0.8 1.2 (mk_nd [2%nat] [0; 0.5])) = [2%nat] /\
  nth 0 (data (noise_mesh 0.8 1.2 (mk_nd [2%nat] [0; 0.5]))) 0 = 0.8.
Proof.
  destruct (@noise_mesh_range 0.8 1.2 (mk_nd [2%nat] [0; 0.5]))
    as (Hs & _ & _ & H0).
  - lra.
  - intros u [<- | [<- | []]]; lra.
  - split; [lra|]. split; [exact Hs|].
    apply H0; [cbn [data length]; lia | reflexivity].
Defined.

(** ** Construction, continued (Schroedinger.__init__) *)

Lemma py_div_ok_inv a b q : py_div a b = Ok q -> b <> 0 /\ q = a / b.
Proof.
  unfold py_div. destruct (Req_dec_T b 0); [discriminate|].
  intros H. injection H as <-. auto.
Qed.

Lemma linspace_ok_inv s e n a : linspace s e n = Ok a ->
  (0 <= n)%Z /\ a = mk_nd [Z.to_nat n] (linspace_samples s e n).
Proof.
  unfold linspace. destruct (Z.ltb_spec n 0) as [Hlt|Hge]; [discriminate|].
  intros E. injection E as <-. auto.
Qed.

(** Whatever [__init__] returns for a dimension count from 1 to 3, it
    printed nothing, the resolution is positive, L is not zero, the
    initializers returned, and the object is as [built] says. *)
Lemma init_inv
    (resolution timesteps : Z) (L dt g : R) (imag_time : bool) (s E : R)
    (dim : Z) (psi_0 : callable_psi) (V : callable_V) (psi_sol : callable_sol)
    (mu_sol : R -> R) (alpha_psi alpha_V : R) tr e :
  __init__ resolution timesteps L dt g imag_time s E dim
           psi_0 V psi_sol mu_sol alpha_psi alpha_V = (tr, Ok e) ->
  (1 <= dim <= 3)%Z ->
  tr = [] /\ (0 < resolution)%Z /\ L <> 0 /\
  exists pv vv,
    psi_0 (init_inputs dim L resolution) = Ok pv /\
    V (init_inputs dim L resolution) = Ok vv /\
    built resolution L dt g s E imag_time dim pv vv e.
Proof.
  intros H Hdim.
  assert (Hpre : (0 < resolution)%Z /\ L <> 0).
  { unfold __init__ in H.
    apply io_bind_lift_inv in H as (x0 & Hx & H).
    apply linspace_ok_inv in Hx as [Hn _].
    apply io_bind_lift_inv in H as (dx0 & Hdx & H).
    apply py_div_ok_inv in Hdx as [Hn0 _].
    apply io_bind_lift_inv in H as (dk & Hdk & H).
    apply py_div_ok_inv in Hdk as [HL _].
    split; [|exact HL].
    destruct (Z.eq_dec resolution 0) as [->|]; [now contradiction Hn0 | lia]. }
  destruct Hpre as [Hn HL].
  destruct (psi_0 (init_inputs dim L resolution)) as [pv|ex1] eqn:Hp.
  2:{ exfalso. revert H. unfold __init__, io_lift, io_ret.
      destruct (wavevector_spacing_nonzero Hn HL) as [H1 H2].
      destruct (first_last_item_ok L Hn) as [Hfst Hlst].
      rewrite linspace_ok by lia. rewrite io_bind_ok.
      rewrite py_div_ok by (apply not_0_IZR; lia). rewrite io_bind_ok.
      rewrite py_div_ok by exact HL. rewrite io_bind_ok.
      rewrite py_div_ok by exact H1. rewrite io_bind_ok.
      rewrite fftfreq_ok by (lia || exact H2). rewrite io_bind_ok.
      fold (axis L resolution). fold (wavevectors L resolution).
      assert (Hd : dim = 1%Z \/ dim = 2%Z \/ dim = 3%Z) by lia.
      unfold init_inputs in Hp.
      destruct Hd as [-> | [-> | ->]];
        cbn [Z.leb Z.ltb Z.eqb Z.compare Pos.compare Pos.compare_cont Pos.eqb] in *.
      - rewrite !io_bind_ok. rewrite Hp. discriminate.
      - rewrite add_axis_ok by (assumption || reflexivity).
        rewrite !io_bind_ok. cbn [opt_get option_map fst snd].
        unfold io_ret. rewrite !io_bind_ok.
        unfold get_meshgrid, meshgrid in *. cbn [fst snd] in *.
        rewrite Hp. discriminate.
      - rewrite add_axis_ok by (assumption || reflexivity).
        rewrite !io_bind_ok.
        rewrite add_axis_ok by (assumption || reflexivity).
        rewrite !io_bind_ok. cbn [opt_get option_map fst snd].
        unfold io_ret. rewrite !io_bind_ok.
        rewrite Hfst, Hlst. rewrite !io_bind_ok.
        unfold mgrid3 in *. cbn [fst snd] in *.
        rewrite Hp. discriminate. }
  destruct (V (init_inputs dim L resolution)) as [vv|ex2] eqn:Hv.
  2:{ exfalso. revert H. unfold __init__, io_lift, io_ret.
      destruct (wavevector_spacing_nonzero Hn HL) as [H1 H2].
      destruct (first_last_item_ok L Hn) as [Hfst Hlst].
      rewrite linspace_ok by lia. rewrite io_bind_ok.
      rewrite py_div_ok by (apply not_0_IZR; lia). rewrite io_bind_ok.
      rewrite py_div_ok by exact HL. rewrite io_bind_ok.
      rewrite py_div_ok by exact H1. rewrite io_bind_ok.
      rewrite fftfreq_ok by (lia || exact H2). rewrite io_bind_ok.
      fold (axis L resolution). fold (wavevectors L resolution).
      assert (Hd : dim = 1%Z \/ dim = 2%Z \/ dim = 3%Z) by lia.
      unfold init_inputs in Hp, Hv.
      destruct Hd as [-> | [-> | ->]];
        cbn [Z.leb Z.ltb Z.eqb Z.compare Pos.compare Pos.compare_cont Pos.eqb] in *.
      - rewrite !io_bind_ok. rewrite Hp, io_bind_ok, Hv. discriminate.
      - rewrite add_axis_ok by (assumption || reflexivity).
        rewrite !io_bind_ok. cbn [opt_get option_map fst snd].
        unfold io_ret. rewrite !io_bind_ok.
        unfold get_meshgrid, meshgrid in *. cbn [fst snd] in *.
        rewrite Hp, io_bind_ok, Hv. discriminate.
      - rewrite add_axis_ok by (assumption || reflexivity).
        rewrite !io_bind_ok.
        rewrite add_axis_ok by (assumption || reflexivity).
        rewrite !io_bind_ok. cbn [opt_get option_map fst snd].
        unfold io_ret. rewrite !io_bind_ok.
        rewrite Hfst, Hlst. rewrite !io_bind_ok.
        unfold mgrid3 in *. cbn [fst snd] in *.
        rewrite Hp, io_bind_ok, Hv. discriminate. }
  assert (Hsol : dim = 3%Z \/
                 exists sv, psi_sol (init_inputs dim L resolution) g = Ok sv).
  { destruct (Z.eq_dec dim 3) as [|Hd3]; [now left | right].
    destruct (psi_sol (init_inputs dim L resolution) g) as [sv|ex3] eqn:Hs;
      [eauto|].
    exfalso. revert H. unfold __init__, io_lift, io_ret.
    destruct (wavevector_spacing_nonzero Hn HL) as [H1 H2].
    rewrite linspace_ok by lia. rewrite io_bind_ok.
    rewrite py_div_ok by (apply not_0_IZR; lia). rewrite io_bind_ok.
    rewrite py_div_ok by exact HL. rewrite io_bind_ok.
    rewrite py_div_ok by exact H1. rewrite io_bind_ok.
    rewrite fftfreq_ok by (lia || exact H2). rewrite io_bind_ok.
    fold (axis L resolution). fold (wavevectors L resolution).
    assert (Hd : dim = 1%Z \/ dim = 2%Z) by lia.
    unfold init_inputs in Hp, Hv, Hs.
    destruct Hd as [-> | ->];
      cbn [Z.leb Z.ltb Z.eqb Z.compare Pos.compare Pos.compare_cont Pos.eqb] in *.
    - rewrite !io_bind_ok. rewrite Hp, io_bind_ok, Hv, io_bind_ok, Hs.
      discriminate.
    - rewrite add_axis_ok by (assumption || reflexivity).
      rewrite !io_bind_ok. cbn [opt_get option_map fst snd].
      unfold io_ret. rewrite !io_bind_ok.
      unfold get_meshgrid, meshgrid in *. cbn [fst snd] in *.
      rewrite Hp, io_bind_ok, Hv, io_bind_ok, Hs. discriminate. }
  destruct (@init_ok resolution timesteps L dt g imag_time s E psi_0 V psi_sol
              mu_sol alpha_psi alpha_V dim pv vv Hn HL Hdim Hp Hv Hsol)
    as (e' & He' & Hb).
  rewrite He' in H. injection H as <- <-.
  repeat split; try assumption. exists pv, vv. auto.
Qed.

(** X14. A grid that cannot be built stops construction before anything
    is printed, whatever the dimension count and the initializers: a
    negative resolution raises ValueError (np.linspace), resolution 0
    raises ZeroDivisionError (dx = 2 L / resolution), and L = 0 raises
    ZeroDivisionError (dkx = pi / L). *)
Theorem construction_rejects_degenerate_grids
    (resolution timesteps : Z) (L dt g : R) (imag_time : bool) (s E : R)
    (dim : Z) (psi_0 : callable_psi) (V : callable_V) (psi_sol : callable_sol)
    (mu_sol : R -> R) (alpha_psi alpha_V : R) :
  let init := __init__ resolution timesteps L dt g imag_time s E dim
                       psi_0 V psi_sol mu_sol alpha_psi alpha_V in
  ((resolution < 0)%Z -> init = ([], Raise ValueError)) /\
  (resolution = 0%Z -> init = ([], Raise ZeroDivisionError)) /\
  ((0 < resolution)%Z -> L = 0 -> init = ([], Raise ZeroDivisionError)).
Proof.
  intros init. unfold init, __init__, io_lift. split; [|split].
  - intros Hn. unfold linspace. destruct (Z.ltb_spec resolution 0); [|lia].
    reflexivity.
  - intros ->. rewrite linspace_ok by lia. rewrite io_bind_ok.
    unfold py_div. destruct (Req_dec_T (IZR 0) 0); [reflexivity | contradiction].
  - intros Hn ->. rewrite linspace_ok by lia. rewrite io_bind_ok.
    rewrite py_div_ok by (apply not_0_IZR; lia). rewrite io_bind_ok.
    unfold py_div. destruct (Req_dec_T 0 0); [reflexivity | contradiction].
Qed.

(** X15. A dimension count of 0 or less is not rejected: construction
    returns an object with no field, potential or propagator. On it
    [time_step] raises AttributeError and changes nothing, and [get_norm]
    writes the dimension message and exits with status 1. *)
Theorem nonpositive_dimension_builds_an_empty_engine
    (resolution timesteps : Z) (L dt g : R) (imag_time : bool) (s E : R)
    (dim : Z) (psi_0 : callable_psi) (V : callable_V) (psi_sol : callable_sol)
    (mu_sol : R -> R) (alpha_psi alpha_V : R) :
  (0 < resolution)%Z -> L <> 0 -> (dim <= 0)%Z ->
  exists e,
    __init__ resolution timesteps L dt g imag_time s E dim
             psi_0 V psi_sol mu_sol alpha_psi alpha_V = ([], Ok e) /\
    psi_val e = None /\ V_val e = None /\ H_kin e = None /\
    time_step e = (([], Raise AttributeError), e) /\
    forall p, get_norm e p = ([Stderr dim_error_msg], Raise (SystemExit 1)).
Proof.
  intros Hn HL Hdim.
  destruct (wavevector_spacing_nonzero Hn HL) as [H1 H2].
  unfold __init__, io_lift, io_ret.
  rewrite linspace_ok by lia. rewrite io_bind_ok.
  rewrite py_div_ok by (apply not_0_IZR; lia). rewrite io_bind_ok.
  rewrite py_div_ok by exact HL. rewrite io_bind_ok.
  rewrite py_div_ok by exact H1. rewrite io_bind_ok.
  rewrite fftfreq_ok by (lia || exact H2). rewrite io_bind_ok.
  destruct (Z.leb_spec 2 dim); [lia|].
  destruct (Z.leb_spec 3 dim); [lia|].
  destruct (Z.ltb_spec 3 dim); [lia|].
  destruct (Z.eqb_spec dim 1); [lia|].
  destruct (Z.eqb_spec dim 2); [lia|].
  destruct (Z.eqb_spec dim 3); [lia|].
  rewrite !io_bind_ok.
  eexists. split; [reflexivity|]. do 3 (split; [reflexivity|]).
  split.
  - unfold time_step, split_operator_update, apply_H_pot, H_pot_now.
    do 3 apply py_bind_raise.
    erewrite py_bind_ok by reflexivity.
    apply py_bind_raise. reflexivity.
  - intros p. unfold get_norm. cbn [Schroedinger.dim].
    destruct (Z.eqb_spec dim 1); [lia|].
    destruct (Z.eqb_spec dim 2); [lia|].
    destruct (Z.eqb_spec dim 3); [lia|].
    reflexivity.
Qed.

Lemma nonpositive_dimension_builds_an_empty_engine_witness :
  exists e, scenario 64 0 = ([], Ok e) /\
            time_step e = (([], Raise AttributeError), e).
Proof.
  destruct (@nonpositive_dimension_builds_an_empty_engine
              64 500 5 0.01 0 true 1.1 1.0 0 psi_0_1d V_1d psi_sol_1d mu_1d
              0.8 0.3 ltac:(lia) ltac:(lra) ltac:(lia))
    as (e & He & _ & _ & _ & Ht & _).
  exists e. split; [exact He | exact Ht].
Defined.

(** ** The axes of a constructed engine *)

Lemma nth_arange lo hi i d :
  (i < Z.to_nat (hi - lo))%nat -> nth i (arange lo hi) d = (lo + Z.of_nat i)%Z.
Proof.
  intros Hi. unfold arange.
  rewrite (nth_indep _ d ((fun j => (lo + Z.of_nat j)%Z) 0%nat))
    by (now rewrite length_map, length_seq).
  rewrite (map_nth (fun j => (lo + Z.of_nat j)%Z)), seq_nth by exact Hi.
  reflexivity.
Qed.

Lemma arange_length lo hi : length (arange lo hi) = Z.to_nat (hi - lo).
Proof. unfold arange. now rewrite length_map, length_seq. Qed.

Lemma nth_fftfreq_samples n val i :
  (0 < n)%Z -> (i < Z.to_nat n)%nat ->
  nth i (fftfreq_samples n val) 0
  = if (2 * Z.of_nat i <? n)%Z then IZR (Z.of_nat i) * val
    else IZR (Z.of_nat i - n) * val.
Proof.
  intros Hn Hi. unfold fftfreq_samples.
  pose proof (Z.div_mod n 2 ltac:(lia)) as D1.
  pose proof (Z.mod_pos_bound n 2 ltac:(lia)) as B1.
  pose proof (Z.div_mod (n - 1) 2 ltac:(lia)) as D2.
  pose proof (Z.mod_pos_bound (n - 1) 2 ltac:(lia)) as B2.
  set (N := ((n - 1) / 2 + 1)%Z) in *.
  rewrite (nth_indep _ 0 ((fun k => IZR k * val) 0%Z))
    by (rewrite length_map, length_app, !arange_length; lia).
  rewrite (map_nth (fun k => IZR k * val)).
  destruct (Z.ltb_spec (2 * Z.of_nat i) n) as [Hlt|Hge].
  - rewrite app_nth1 by (rewrite arange_length; lia).
    rewrite nth_arange by lia. do 2 f_equal; try lia.
  - rewrite app_nth2 by (rewrite arange_length; lia).
    rewrite arange_length, nth_arange by lia. do 2 f_equal; try lia.
Qed.

Lemma wavevector_step L n : (0 < n)%Z -> L <> 0 ->
  1.0 / (IZR n * (1.0 / (PI / L * IZR n))) = PI / L.
Proof.
  intros Hn HL. assert (Hn' : IZR n <> 0) by (apply not_0_IZR; lia).
  pose proof PI_neq0. replace 1.0 with 1 by lra. field. auto.
Qed.

(** X16. The wavevector axis of a constructed engine has [resolution]
    samples in the order of the discrete Fourier transform, in steps of
    dkx = pi / L: sample i is i pi / L while 2 i < resolution and
    (i - resolution) pi / L from there on, so it starts at 0. *)
Theorem wavevector_axis_in_fft_order
    (resolution timesteps : Z) (L dt g : R) (imag_time : bool) (s E : R)
    (dim : Z) (psi_0 : callable_psi) (V : callable_V) (psi_sol : callable_sol)
    (mu_sol : R -> R) (alpha_psi alpha_V : R) (tr : list event) (e : engine) :
  __init__ resolution timesteps L dt g imag_time s E dim
           psi_0 V psi_sol mu_sol alpha_psi alpha_V = (tr, Ok e) ->
  (1 <= dim <= 3)%Z ->
  dkx e = PI / L /\
  shape (kx e) = [Z.to_nat resolution] /\
  length (data (kx e)) = Z.to_nat resolution /\
  nth 0 (data (kx e)) 0 = 0 /\
  forall i, (i < Z.to_nat resolution)%nat ->
    ((2 * Z.of_nat i < resolution)%Z ->
     nth i (data (kx e)) 0 = INR i * (PI / L)) /\
    ((resolution <= 2 * Z.of_nat i)%Z ->
     nth i (data (kx e)) 0 = (INR i - IZR resolution) * (PI / L)).
Proof.
  intros Hinit Hdim.
  destruct (@init_inv resolution timesteps L dt g imag_time s E dim psi_0 V
              psi_sol mu_sol alpha_psi alpha_V tr e Hinit Hdim)
    as (_ & Hn & HL & pv & vv & _ & _ & Hb).
  rewrite (built_dkx Hb), (built_kx Hb). unfold wavevectors. cbn [shape data].
  rewrite wavevector_step by assumption.
  split; [reflexivity|]. split; [reflexivity|].
  split; [apply fftfreq_samples_length; lia|].
  split.
  - rewrite nth_fftfreq_samples by lia.
    destruct (Z.ltb_spec (2 * Z.of_nat 0) resolution); [|lia].
    simpl. lra.
  - intros i Hi. rewrite nth_fftfreq_samples by lia.
    rewrite INR_IZR_INZ. split; intros Hc.
    + destruct (Z.ltb_spec (2 * Z.of_nat i) resolution); [reflexivity | lia].
    + destruct (Z.ltb_spec (2 * Z.of_nat i) resolution); [lia|].
      now rewrite minus_IZR.
Qed.

Lemma wavevector_axis_in_fft_order_witness :
  exists e, scenario 64 1 = ([], Ok e) /\
            nth 1 (data (kx e)) 0 = INR 1 * (PI / 5) /\
            nth 63 (data (kx e)) 0 = (INR 63 - IZR 64) * (PI / 5).
Proof.
  destruct (@scenario_1d_built 64 ltac:(lia)) as (e & pv & vv & He & _).
  exists e. split; [exact He|].
  destruct (@wavevector_axis_in_fft_order
              64 500 5 0.01 0 true 1.1 1.0 1 psi_0_1d V_1d psi_sol_1d mu_1d
              0.8 0.3 [] e He ltac:(lia)) as (_ & _ & _ & _ & H).
  split.
  - apply (H 1%nat); lia.
  - apply (H 63%nat); lia.
Defined.

(** X17. The position axis of a constructed engine with more than one
    sample is symmetric about 0: it starts at -L, ends at +L, and sample
    (resolution - 1 - i) is minus sample i. *)
Theorem position_axis_is_symmetric
    (resolution timesteps : Z) (L dt g : R) (imag_time : bool) (s E : R)
    (dim : Z) (psi_0 : callable_psi) (V : callable_V) (psi_sol : callable_sol)
    (mu_sol : R -> R) (alpha_psi alpha_V : R) (tr : list event) (e : engine) :
  __init__ resolution timesteps L dt g imag_time s E dim
           psi_0 V psi_sol mu_sol alpha_psi alpha_V = (tr, Ok e) ->
  (1 <= dim <= 3)%Z -> (1 < resolution)%Z ->
  shape (x e) = [Z.to_nat resolution] /\
  nth 0 (data (x e)) 0 = - L /\
  last (data (x e)) 0 = L /\
  forall i, (i < Z.to_nat resolution)%nat ->
    nth (mirror (Z.to_nat resolution) i) (data (x e)) 0
    = - nth i (data (x e)) 0.
Proof.
  intros Hinit Hdim Hn.
  destruct (@init_inv resolution timesteps L dt g imag_time s E dim psi_0 V
              psi_sol mu_sol alpha_psi alpha_V tr e Hinit Hdim)
    as (_ & _ & HL & pv & vv & _ & _ & Hb).
  rewrite (built_x Hb). unfold axis. cbn [shape data].
  split; [reflexivity|].
  split; [rewrite nth_linspace_samples by lia; simpl INR; lra|].
  split; [apply last_linspace_samples; lia|].
  intros i Hi. unfold mirror.
  rewrite !nth_linspace_samples by lia.
  rewrite minus_INR by lia. rewrite minus_INR by lia.
  rewrite INR_IZR_INZ, Z2Nat.id by lia. simpl (INR 1).
  rewrite minus_IZR.
  assert (Hd : IZR resolution - 1 <> 0).
  { apply IZR_lt in Hn. lra. }
  field. exact Hd.
Qed.

Lemma position_axis_is_symmetric_witness :
  exists e, scenario 64 1 = ([], Ok e) /\
            nth (mirror 64 3) (data (x e)) 0 = - nth 3 (data (x e)) 0.
Proof.
  destruct (@scenario_1d_built 64 ltac:(lia)) as (e & pv & vv & He & _).
  exists e. split; [exact He|].
  destruct (@position_axis_is_symmetric
              64 500 5 0.01 0 true 1.1 1.0 1 psi_0_1d V_1d psi_sol_1d mu_1d
              0.8 0.3 [] e He ltac:(lia) ltac:(lia)) as (_ & _ & _ & H).
  apply (H 3%nat). lia.
Defined.

(** X18. In a constructed engine [k_squared] is one array of
    [resolution] entries in every dimension count: entry i is
    dim * kx[i]^2, because every enabled axis adds the square of its own
    i-th wavevector and the axes are equal. For dim = 1 it is kx^2. *)
Theorem k_squared_adds_equal_axes
    (resolution timesteps : Z) (L dt g : R) (imag_time : bool) (s E : R)
    (dim : Z) (psi_0 : callable_psi) (V : callable_V) (psi_sol : callable_sol)
    (mu_sol : R -> R) (alpha_psi alpha_V : R) (tr : list event) (e : engine) :
  __init__ resolution timesteps L dt g imag_time s E dim
           psi_0 V psi_sol mu_sol alpha_psi alpha_V = (tr, Ok e) ->
  (1 <= dim <= 3)%Z ->
  shape (k_squared e) = [Z.to_nat resolution] /\
  forall i, (i < Z.to_nat resolution)%nat ->
    nth i (data (k_squared e)) 0
    = IZR dim * (nth i (data (kx e)) 0 * nth i (data (kx e)) 0).
Proof.
  intros Hinit Hdim.
  destruct (@init_inv resolution timesteps L dt g imag_time s E dim psi_0 V
              psi_sol mu_sol alpha_psi alpha_V tr e Hinit Hdim)
    as (_ & Hn & HL & pv & vv & _ & _ & Hb).
  rewrite (built_k_squared Hb), (built_kx Hb).
  split; [apply shape_k_squared_of|].
  intros i Hi. unfold k_squared_of.
  assert (Hsz : (i < size [Z.to_nat resolution])%nat) by (cbn; lia).
  assert (Hd : dim = 1%Z \/ dim = 2%Z \/ dim = 3%Z) by lia.
  destruct Hd as [-> | [-> | ->]];
    cbn [Z.leb Z.compare Pos.compare Pos.compare_cont];
    rewrite ?nth_zip_nd by (reflexivity || exact Hsz);
    unfold dflt, Dflt_R; rewrite !nth_sq; lra.
Qed.

Lemma k_squared_adds_equal_axes_witness :
  exists e, scenario 64 1 = ([], Ok e) /\
            nth 5 (data (k_squared e)) 0
            = 1 * (nth 5 (data (kx e)) 0 * nth 5 (data (kx e)) 0).
Proof.
  destruct (@scenario_1d_built 64 ltac:(lia)) as (e & pv & vv & He & _).
  exists e. split; [exact He|].
  destruct (@k_squared_adds_equal_axes
              64 500 5 0.01 0 true 1.1 1.0 1 psi_0_1d V_1d psi_sol_1d mu_1d
              0.8 0.3 [] e He ltac:(lia)) as (_ & H).
  apply (H 5%nat). lia.
Defined.

(** ** The propagators in real and in imaginary time *)

Lemma density_exp_phase r theta :
  density (Cexp (Cscal r (Cscal theta (Cscal (-1.0) Ci)))) = 1.
Proof.
  unfold density, Cexp, Cscal, Ci. cbn [fst snd].
  replace (r * (theta * (-1.0 * 0))) with 0 by lra.
  rewrite exp_0. set (t := r * (theta * (-1.0 * 1))).
  pose proof (sin2_cos2 t) as H. unfold Rsqr in H. lra.
Qed.

Lemma exp_decay r theta :
  0 <= r * theta ->
  let v := Cexp (Cscal r (Cscal theta (RtoC (-1.0)))) in
  snd v = 0 /\ 0 < fst v <= 1.
Proof.
  intros H. unfold Cexp, Cscal, RtoC. cbn [fst snd].
  replace (r * (theta * 0)) with 0 by lra. rewrite sin_0, cos_0.
  split; [lra|]. rewrite Rmult_1_r.
  split; [apply exp_pos|].
  rewrite <- exp_0. destruct (Req_dec_T (r * theta) 0) as [E|E].
  - right. f_equal. lra.
  - left. apply exp_increasing. lra.
Qed.

Lemma k_squared_of_nonneg dim L n v :
  In v (data (k_squared_of dim L n)) -> 0 <= v.
Proof.
  intros Hv. apply (In_nth _ _ 0) in Hv. destruct Hv as (i & Hi & <-).
  revert Hi. unfold k_squared_of.
  destruct (2 <=? dim)%Z, (3 <=? dim)%Z; intros Hi;
    try (unfold zip_nd in Hi; rewrite (wf_tabulate _ _) in Hi);
    rewrite ?nth_zip_nd by (reflexivity || exact Hi);
    unfold dflt, Dflt_R; rewrite !nth_sq; nra.
Qed.

(** X19. The kinetic propagator of a constructed engine: in real time
    (imag_time false) every entry of H_kin has modulus 1; in imaginary
    time with dt >= 0 every entry is a real number in (0, 1]. *)
Theorem kinetic_propagator_phase_or_decay
    (resolution timesteps : Z) (L dt g : R) (imag_time : bool) (s E : R)
    (dim : Z) (psi_0 : callable_psi) (V : callable_V) (psi_sol : callable_sol)
    (mu_sol : R -> R) (alpha_psi alpha_V : R) (tr : list event) (e : engine) :
  __init__ resolution timesteps L dt g imag_time s E dim
           psi_0 V psi_sol mu_sol alpha_psi alpha_V = (tr, Ok e) ->
  (1 <= dim <= 3)%Z ->
  exists hk,
    H_kin e = Some hk /\ shape hk = [Z.to_nat resolution] /\
    (imag_time = false -> forall v, In v (data hk) -> density v = 1) /\
    (imag_time = true -> 0 <= dt ->
     forall v, In v (data hk) -> snd v = 0 /\ 0 < fst v <= 1).
Proof.
  intros Hinit Hdim.
  destruct (@init_inv resolution timesteps L dt g imag_time s E dim psi_0 V
              psi_sol mu_sol alpha_psi alpha_V tr e Hinit Hdim)
    as (_ & Hn & HL & pv & vv & _ & _ & Hb).
  eexists. split; [apply Hb|].
  split; [apply shape_k_squared_of|].
  unfold kinetic_propagator. cbn [data np_map]. split.
  - intros ->. intros v Hv. apply in_map_iff in Hv.
    destruct Hv as (k2 & <- & _). apply density_exp_phase.
  - intros -> Hdt. intros v Hv. apply in_map_iff in Hv.
    destruct Hv as (k2 & <- & Hk).
    apply exp_decay. apply k_squared_of_nonneg in Hk. nra.
Qed.

Lemma kinetic_propagator_phase_or_decay_witness :
  exists e hk, scenario 64 1 = ([], Ok e) /\ H_kin e = Some hk /\
    forall v, In v (data hk) -> snd v = 0 /\ 0 < fst v <= 1.
Proof.
  destruct (@scenario_1d_built 64 ltac:(lia)) as (e & pv & vv & He & _).
  destruct (@kinetic_propagator_phase_or_decay
              64 500 5 0.01 0 true 1.1 1.0 1 psi_0_1d V_1d psi_sol_1d mu_1d
              0.8 0.3 [] e He ltac:(lia)) as (hk & Hk & _ & _ & H).
  exists e, hk. split; [exact He|]. split; [exact Hk|].
  apply H; [reflexivity | lra].
Defined.

Lemma density_Cmul a b : density (Cmul a b) = density a * density b.
Proof. unfold density, Cmul. cbn [fst snd]. ring. Qed.

(** X20. In real time (U = -i) the potential half-step only turns
    phases: on a field and a potential of one shape,
    [self.psi_val = H_pot * self.psi_val] completes and leaves |psi|^2
    unchanged at every grid point, whatever V and g are. *)
Theorem real_time_half_step_keeps_density (e : engine) (pv : ndarray C)
    (vv : ndarray R) :
  U e = Cscal (-1.0) Ci ->
  psi_val e = Some pv -> V_val e = Some vv -> shape vv = shape pv ->
  exists p,
    apply_H_pot e = (([], Ok tt), set_psi_val p e) /\
    shape p = shape pv /\
    forall i, (i < size (shape pv))%nat ->
      density (nth i (data p) dflt) = density (nth i (data pv) dflt).
Proof.
  intros HU Hp Hv Hs.
  exists (potential_half_step (U e) (g e) (dt e) vv pv).
  split; [now apply apply_H_pot_same|]. split; [exact Hs|].
  intros i Hi. unfold potential_half_step.
  rewrite nth_zip_nd by (cbn [shape np_map zip_nd tabulate]; congruence).
  rewrite density_Cmul.
  set (w := zip_nd Rplus vv _).
  rewrite (@nth_np_map _ _ _ w i 0 dflt)
    by (unfold w, zip_nd; rewrite (wf_tabulate _ _), Hs; exact Hi).
  rewrite HU, density_exp_phase. lra.
Qed.

Lemma real_time_half_step_keeps_density_witness :
  exists e p,
    __init__ 64 500 5 0.01 0 false 1.1 1.0 1 psi_0_1d V_1d psi_sol_1d mu_1d
             0.8 0.3 = ([], Ok e) /\
    apply_H_pot e = (([], Ok tt), set_psi_val p e).
Proof.
  destruct (scenario_inputs_1d 64) as (pv & vv & Hp & Hv & Hsp & Hsv & Hs).
  destruct (@init_ok 64 500 5 0.01 0 false 1.1 1.0 psi_0_1d V_1d psi_sol_1d
              mu_1d 0.8 0.3 1 pv vv ltac:(lia) ltac:(lra) ltac:(lia) Hp Hv
              (or_intror Hs)) as (e & He & Hb).
  destruct (@real_time_half_step_keeps_density e pv vv (built_U Hb)
              (built_psi_val Hb) (built_V_val Hb) ltac:(congruence))
    as (p & Hstep & _).
  exists e, p. split; [exact He | exact Hstep].
Defined.

(** ** What a step changes *)

Lemma same_frame_refl e : same_frame e e.
Proof. unfold same_frame. repeat split. Qed.

Lemma same_frame_trans e1 e2 e3 :
  same_frame e1 e2 -> same_frame e2 e3 -> same_frame e1 e3.
Proof.
  unfold same_frame.
  intros (A1 & A2 & A3 & A4 & A5 & A6 & A7 & A8 & A9 & A10 & A11 & A12 & A13
          & A14 & A15)
         (B1 & B2 & B3 & B4 & B5 & B6 & B7 & B8 & B9 & B10 & B11 & B12 & B13
          & B14 & B15).
  repeat split; congruence.
Qed.

Lemma frame_bind {A B} (m : Py A) (k : A -> Py B) :
  (forall e, same_frame e (snd (m e))) ->
  (forall a e, same_frame e (snd (k a e))) ->
  forall e, same_frame e (snd (py_bind m k e)).
Proof.
  intros Hm Hk e. unfold py_bind. specialize (Hm e).
  destruct (m e) as [[tr [a|x]] e1]; cbn [fst snd] in *.
  - specialize (Hk a e1). destruct (k a e1) as [r2 e2]. cbn [snd] in *.
    now apply same_frame_trans with e1.
  - exact Hm.
Qed.

Lemma frame_io {A} (f : engine -> IO A) e : same_frame e (snd (py_io f e)).
Proof. apply same_frame_refl. Qed.

Ltac frame :=
  repeat first
    [ apply frame_bind; [| intros ?]
    | intros ?; apply frame_io
    | intros ?; apply same_frame_refl
    | intros ?; unfold py_set, same_frame; cbn; repeat split; reflexivity ].

Lemma frame_apply_H_pot e : same_frame e (snd (apply_H_pot e)).
Proof. revert e. unfold apply_H_pot, H_pot_now. frame. Qed.

Lemma frame_probe e : same_frame e (snd (probe e)).
Proof. revert e. unfold probe. frame. Qed.

(** X21. Whatever a call of [time_step] does, and also when it raises, it
    assigns only psi_val, t, mu and E: the grid (resolution, L, x, dx, dy,
    dz, kx, k_squared), dt, g, dim, U, the potential V_val, the propagator
    H_kin and mu_sol are as before the call. *)
Theorem time_step_keeps_the_frame (e : engine) :
  same_frame e (snd (time_step e)).
Proof.
  revert e. unfold time_step. apply frame_bind.
  - unfold split_operator_update.
    repeat first
      [ exact frame_apply_H_pot
      | exact frame_probe
      | apply frame_bind; [| intros ?] ]; frame.
  - intros _. unfold renormalize_and_measure. frame.
Qed.

(** ** Stepping in two and three dimensions *)

Lemma get_norm_grid_shaped e pv p :
  psi_val e = Some pv ->
  (dim e = 2%Z /\ exists dy0, dy e = Some dy0) \/
  (dim e = 3%Z /\ exists dy0 dz0, dy e = Some dy0 /\ dz e = Some dz0) ->
  exists c, get_norm e p = ([], Ok c).
Proof.
  intros Hp Hd. unfold get_norm. rewrite Hp. cbn [opt_get].
  unfold io_ret. rewrite !io_bind_ok.
  destruct Hd as [(Hd & dy0 & Hy) | (Hd & dy0 & dz0 & Hy & Hz)];
    rewrite Hd; cbn [Z.eqb Pos.eqb]; rewrite Hy; cbn [opt_get];
    unfold io_ret; rewrite !io_bind_ok.
  - eauto.
  - rewrite Hz. cbn [opt_get]. unfold io_ret. rewrite !io_bind_ok. eauto.
Qed.

Lemma time_step_grid_shaped n e :
  grid_shaped n e -> (0 < n)%nat ->
  exists tr e',
    time_step e = ((tr, Ok tt), e') /\
    grid_shaped n e' /\ t e' = t e + dt e /\ dt e' = dt e.
Proof.
  intros (pv & vv & hk & Hp & Hv & Hk & Hs & Hhk & Hd) Hn0.
  assert (Hsh : shape pv = [n; n] \/ shape pv = [n; n; n])
    by (destruct Hd as [(_ & H & _) | (_ & H & _)]; auto).
  pose proof (@split_operator_update_ok e pv vv hk n Hp Hv Hk Hs Hhk Hsh Hn0)
    as Hu.
  set (p5 := split_step (U e) (g e) (dt e) vv hk pv) in *.
  set (e1 := set_t (t e + dt e) (set_psi_val p5 e)) in *.
  assert (Hd1 : (dim e1 = 2%Z /\ exists dy0, dy e1 = Some dy0) \/
                (dim e1 = 3%Z /\ exists dy0 dz0,
                    dy e1 = Some dy0 /\ dz e1 = Some dz0)).
  { destruct Hd as [(H2 & _ & Hy) | (H3 & _ & Hyz)]; [left | right]; auto. }
  destruct (@get_norm_grid_shaped e1 p5 2.0 eq_refl Hd1) as (c & Hc).
  destruct (@renormalize_and_measure_ok e1 p5 c eq_refl Hc) as (q & Hq & Hr).
  do 2 eexists. split; [|split; [|split]].
  - unfold time_step, py_bind. rewrite Hu. cbn [snd fst]. rewrite Hr.
    reflexivity.
  - exists (np_map (fun v => Cdivr v (sqrt c)) p5), vv, hk.
    split; [reflexivity|]. split; [exact Hv|]. split; [exact Hk|].
    split; [reflexivity|]. split; [exact Hhk|].
    destruct Hd as [(H2 & Hs2 & Hy) | (H3 & Hs3 & Hyz)]; [left | right].
    + split; [exact H2|]. split; [|exact Hy].
      cbn [shape np_map]. change (shape p5) with (shape vv). congruence.
    + split; [exact H3|]. split; [|exact Hyz].
      cbn [shape np_map]. change (shape p5) with (shape vv). congruence.
  - reflexivity.
  - reflexivity.
Qed.

(** X22. An engine of two or three dimensions on n > 0 samples per axis
    whose field and potential have the shape of the grid stays so under
    [time_step]: every call completes without raising, the field keeps
    its shape, and after k calls the time is t + k dt. *)
Theorem grid_shaped_engine_keeps_stepping (n : nat) (e : engine) :
  grid_shaped n e -> (0 < n)%nat ->
  forall k,
    grid_shaped n (after_calls k e) /\
    t (after_calls k e) = t e + INR k * dt e /\
    dt (after_calls k e) = dt e /\
    exists tr, fst (time_step (after_calls k e)) = (tr, Ok tt).
Proof.
  intros Hg Hn0 k. induction k as [|k (IHg & IHt & IHdt & _)].
  - cbn [after_calls Nat.iter nat_rect]. split; [exact Hg|].
    split; [simpl; lra|]. split; [reflexivity|].
    destruct (time_step_grid_shaped Hg Hn0) as (tr & e' & Hstep & _).
    exists tr. now rewrite Hstep.
  - change (after_calls (S k) e) with (snd (time_step (after_calls k e))).
    destruct (time_step_grid_shaped IHg Hn0)
      as (tr & e' & Hstep & Hg' & Ht' & Hdt').
    rewrite Hstep. cbn [snd].
    split; [exact Hg'|]. split; [|split].
    + rewrite Ht', IHt, IHdt, S_INR. lra.
    + congruence.
    + destruct (time_step_grid_shaped Hg' Hn0) as (tr2 & e2 & Hstep2 & _).
      exists tr2. now rewrite Hstep2.
Qed.

Lemma default_3d_grid_shaped n L g : (0 < n)%Z -> L <> 0 ->
  exists e, default_3d n L g = ([], Ok e) /\ grid_shaped (Z.to_nat n) e /\
            t e = 0.0 /\ dt e = 0.01.
Proof.
  intros Hn HL.
  destruct (@default_3d_built n L g Hn HL) as (e & pv & vv & He & Hb & Hsp & Hsv).
  exists e. split; [exact He|]. split; [|split; apply Hb].
  do 3 eexists. split; [apply Hb|]. split; [apply Hb|]. split; [apply Hb|].
  split; [congruence|]. split; [apply shape_k_squared_of|].
  right. split; [apply Hb|]. split; [exact Hsp|].
  rewrite (built_dy Hb), (built_dz Hb). cbn. eauto.
Qed.

Lemma grid_shaped_engine_keeps_stepping_witness :
  exists e, default_3d 64 5 0 = ([], Ok e) /\
            t (after_calls 3 e) = t e + INR 3 * dt e /\
            exists tr, fst (time_step (after_calls 3 e)) = (tr, Ok tt).
Proof.
  destruct (@default_3d_grid_shaped 64 5 0 ltac:(lia) ltac:(lra))
    as (e & He & Hg & _).
  exists e. split; [exact He|].
  destruct (@grid_shaped_engine_keeps_stepping 64 e Hg ltac:(lia) 3)
    as (_ & Ht & _ & Hs).
  split; [exact Ht | exact Hs].
Defined.

(** ** The points at which the initializers are sampled *)

Lemma hd_nth0 (l : list R) : hd 0 l = nth 0 l 0.
Proof. now destruct l. Qed.

Lemma mgrid_axis_is_axis L n i :
  (0 < n)%Z -> (i < Z.to_nat n)%nat ->
  mgrid_axis (hd 0 (data (axis L n))) (last (data (axis L n)) 0) n i
  = nth i (data (axis L n)) 0.
Proof.
  intros Hn Hi. unfold mgrid_axis, axis. cbn [data]. rewrite hd_nth0.
  rewrite Z.abs_eq by lia.
  destruct (Z.eqb_spec n 1) as [->|Hn1].
  - assert (i = 0%nat) by lia. subst i. simpl INR. lra.
  - rewrite last_linspace_samples, !nth_linspace_samples by lia.
    simpl (INR 0). lra.
Qed.

Lemma init_inputs_3d L n : (0 < n)%Z ->
  exists xm ym zm,
    init_inputs 3 L n = [xm; ym; zm] /\
    shape xm = [Z.to_nat n; Z.to_nat n; Z.to_nat n] /\
    shape ym = shape xm /\ shape zm = shape xm /\
    forall i j k, (i < Z.to_nat n)%nat -> (j < Z.to_nat n)%nat ->
                  (k < Z.to_nat n)%nat ->
      item xm [i; j; k] = nth i (data (axis L n)) 0 /\
      item ym [i; j; k] = nth j (data (axis L n)) 0 /\
      item zm [i; j; k] = nth k (data (axis L n)) 0.
Proof.
  intros Hn. unfold init_inputs, mgrid3. cbn [Z.eqb Pos.eqb fst snd].
  rewrite Z.abs_eq by lia.
  do 3 eexists. split; [reflexivity|]. do 3 (split; [reflexivity|]).
  intros i j k Hi Hj Hk.
  rewrite !item_tabulate by (apply index3_lt; assumption).
  cbn [nth]. rewrite !mgrid_axis_is_axis by assumption. auto.
Qed.

Lemma init_inputs_2d L n :
  exists pos,
    init_inputs 2 L n = [pos] /\
    shape pos = [Z.to_nat n; Z.to_nat n; 2%nat] /\
    getitem_axis pos 2 0 = Ok (fst (fst (get_meshgrid (axis L n) (axis L n)))) /\
    getitem_axis pos 2 1 = Ok (snd (fst (get_meshgrid (axis L n) (axis L n)))) /\
    forall i j, (i < Z.to_nat n)%nat -> (j < Z.to_nat n)%nat ->
      item pos [i; j; 0%nat] = nth j (data (axis L n)) 0 /\
      item pos [i; j; 1%nat] = nth i (data (axis L n)) 0.
Proof.
  unfold init_inputs. cbn [Z.eqb Pos.eqb].
  eexists. split; [reflexivity|].
  destruct (get_meshgrid_facts (axis L n) (axis L n))
    as (Hsx & Hsy & Hsp & Hgx & Hgy & Hent).
  assert (Hl : length (data (axis L n)) = Z.to_nat n)
    by apply linspace_samples_length.
  rewrite Hl in *.
  split; [exact Hsp|]. split; [exact Hgx|]. split; [exact Hgy|].
  intros i j Hi Hj. destruct (Hent i j Hi Hj) as [Hx Hy].
  rewrite <- Hx, <- Hy.
  unfold get_meshgrid, meshgrid. cbn [fst snd shape tabulate app].
  rewrite Hl.
  rewrite !item_tabulate
    by (repeat constructor; assumption || lia).
  cbn [nth Nat.eqb firstn]. auto.
Qed.

(** X24. In three dimensions the field and the potential of a constructed
    engine are psi_0 and V on three meshes of shape n x n x n whose first
    index runs along x: x_mesh[i, j, k] = x[i], y_mesh[i, j, k] = x[j],
    z_mesh[i, j, k] = x[k], the three axes being the same samples. *)
Theorem field_3d_is_sampled_first_index_x
    (resolution timesteps : Z) (L dt g : R) (imag_time : bool) (s E : R)
    (psi_0 : callable_psi) (V : callable_V) (psi_sol : callable_sol)
    (mu_sol : R -> R) (alpha_psi alpha_V : R) (tr : list event) (e : engine) :
  __init__ resolution timesteps L dt g imag_time s E 3
           psi_0 V psi_sol mu_sol alpha_psi alpha_V = (tr, Ok e) ->
  exists x_mesh y_mesh z_mesh pv vv,
    psi_0 [x_mesh; y_mesh; z_mesh] = Ok pv /\ psi_val e = Some pv /\
    V [x_mesh; y_mesh; z_mesh] = Ok vv /\ V_val e = Some vv /\
    shape x_mesh
    = [Z.to_nat resolution; Z.to_nat resolution; Z.to_nat resolution] /\
    shape y_mesh = shape x_mesh /\ shape z_mesh = shape x_mesh /\
    forall i j k, (i < Z.to_nat resolution)%nat ->
                  (j < Z.to_nat resolution)%nat ->
                  (k < Z.to_nat resolution)%nat ->
      item x_mesh [i; j; k] = nth i (data (x e)) 0 /\
      item y_mesh [i; j; k] = nth j (data (x e)) 0 /\
      item z_mesh [i; j; k] = nth k (data (x e)) 0.
Proof.
  intros Hinit.
  destruct (@init_inv resolution timesteps L dt g imag_time s E 3 psi_0 V
              psi_sol mu_sol alpha_psi alpha_V tr e Hinit ltac:(lia))
    as (_ & Hn & HL & pv & vv & Hp & Hv & Hb).
  destruct (init_inputs_3d L Hn) as (xm & ym & zm & Ein & Hs & Hsy & Hsz & Hent).
  rewrite Ein in Hp, Hv.
  exists xm, ym, zm, pv, vv. rewrite (built_x Hb).
  repeat (split; [first [assumption | apply Hb]|]). exact Hent.
Qed.

Lemma field_3d_is_sampled_first_index_x_witness :
  exists e x_mesh y_mesh z_mesh pv,
    default_3d 64 5 0 = ([], Ok e) /\
    psi_0_3d [x_mesh; y_mesh; z_mesh] = Ok pv /\ psi_val e = Some pv /\
    item x_mesh [1; 2; 3]%nat = nth 1 (data (x e)) 0.
Proof.
  destruct (@default_3d_built 64 5 0 ltac:(lia) ltac:(lra))
    as (e & pv0 & vv0 & He & _).
  destruct (@field_3d_is_sampled_first_index_x
              64 10 5 0.01 0 true 1.1 1.0 psi_0_3d V_3d psi_sol_3d mu_3d
              0.8 0.3 [] e He)
    as (xm & ym & zm & pv & vv & Hp & Hpv & _ & _ & _ & _ & _ & Hent).
  exists e, xm, ym, zm, pv. split; [exact He|]. split; [exact Hp|].
  split; [exact Hpv|]. apply (Hent 1 2 3)%nat; lia.
Defined.

(** X25. In two dimensions they are psi_0 and V on the stacked positions
    of shape n x n x 2, whose second index runs along x:
    pos[i, j, 0] = x[j] and pos[i, j, 1] = x[i] (y is the same axis), the
    opposite order to three dimensions. *)
Theorem field_2d_is_sampled_second_index_x
    (resolution timesteps : Z) (L dt g : R) (imag_time : bool) (s E : R)
    (psi_0 : callable_psi) (V : callable_V) (psi_sol : callable_sol)
    (mu_sol : R -> R) (alpha_psi alpha_V : R) (tr : list event) (e : engine) :
  __init__ resolution timesteps L dt g imag_time s E 2
           psi_0 V psi_sol mu_sol alpha_psi alpha_V = (tr, Ok e) ->
  exists pos pv vv,
    psi_0 [pos] = Ok pv /\ psi_val e = Some pv /\
    V [pos] = Ok vv /\ V_val e = Some vv /\
    shape pos = [Z.to_nat resolution; Z.to_nat resolution; 2%nat] /\
    forall i j, (i < Z.to_nat resolution)%nat ->
                (j < Z.to_nat resolution)%nat ->
      item pos [i; j; 0%nat] = nth j (data (x e)) 0 /\
      item pos [i; j; 1%nat] = nth i (data (x e)) 0.
Proof.
  intros Hinit.
  destruct (@init_inv resolution timesteps L dt g imag_time s E 2 psi_0 V
              psi_sol mu_sol alpha_psi alpha_V tr e Hinit ltac:(lia))
    as (_ & Hn & HL & pv & vv & Hp & Hv & Hb).
  destruct (init_inputs_2d L resolution) as (pos & Ein & Hs & _ & _ & Hent).
  rewrite Ein in Hp, Hv.
  exists pos, pv, vv. rewrite (built_x Hb).
  repeat (split; [first [assumption | apply Hb]|]). exact Hent.
Qed.

Lemma scenario_2d_built n L g : (0 < n)%Z -> L <> 0 ->
  exists e pv vv,
    scenario_2d n L g = ([], Ok e) /\
    built n L 0.01 g 1.1 1.0 true 2 pv vv e /\
    shape pv = [Z.to_nat n; Z.to_nat n] /\
    shape vv = [Z.to_nat n; Z.to_nat n].
Proof.
  intros Hn HL.
  destruct (init_inputs_2d L n) as (pos & Ein & Hs & Hgx & Hgy & _).
  destruct (get_meshgrid_facts (axis L n) (axis L n))
    as (Hsx & Hsy & _ & _ & _ & _).
  assert (Hl : length (data (axis L n)) = Z.to_nat n)
    by apply linspace_samples_length.
  rewrite Hl in Hsx, Hsy.
  set (xm := fst (fst (get_meshgrid (axis L n) (axis L n)))) in *.
  set (ym := snd (fst (get_meshgrid (axis L n) (axis L n)))) in *.
  assert (Hxy : shape ym = shape xm) by congruence.
  assert (Hp : exists pv, psi_0_2d [pos] = Ok pv /\ shape pv = shape xm).
  { unfold psi_0_2d, call1. rewrite Hgx, Hgy. cbn [rbind].
    unfold psi_gauss_2d.
    rewrite (np_binop_same Rplus _ _) by exact Hxy. cbn [rbind].
    rewrite np_binop_same by reflexivity. cbn [rbind].
    eexists. split; reflexivity. }
  assert (Hv : exists vv, V_2d [pos] = Ok vv /\ shape vv = shape xm).
  { unfold V_2d, call1, v_harmonic_2d. rewrite Hgx, Hgy. cbn [rbind].
    unfold v_2d. rewrite np_binop_same by exact Hxy. cbn [rbind].
    eexists. split; reflexivity. }
  assert (Hsol : exists sv, psi_sol_2d [pos] g = Ok sv).
  { unfold psi_sol_2d, call1, thomas_fermi_2d_pos. rewrite Hgx, Hgy.
    cbn [rbind]. unfold thomas_fermi_2d.
    destruct (Req_dec_T g 0); [eauto|].
    rewrite np_binop_same by exact Hxy. cbn [rbind]. eauto. }
  destruct Hp as (pv & Hp & Hsp). destruct Hv as (vv & Hv & Hsv).
  rewrite <- Ein in Hp, Hv, Hsol.
  destruct (@init_ok n 500 L 0.01 g true 1.1 1.0 psi_0_2d V_2d psi_sol_2d
              mu_2d 0.8 0.3 2 pv vv Hn HL ltac:(lia) Hp Hv (or_intror Hsol))
    as (e & He & Hb).
  exists e, pv, vv. split; [exact He|]. split; [exact Hb|].
  split; congruence.
Qed.

Lemma field_2d_is_sampled_second_index_x_witness :
  exists e pos pv,
    scenario_2d 64 5 0 = ([], Ok e) /\
    psi_0_2d [pos] = Ok pv /\ psi_val e = Some pv /\
    item pos [1; 2; 0]%nat = nth 2 (data (x e)) 0.
Proof.
  destruct (@scenario_2d_built 64 5 0 ltac:(lia) ltac:(lra))
    as (e & pv0 & vv0 & He & _).
  destruct (@field_2d_is_sampled_second_index_x
              64 500 5 0.01 0 true 1.1 1.0 psi_0_2d V_2d psi_sol_2d mu_2d
              0.8 0.3 [] e He)
    as (pos & pv & vv & Hp & Hpv & _ & _ & _ & Hent).
  exists e, pos, pv. split; [exact He|]. split; [exact Hp|].
  split; [exact Hpv|]. apply (Hent 1 2)%nat; lia.
Defined.

(** ** The diagnostics *)

Lemma float_pow_Cabs_4 v p : p = 4 ->
  float_pow (Cabs v) p = density v * density v.
Proof.
  intros ->. rewrite float_pow_int. unfold density.
  rewrite <- (float_pow_Cabs_2 v eq_refl), float_pow_sq by reflexivity.
  simpl. ring.
Qed.

Lemma quartic_rescaled v n : 0 < n ->
  float_pow (Cabs (Cdivr v (sqrt n))) 4.0 = float_pow (Cabs v) 4.0 / (n * n).
Proof.
  intros Hn. rewrite !float_pow_Cabs_4 by lra.
  assert (Hd : density (Cdivr v (sqrt n)) = density v / n).
  { unfold density. rewrite <- !(float_pow_Cabs_2 _ eq_refl).
    replace 2 with 2.0 by lra. now apply density_rescaled. }
  rewrite Hd. field. lra.
Qed.

Lemma get_norm_4_set_psi_val e pv n q :
  psi_val e = Some pv -> 0 < n ->
  get_norm e 4.0 = ([], Ok q) ->
  get_norm (set_psi_val (np_map (fun v => Cdivr v (sqrt n)) pv) e) 4.0
  = ([], Ok (q / (n * n))).
Proof.
  intros Hp Hn. unfold get_norm.
  change (dim (set_psi_val _ e)) with (dim e).
  change (dx (set_psi_val _ e)) with (dx e).
  change (dy (set_psi_val _ e)) with (dy e).
  change (dz (set_psi_val _ e)) with (dz e).
  rewrite psi_val_set, Hp. cbn [opt_get]. unfold io_ret. rewrite !io_bind_ok.
  assert (Hsum : np_sum (np_map (fun v => float_pow (Cabs v) 4.0)
                           (np_map (fun v => Cdivr v (sqrt n)) pv))
                 = np_sum (np_map (fun v => float_pow (Cabs v) 4.0) pv) / (n * n)).
  { unfold np_sum, np_map. simpl. rewrite map_map.
    rewrite <- Rsum_map_div. f_equal. apply map_ext. intros v.
    now apply quartic_rescaled. }
  rewrite Hsum. set (S0 := np_sum _).
  destruct (dim e =? 1)%Z.
  { intros H. injection H as <-. do 2 f_equal. field. lra. }
  destruct (dim e =? 2)%Z.
  { destruct (dy e) as [dy0|]; cbn [opt_get]; [|discriminate].
    unfold io_ret. rewrite !io_bind_ok.
    intros H. injection H as <-. do 2 f_equal. field. lra. }
  destruct (dim e =? 3)%Z.
  { destruct (dy e) as [dy0|]; cbn [opt_get]; [|discriminate].
    unfold io_ret. rewrite !io_bind_ok.
    destruct (dz e) as [dz0|]; cbn [opt_get]; [|discriminate].
    unfold io_ret. rewrite !io_bind_ok.
    intros H. injection H as <-. do 2 f_equal. field. lra. }
  discriminate.
Qed.

(** X23. The diagnostics of a step with dt <> 0. With c > 0 the p = 2 and
    q the p = 4 norm integral of the field as the step reaches its
    rescale, the step sets mu = -ln(c) / (2 dt) and
    E = mu - g q / (2 c^2): the quartic integral is taken after the
    rescale, on psi / sqrt(c). It prints mu, then E and
    mu_sol - g q / (2 c^2). *)
Theorem diagnostics_use_the_renormalized_field (e : engine) (pv : ndarray C)
    (c q : R) :
  psi_val e = Some pv -> dt e <> 0 ->
  get_norm e 2.0 = ([], Ok c) -> get_norm e 4.0 = ([], Ok q) -> 0 < c ->
  exists e',
    let m := - ln c / (2.0 * dt e) in
    let q' := q / (c * c) in
    renormalize_and_measure e
    = (([PrintMu m; PrintE (m - 0.5 * g e * q') (mu_sol e - 0.5 * g e * q')],
        Ok tt), e') /\
    mu e' = m /\ Schroedinger.E e' = m - 0.5 * g e * q' /\
    get_norm e' 4.0 = ([], Ok q') /\ t e' = t e.
Proof.
  intros Hp _ Hc Hq Hpos.
  destruct (@renormalize_and_measure_ok e pv c Hp Hc) as (q1 & Hq1 & Hr).
  rewrite (@get_norm_4_set_psi_val e pv c q Hp Hpos Hq) in Hq1.
  injection Hq1 as <-.
  eexists. cbv zeta. split; [exact Hr|].
  split; [reflexivity|]. split; [reflexivity|]. split; [|reflexivity].
  change (get_norm (set_psi_val (np_map (fun v => Cdivr v (sqrt c)) pv) e) 4.0
          = ([], Ok (q / (c * c)))).
  now apply get_norm_4_set_psi_val.
Qed.

Lemma diagnostics_use_the_renormalized_field_witness :
  exists e e',
    scenario_2d 2 1 0 = ([], Ok e) /\
    snd (renormalize_and_measure
           (set_psi_val (mk_nd [2; 2]%nat [(3, 0); (0, 4); (0, 0); (0, 0)]) e))
    = e' /\
    mu e' = - ln 25 / (2.0 * 0.01) /\
    Schroedinger.E e' = mu e' - 0.5 * g e * (337 / (25 * 25)).
Proof.
  destruct (@scenario_2d_built 2 1 0 ltac:(lia) ltac:(lra))
    as (e & pv & vv & He & Hb & _).
  set (a := mk_nd [2; 2]%nat [(3, 0); (0, 4); (0, 0); (0, 0)] : ndarray C).
  assert (Hn : forall p S0,
             np_sum (np_map (fun v => float_pow (Cabs v) p) a) = S0 ->
             get_norm (set_psi_val a e) p = ([], Ok S0)).
  { intros p S0 HS. unfold get_norm.
    change (dim (set_psi_val a e)) with (dim e).
    change (dx (set_psi_val a e)) with (dx e).
    change (dy (set_psi_val a e)) with (dy e).
    rewrite (built_dim Hb), (built_dx Hb), (built_dy Hb), psi_val_set.
    cbn [Z.eqb Pos.eqb Z.leb Z.compare Pos.compare Pos.compare_cont opt_get].
    unfold io_ret. rewrite !io_bind_ok.
    do 2 f_equal. rewrite <- HS. lra. }
  assert (H2 : get_norm (set_psi_val a e) 2.0 = ([], Ok 25)).
  { apply Hn. unfold np_sum, np_map, a. cbn [data map Rsum fold_right].
    rewrite !float_pow_Cabs_2 by lra. cbn [fst snd]. lra. }
  assert (H4 : get_norm (set_psi_val a e) 4.0 = ([], Ok 337)).
  { apply Hn. unfold np_sum, np_map, a. cbn [data map Rsum fold_right].
    rewrite !float_pow_Cabs_4 by lra. unfold density. cbn [fst snd]. lra. }
  assert (Hdt : dt (set_psi_val a e) <> 0).
  { change (dt (set_psi_val a e)) with (dt e). rewrite (built_dt Hb). lra. }
  destruct (@diagnostics_use_the_renormalized_field (set_psi_val a e) a 25
              337 eq_refl Hdt H2 H4 ltac:(lra)) as (e' & Hr & Hmu & HE & _).
  exists e, e'. split; [exact He|]. cbv zeta in Hr. rewrite Hr.
  split; [reflexivity|].
  change (dt (set_psi_val a e)) with (dt e) in Hmu, HE.
  change (g (set_psi_val a e)) with (g e) in HE.
  rewrite (built_dt Hb) in Hmu, HE.
  split; [exact Hmu|]. rewrite HE, Hmu. reflexivity.
Defined.

(** ** The norm integral *)

Lemma density_nonneg v : 0 <= density v.
Proof. unfold density. nra. Qed.

Lemma density_zero v : density v = 0 <-> v = (0, 0).
Proof.
  destruct v as [a b]. unfold density. cbn [fst snd]. split.
  - intros H. f_equal; nra.
  - intros H. injection H as -> ->. lra.
Qed.

Lemma Rsum_density l :
  0 <= Rsum (map density l) /\
  (Rsum (map density l) = 0 <-> forall v, In v l -> v = (0, 0)).
Proof.
  induction l as [|v l (IH0 & IH)]; cbn [map Rsum fold_right].
  - split; [lra|]. split; [intros _ v []|reflexivity].
  - fold (Rsum (map density l)). pose proof (density_nonneg v) as Hv.
    split; [lra|]. split.
    + intros H w [<- | Hw].
      * apply density_zero. lra.
      * apply IH; [lra | exact Hw].
    + intros H.
      assert (E1 : density v = 0) by (apply density_zero, H; now left).
      assert (E2 : Rsum (map density l) = 0)
        by (apply IH; intros w Hw; apply H; now right).
      lra.
Qed.

Lemma norm_sum_density (a : ndarray C) :
  np_sum (np_map (fun v => float_pow (Cabs v) 2.0) a) = Rsum (map density (data a)).
Proof.
  unfold np_sum, np_map. cbn [data]. f_equal. apply map_ext.
  intros v. unfold density. apply float_pow_Cabs_2. lra.
Qed.

(** X26. On an engine constructed with L > 0, whatever field it holds,
    the p = 2 norm integral is defined and not negative, and it is 0
    exactly when the field is 0 at every grid point. *)
Theorem norm_integral_vanishes_only_on_the_zero_field
    (resolution timesteps : Z) (L dt g : R) (imag_time : bool) (s E : R)
    (dim : Z) (psi_0 : callable_psi) (V : callable_V) (psi_sol : callable_sol)
    (mu_sol : R -> R) (alpha_psi alpha_V : R) (tr : list event) (e : engine)
    (a : ndarray C) :
  __init__ resolution timesteps L dt g imag_time s E dim
           psi_0 V psi_sol mu_sol alpha_psi alpha_V = (tr, Ok e) ->
  (1 <= dim <= 3)%Z -> 0 < L ->
  exists c,
    get_norm (set_psi_val a e) 2.0 = ([], Ok c) /\
    0 <= c /\
    (c = 0 <-> forall v, In v (data a) -> v = (0, 0)).
Proof.
  intros Hinit Hdim HL.
  destruct (@init_inv resolution timesteps L dt g imag_time s E dim psi_0 V
              psi_sol mu_sol alpha_psi alpha_V tr e Hinit Hdim)
    as (_ & Hn & _ & pv & vv & _ & _ & Hb).
  assert (Hd : 0 < 2.0 * L / IZR resolution).
  { apply Rdiv_lt_0_compat; [lra | apply IZR_lt; lia]. }
  destruct (Rsum_density (data a)) as [H0 Hz].
  unfold get_norm.
  change (Schroedinger.dim (set_psi_val a e)) with (Schroedinger.dim e).
  change (dx (set_psi_val a e)) with (dx e).
  change (dy (set_psi_val a e)) with (dy e).
  change (dz (set_psi_val a e)) with (dz e).
  rewrite psi_val_set, (built_dim Hb), (built_dx Hb), (built_dy Hb),
    (built_dz Hb).
  cbn [opt_get]. unfold io_ret. rewrite !io_bind_ok.
  rewrite !norm_sum_density.
  set (S0 := Rsum (map density (data a))) in *.
  set (d := 2.0 * L / IZR resolution) in *.
  clearbody d S0.
  assert (Hdd : 0 < d * d) by nra.
  assert (Hddd : 0 < d * d * d) by nra.
  assert (Hc : dim = 1%Z \/ dim = 2%Z \/ dim = 3%Z) by lia.
  destruct Hc as [-> | [-> | ->]];
    cbn [Z.eqb Pos.eqb Z.leb Z.compare Pos.compare Pos.compare_cont opt_get];
    unfold io_ret; rewrite ?io_bind_ok;
    (eexists; split; [reflexivity|]); rewrite <- Hz.
  - split; [nra|]. split; [intros Hp; nra | intros ->; ring].
  - replace (S0 * d * d) with (S0 * (d * d)) by ring.
    split; [nra|]. split; [intros Hp; nra | intros ->; ring].
  - replace (S0 * d * d * d) with (S0 * (d * d * d)) by ring.
    split; [nra|]. split; [intros Hp; nra | intros ->; ring].
Qed.

Lemma norm_integral_vanishes_only_on_the_zero_field_witness :
  exists e c,
    scenario 64 1 = ([], Ok e) /\
    get_norm (set_psi_val (mk_nd [1%nat] [(0, 0)]) e) 2.0 = ([], Ok c) /\
    c = 0.
Proof.
  destruct (@scenario_1d_built 64 ltac:(lia)) as (e & pv & vv & He & _).
  destruct (@norm_integral_vanishes_only_on_the_zero_field
              64 500 5 0.01 0 true 1.1 1.0 1 psi_0_1d V_1d psi_sol_1d mu_1d
              0.8 0.3 [] e (mk_nd [1%nat] [(0, 0)]) He ltac:(lia) ltac:(lra))
    as (c & Hc & _ & Hz).
  exists e, c. split; [exact He|]. split; [exact Hc|].
  apply Hz. intros v [<- | []]. reflexivity.
Defined.

(** ** The kinetic multiplication *)

Lemma bidx_last n m j : bidx [n] (m ++ [j]) = [if (n =? 1)%nat then 0%nat else j].
Proof.
  unfold bidx. rewrite length_app. cbn [length].
  replace (length m + 1 - 1)%nat with (length m) by lia.
  rewrite skipn_app, skipn_all, Nat.sub_diag. reflexivity.
Qed.

Lemma item_1d {A} `{Dflt A} (a : ndarray A) n j :
  shape a = [n] -> (j < n)%nat ->
  item a [if (n =? 1)%nat then 0%nat else j] = nth j (data a) dflt.
Proof.
  intros Hs Hj. unfold item. rewrite Hs. cbn [ravel size fold_right].
  destruct (Nat.eqb_spec n 1); f_equal; lia.
Qed.

(** X27. [self.H_kin * self.psi_val] broadcasts the one-dimensional H_kin
    along the last axis only: on a field of shape n x n the product at
    [i, j] is H_kin[j] psi[i, j], and on n x n x n at [i, j, k] it is
    H_kin[k] psi[i, j, k]; the other indices do not select a factor. *)
Theorem kinetic_factor_follows_the_last_axis (hk psi : ndarray C) (n : nat) :
  shape hk = [n] ->
  (shape psi = [n; n] ->
   exists r,
     np_binop Cmul hk psi = Ok r /\ shape r = [n; n] /\
     forall i j, (i < n)%nat -> (j < n)%nat ->
       item r [i; j] = Cmul (nth j (data hk) dflt) (item psi [i; j])) /\
  (shape psi = [n; n; n] ->
   exists r,
     np_binop Cmul hk psi = Ok r /\ shape r = [n; n; n] /\
     forall i j k, (i < n)%nat -> (j < n)%nat -> (k < n)%nat ->
       item r [i; j; k] = Cmul (nth k (data hk) dflt) (item psi [i; j; k])).
Proof.
  intros Hhk. split; intros Hs; unfold np_binop;
    rewrite Hhk, Hs, broadcast_last_axis by auto;
    eexists; (split; [reflexivity|]); (split; [reflexivity|]).
  - intros i j Hi Hj.
    rewrite item_tabulate by (apply index2_lt; assumption).
    rewrite (bidx_last n [i] j : bidx [n] [i; j] = _), item_1d by assumption.
    rewrite bidx_id by (apply index2_lt; assumption). reflexivity.
  - intros i j k Hi Hj Hk.
    rewrite item_tabulate by (apply index3_lt; assumption).
    rewrite (bidx_last n [i; j] k : bidx [n] [i; j; k] = _), item_1d
      by assumption.
    rewrite bidx_id by (apply index3_lt; assumption). reflexivity.
Qed.

Lemma kinetic_factor_follows_the_last_axis_witness :
  exists r,
    np_binop Cmul (mk_nd [2%nat] [(1, 0); (0, 1)])
                  (mk_nd [2; 2]%nat [(1, 0); (2, 0); (3, 0); (4, 0)]) = Ok r /\
    item r [1; 0]%nat
    = Cmul (1, 0) (item (mk_nd [2; 2]%nat [(1, 0); (2, 0); (3, 0); (4, 0)])
                        [1; 0]%nat).
Proof.
  destruct (@kinetic_factor_follows_the_last_axis
              (mk_nd [2%nat] [(1, 0); (0, 1)])
              (mk_nd [2; 2]%nat [(1, 0); (2, 0); (3, 0); (4, 0)]) 2 eq_refl)
    as [H2 _].
  destruct (H2 eq_refl) as (r & Hr & _ & Hent).
  exists r. split; [exact Hr|]. apply (Hent 1 0)%nat; lia.
Defined.

(** ** The rescale at the end of a step *)

(** [get_norm] with p = 2 computes the Riemann sum of the specification. *)
Lemma get_norm_is_norm_integral e psi vol :
  psi_val e = Some psi -> cell_volume e = Some vol ->
  get_norm e 2.0 = ([], Ok (norm_integral vol psi)).
Proof.
  intros Hp Hv. unfold get_norm, cell_volume, norm_integral in *.
  rewrite Hp. cbn [opt_get]. unfold io_ret. rewrite !io_bind_ok.
  rewrite norm_sum_density.
  destruct (dim e =? 1)%Z.
  { injection Hv as <-. reflexivity. }
  destruct (dim e =? 2)%Z.
  { destruct (dy e) as [dy0|]; [|discriminate]. injection Hv as <-.
    cbn [opt_get]. unfold io_ret. rewrite !io_bind_ok.
    do 2 f_equal. ring. }
  destruct (dim e =? 3)%Z; [|discriminate].
  destruct (dy e) as [dy0|]; [|discriminate].
  destruct (dz e) as [dz0|]; [|discriminate]. injection Hv as <-.
  cbn [opt_get]. unfold io_ret. rewrite !io_bind_ok.
  do 2 f_equal. ring.
Qed.

(** C6: on an engine of two or three dimensions with n > 0 samples per
    axis, let psi be the field when [time_step] reaches its rescale and
    vol the cell volume, the product of the spacings of the axes. The
    value [get_norm] computes there is the Riemann sum of |psi|^2 times
    vol. When it is positive, the step completes, leaves psi / sqrt(norm)
    in the field, and the p = 2 norm integral of that field, the value
    [get_norm] then returns, is 1. Nothing is assumed about g, so this
    holds for g = 0. *)
Theorem rescale_gives_unit_norm (n : nat) (e : engine) (psi : ndarray C)
    (vol : R) :
  grid_shaped n e -> (0 < n)%nat ->
  psi_val (at_rescale e) = Some psi ->
  cell_volume (at_rescale e) = Some vol ->
  0 < norm_integral vol psi ->
  let c := norm_integral vol psi in
  let psi' := np_map (fun v => Cdivr v (sqrt c)) psi in
  split_operator_update e = (([], Ok tt), at_rescale e) /\
  get_norm (at_rescale e) 2.0 = ([], Ok c) /\
  exists tr e',
    time_step e = ((tr, Ok tt), e') /\
    psi_val e' = Some psi' /\
    cell_volume e' = Some vol /\
    norm_integral vol psi' = 1 /\
    get_norm e' 2.0 = ([], Ok (norm_integral vol psi')).
Proof.
  intros (pv & vv & hk & Hp & Hv & Hk & Hs & Hhk & Hd) Hn0 Hpsi Hvol Hpos c psi'.
  assert (Hsh : shape pv = [n; n] \/ shape pv = [n; n; n])
    by (destruct Hd as [(_ & H & _) | (_ & H & _)]; auto).
  pose proof (@split_operator_update_ok e pv vv hk n Hp Hv Hk Hs Hhk Hsh Hn0)
    as Hu.
  assert (He1 : at_rescale e
                = set_t (t e + dt e)
                    (set_psi_val (split_step (U e) (g e) (dt e) vv hk pv) e))
    by (unfold at_rescale; now rewrite Hu).
  set (e1 := at_rescale e) in *.
  assert (Hc : get_norm e1 2.0 = ([], Ok c))
    by (now apply get_norm_is_norm_integral).
  destruct (@renormalize_and_measure_ok e1 psi c Hpsi Hc) as (q & Hq & Hr).
  set (e2 := set_psi_val psi' e1).
  assert (Hv2 : cell_volume e2 = Some vol) by exact Hvol.
  assert (H1 : norm_integral vol psi' = 1).
  { pose proof (@get_norm_set_psi_val e1 psi c c Hpsi Hpos Hc) as Ha.
    pose proof (@get_norm_is_norm_integral e2 psi' vol (psi_val_set _ _) Hv2)
      as Hb.
    fold psi' e2 in Ha. rewrite Ha in Hb. injection Hb as Hb. rewrite <- Hb.
    apply Rinv_r, Rgt_not_eq. exact Hpos. }
  split; [now rewrite <- He1 in Hu|]. split; [exact Hc|].
  do 2 eexists. split; [|split; [|split; [|split]]].
  - unfold time_step, py_bind. rewrite Hu. cbn [snd fst]. rewrite <- He1.
    fold e1. rewrite Hr. reflexivity.
  - reflexivity.
  - exact Hvol.
  - exact H1.
  - apply get_norm_is_norm_integral; [reflexivity | exact Hvol].
Qed.

(** On a grid of a single point the transforms have one term, and a field
    that is not zero there stays so through the split step. *)
Lemma density_Cexp_pos z : 0 < density (Cexp z).
Proof.
  unfold density, Cexp. cbn [fst snd].
  pose proof (exp_pos (fst z)) as He.
  pose proof (sin2_cos2 (snd z)) as H. unfold Rsqr in H.
  replace (exp (fst z) * cos (snd z) * (exp (fst z) * cos (snd z))
           + exp (fst z) * sin (snd z) * (exp (fst z) * sin (snd z)))
    with (exp (fst z) * exp (fst z)
          * (sin (snd z) * sin (snd z) + cos (snd z) * cos (snd z))) by ring.
  rewrite H. nra.
Qed.

Lemma density_Cmul_pos a b :
  0 < density a -> 0 < density b -> 0 < density (Cmul a b).
Proof. intros Ha Hb. rewrite density_Cmul. now apply Rmult_lt_0_compat. Qed.

Lemma density_Csum_single a : density (Csum [a]) = density a.
Proof.
  unfold Csum, density, Cadd, RtoC. cbn [fold_right fst snd].
  rewrite !Rplus_0_r. reflexivity.
Qed.

Lemma density_Cdivr_1 a : density (Cdivr a (INR 1)) = density a.
Proof.
  unfold density, Cdivr. cbn [fst snd INR]. unfold Rdiv.
  rewrite Rinv_1, !Rmult_1_r. reflexivity.
Qed.

Lemma single_point_step U g dt (vv : ndarray R) (hk pv : ndarray C) :
  shape vv = [1; 1]%nat -> shape pv = [1; 1]%nat -> shape hk = [1%nat] ->
  0 < density (nth 0 (data hk) dflt) -> 0 < density (nth 0 (data pv) dflt) ->
  exists q, data (split_step U g dt vv hk pv) = [q] /\ 0 < density q.
Proof.
  destruct vv as [sv dv], hk as [sh dh], pv as [sp dp]. cbn [shape data].
  intros -> -> -> Hh Hp.
  eexists. split.
  - unfold split_step, potential_half_step, idft, dft, kinetic_step, zip_nd,
      np_map, tabulate.
    cbn [shape data size fold_right Nat.mul seq map unravel Nat.div Nat.modulo
         Nat.divmod fst snd Nat.add item ravel bidx combine skipn length Nat.sub
         Nat.eqb nth].
    reflexivity.
  - apply density_Cmul_pos; [apply density_Cexp_pos|].
    rewrite density_Cdivr_1, density_Csum_single.
    apply density_Cmul_pos; [|apply density_Cexp_pos].
    apply density_Cmul_pos; [exact Hh|].
    rewrite density_Csum_single.
    apply density_Cmul_pos; [|apply density_Cexp_pos].
    apply density_Cmul_pos; [apply density_Cexp_pos | exact Hp].
Qed.

(** The engine of two dimensions on a single grid point, with the field
    set to 1 there. *)
Lemma rescale_gives_unit_norm_witness :
  exists e0 tr e',
    scenario_2d 1 1 0 = ([], Ok e0) /\
    time_step (set_psi_val (mk_nd [1; 1]%nat [(1, 0)]) e0) = ((tr, Ok tt), e') /\
    get_norm e' 2.0 = ([], Ok 1).
Proof.
  destruct (@scenario_2d_built 1 1 0 ltac:(lia) ltac:(lra))
    as (e0 & pv0 & vv & He & Hb & _ & Hsv).
  set (a := mk_nd [1; 1]%nat [(1, 0)] : ndarray C).
  set (e := set_psi_val a e0).
  set (hk := kinetic_propagator (RtoC (-1.0)) (k_squared_of 2 1 1) 0.01).
  assert (Hv : V_val e = Some vv) by (exact (built_V_val Hb)).
  assert (Hk : H_kin e = Some hk) by (exact (built_H_kin Hb)).
  assert (Hsv' : shape vv = [1; 1]%nat) by exact Hsv.
  assert (Hhk : shape hk = [1%nat])
    by (exact (shape_k_squared_of 1 1 2)).
  assert (Hg : grid_shaped 1 e).
  { exists a, vv, hk. split; [reflexivity|]. split; [exact Hv|].
    split; [exact Hk|]. split; [exact Hsv'|]. split; [exact Hhk|].
    left. split; [exact (built_dim Hb)|]. split; [reflexivity|].
    eexists. exact (built_dy Hb). }
  pose proof (@split_operator_update_ok e a vv hk 1 eq_refl Hv Hk Hsv' Hhk
                (or_introl eq_refl) ltac:(lia)) as Hu.
  set (p5 := split_step (U e) (g e) (dt e) vv hk a) in Hu.
  assert (Hat : at_rescale e = set_t (t e + dt e) (set_psi_val p5 e))
    by (unfold at_rescale; now rewrite Hu).
  assert (Hpsi : psi_val (at_rescale e) = Some p5) by (now rewrite Hat).
  assert (Hvol : cell_volume (at_rescale e) = Some (2 * 2)).
  { rewrite Hat. unfold cell_volume.
    change (dim (set_t _ _)) with (dim e0).
    change (dx (set_t _ _)) with (dx e0).
    change (dy (set_t _ _)) with (dy e0).
    rewrite (built_dim Hb), (built_dx Hb), (built_dy Hb).
    cbn [Z.eqb Pos.eqb Z.leb Z.compare Pos.compare Pos.compare_cont].
    do 2 f_equal; lra. }
  assert (Hh : 0 < density (nth 0 (data hk) dflt)).
  { unfold hk, kinetic_propagator.
    assert (Hl : (0 < length (data (k_squared_of 2 1 1)))%nat).
    { unfold k_squared_of. cbn [Z.leb Z.compare Pos.compare Pos.compare_cont].
      unfold zip_nd. rewrite (wf_tabulate _ _).
      change (0 < 1 * 1)%nat. lia. }
    rewrite (@nth_np_map _ _ _ (k_squared_of 2 1 1) 0%nat 0 dflt Hl).
    apply density_Cexp_pos. }
  assert (Hp : 0 < density (nth 0 (data a) dflt)).
  { unfold a, density. cbn [data nth fst snd]. lra. }
  destruct (@single_point_step (U e) (g e) (dt e) vv hk a Hsv' eq_refl Hhk
              Hh Hp) as (q & Hq & Hqpos).
  fold p5 in Hq.
  assert (Hpos : 0 < norm_integral (2 * 2) p5).
  { unfold norm_integral. rewrite Hq. cbn [map Rsum fold_right]. lra. }
  destruct (@rescale_gives_unit_norm 1 e p5 (2 * 2) Hg ltac:(lia) Hpsi Hvol
              Hpos) as (_ & _ & tr & e' & Hstep & _ & _ & H1 & Hn).
  exists e0, tr, e'. split; [exact He|]. split; [exact Hstep|].
  rewrite Hn, H1. reflexivity.
Defined.
